(** * Kumar-Visuals backend: order lifecycle and entitlement engine

    A shallow embedding of the order service (pricing, settlement), the
    refund service, the Razorpay webhook controller, the client-verify
    controller and the idle-order reaper, together with the properties the
    specification states about them.

    Conventions of the embedding.
    - A JavaScript [number] that holds money is a rational ([Q]); binary
      floating-point rounding error is outside the model.  [NaN] and the
      infinities are not represented.
    - A [Date] is its millisecond time stamp ([Z]); calendar arithmetic is
      done in UTC.
    - Every clock read made during one call of an operation returns the same
      instant [now], which the operation takes as an argument.
    - A Mongo collection is a finite map from the unique key ([_id]; the code
      of a promo code; the key of a membership plan) to the other fields of
      the document, so a loaded document is the pair of its key and a record.
    - An [async] function is a state transformer over [World] that either
      returns normally or throws; operations run one after the other. *)

From Stdlib Require Import ZArith QArith Qround Qabs String Ascii Lia.
From stdpp Require Import base strings gmap list option.

Local Open Scope Z_scope.

(** ** Completions and the state monad of asynchronous code *)

Inductive completion (A : Type) : Type :=
| Normal (a : A)
| Throw (e : string).
Arguments Normal {A} a.
Arguments Throw {A} e.

Definition Js (S A : Type) : Type := S -> completion A * S.

Definition ret {S A : Type} (a : A) : Js S A := fun s => (Normal a, s).

Definition throw {S A : Type} (e : string) : Js S A := fun s => (Throw e, s).

Definition bind {S A B : Type} (c : Js S A) (k : A -> Js S B) : Js S B :=
  fun s => match c s with
           | (Normal a, s') => k a s'
           | (Throw e, s') => (Throw e, s')
           end.

(** [try { c } catch (e) { h e }]: the handler runs in the state reached when
    the exception was thrown. *)
Definition try_catch {S A : Type} (c : Js S A) (h : string -> Js S A) : Js S A :=
  fun s => match c s with
           | (Normal a, s') => (Normal a, s')
           | (Throw e, s') => h e s'
           end.

Definition gets {S A : Type} (f : S -> A) : Js S A := fun s => (Normal (f s), s).

Definition modify {S : Type} (f : S -> S) : Js S unit := fun s => (Normal tt, f s).

Notation "'let!' x ':=' c 'in' k" := (bind c (fun x => k))
  (at level 10, x name, c at level 100, k at level 200).
Notation "c ';;' k" := (bind c (fun _ => k))
  (at level 100, k at level 200, right associativity).

(** JavaScript truthiness of an optional string: [undefined], [null] and the
    empty string are falsy. *)
Definition truthy (s : option string) : bool :=
  match s with
  | Some x => negb (String.eqb x "")
  | None => false
  end.

(** ** Data model *)

(** [orderSchema.status] *)
Inductive OrderStatus : Type :=
| PENDING | PAID | FAILED | CANCELLED | REFUND_INITIATED | REFUNDED.

#[global] Instance OrderStatus_eq_dec : EqDecision OrderStatus.
Proof. solve_decision. Defined.

Definition statusName (s : OrderStatus) : string :=
  match s with
  | PENDING => "PENDING"
  | PAID => "PAID"
  | FAILED => "FAILED"
  | CANCELLED => "CANCELLED"
  | REFUND_INITIATED => "REFUND_INITIATED"
  | REFUNDED => "REFUNDED"
  end.

(** The values [orderSchema.cancelReason] admits besides [null]. *)
Definition cancelReasonEnum : list string :=
  ["PAYMENT_TIMEOUT"; "MIN_PAYABLE_VIOLATION"; "USER_CANCELLED";
   "ADMIN_CANCELLED"; "SYSTEM_CANCELLED"].

(** [orderItemSchema] *)
Record OrderItem : Type := {
  product : string;
  titleSnapshot : string;
  priceSnapshot : Q;
  mrpSnapshot : Q;
  currencySnapshot : string;
  discountPercentSnapshot : Z;
}.

(** The payment entity and the refund entity of a gateway webhook; only the
    fields the handlers read. *)
Record PaymentEntity : Type := {
  pe_id : string;
  pe_order_id : string;
}.

Record RefundEntity : Type := {
  re_id : string;
  re_payment_id : string;
}.

(** [paymentRaw] is [Mixed]; these are the keys the code writes or queries. *)
Record PaymentRaw : Type := {
  source : option string;
  event : option string;
  payload : option PaymentEntity;
  razorpayOrderId : option string;
  razorpayPaymentId : option string;
  razorpaySignature : option string;
  verifiedBy : option string;
  refundInitiatedAt : option Z;
  refundRequest : option string;
  refundErrors : list (string * Z);
  refundCompletedAt : option Z;
  refund : option RefundEntity;
}.

Definition emptyRaw : PaymentRaw :=
  {| source := None; event := None; payload := None; razorpayOrderId := None;
     razorpayPaymentId := None; razorpaySignature := None; verifiedBy := None;
     refundInitiatedAt := None; refundRequest := None; refundErrors := [];
     refundCompletedAt := None; refund := None |}.

(** [orderSchema] with its time stamp [createdAt]; an absent optional field is
    [None]. *)
Record Order : Type := {
  user : string;
  items : list OrderItem;
  membershipPlanKey : option string;
  membershipMonths : Z;
  currency : string;
  subtotal : Q;
  tax : Q;
  convenienceFee : Q;
  total : Q;
  status : OrderStatus;
  cancelReason : option string;
  paymentOrderId : option string;
  paymentId : option string;
  paymentSignature : option string;
  paymentRaw : option PaymentRaw;
  promoCode : option string;
  promoDiscount : Q;
  completedAt : option Z;
  createdAt : Z;
}.

(** [userSchema.purchasedProducts] entry *)
Record Purchase : Type := {
  pp_product : string;
  purchasedAt : Z;
  pp_source : string;
}.

(** [userSchema.membership] *)
Record Membership : Type := {
  planKey : option string;
  startedAt : option Z;
  expiresAt : option Z;
  m_status : string;
}.

(** [userSchema.membershipUsage] *)
Record MembershipUsage : Type := {
  periodStart : option Z;
  downloadsUsed : Z;
  remixRequestsUsed : Z;
}.

Record User : Type := {
  isDeleted : bool;
  isBanned : bool;
  purchasedProducts : list Purchase;
  membership : Membership;
  membershipUsage : MembershipUsage;
}.

(** A promo-code document as the order service reads it ([.lean()]). *)
Record PromoCode : Type := {
  isActive : bool;
  promo_expiresAt : option Z;
  minOrderAmount : Q;
  discountType : option string;
  discountValue : Q;
  maxDiscount : Q;
  usageLimit : option Z;
  usedCount : Z;
}.

Record Product : Type := {
  slug : string;
  title : string;
  price : option Q;
  mrp : option Q;
  p_currency : option string;
  visibility : string;
}.

Record MembershipPlan : Type := {
  plan_isActive : bool;
  plan_price : Q;
  plan_currency : option string;
}.

(** One entry of the trace of status writes: the order, the status the stored
    document had before the write ([None] when the write inserts it) and the
    status written.  The trace is ghost state: no operation reads it. *)
Record StatusChange : Type := {
  sc_order : string;
  sc_from : option OrderStatus;
  sc_to : OrderStatus;
}.

Record Db : Type := {
  orders : gmap string Order;
  users : gmap string User;
  promocodes : gmap string PromoCode;
  products : gmap string Product;
  membershipplans : gmap string MembershipPlan;
  statusTrace : list StatusChange;
}.

(** An entry of the in-process [PROMO_CACHE]. *)
Record CacheEntry : Type := {
  data : PromoCode;
  timestamp : Z;
}.

(** The process: the committed database, the working copy of the open
    transaction ([session]), the module-level state of the order service and
    of the reaper, and the calls made to the gateway and to the mailer. *)
Record World : Type := {
  committed : Db;
  session : option Db;
  PROMO_CACHE : list (string * CacheEntry);
  isRunning : bool;
  readyState : Z;
  refundCalls : list (option string * Z);
  emails : list string;
}.

(** ** Field updates

    A loaded Mongoose document tracks the paths assigned since it was loaded;
    [save] validates and writes exactly those.  The same assignments are the
    [$set] part of an update operator. *)

Inductive Assign : Type :=
| SetStatus (s : OrderStatus)
| SetCancelReason (r : string)
| SetPaymentOrderId (i : string)
| SetPaymentId (i : string)
| SetPaymentSignature (g : string)
| SetPaymentRaw (r : PaymentRaw)
| SetCompletedAt (t : Z).

Definition rebuild (o : Order) (st : OrderStatus) (cr poi pi ps : option string)
    (raw : option PaymentRaw) (ca : option Z) : Order :=
  {| user := user o; items := items o;
     membershipPlanKey := membershipPlanKey o;
     membershipMonths := membershipMonths o; currency := currency o;
     subtotal := subtotal o; tax := tax o; convenienceFee := convenienceFee o;
     total := total o; status := st; cancelReason := cr; paymentOrderId := poi;
     paymentId := pi; paymentSignature := ps; paymentRaw := raw;
     promoCode := promoCode o; promoDiscount := promoDiscount o;
     completedAt := ca; createdAt := createdAt o |}.

Definition assign (a : Assign) (o : Order) : Order :=
  match a with
  | SetStatus s =>
      rebuild o s (cancelReason o) (paymentOrderId o) (paymentId o)
        (paymentSignature o) (paymentRaw o) (completedAt o)
  | SetCancelReason r =>
      rebuild o (status o) (Some r) (paymentOrderId o) (paymentId o)
        (paymentSignature o) (paymentRaw o) (completedAt o)
  | SetPaymentOrderId i =>
      rebuild o (status o) (cancelReason o) (Some i) (paymentId o)
        (paymentSignature o) (paymentRaw o) (completedAt o)
  | SetPaymentId i =>
      rebuild o (status o) (cancelReason o) (paymentOrderId o) (Some i)
        (paymentSignature o) (paymentRaw o) (completedAt o)
  | SetPaymentSignature g =>
      rebuild o (status o) (cancelReason o) (paymentOrderId o) (paymentId o)
        (Some g) (paymentRaw o) (completedAt o)
  | SetPaymentRaw r =>
      rebuild o (status o) (cancelReason o) (paymentOrderId o) (paymentId o)
        (paymentSignature o) (Some r) (completedAt o)
  | SetCompletedAt t =>
      rebuild o (status o) (cancelReason o) (paymentOrderId o) (paymentId o)
        (paymentSignature o) (paymentRaw o) (Some t)
  end.

(** The assignments are applied in program order. *)
Definition assignAll (l : list Assign) (o : Order) : Order :=
  foldl (fun acc a => assign a acc) o l.

(** The schema validators that concern an assigned path: [status] is typed by
    its enum, [cancelReason] must be one of [cancelReasonEnum]. *)
Definition assignValid (a : Assign) : bool :=
  match a with
  | SetCancelReason r => bool_decide (r ∈ cancelReasonEnum)
  | _ => true
  end.

Definition withMembership (m : Membership) (u : User) : User :=
  {| isDeleted := isDeleted u; isBanned := isBanned u;
     purchasedProducts := purchasedProducts u; membership := m;
     membershipUsage := membershipUsage u |}.

Definition withMembershipUsage (mu : MembershipUsage) (u : User) : User :=
  {| isDeleted := isDeleted u; isBanned := isBanned u;
     purchasedProducts := purchasedProducts u; membership := membership u;
     membershipUsage := mu |}.

Definition withPurchasedProducts (l : list Purchase) (u : User) : User :=
  {| isDeleted := isDeleted u; isBanned := isBanned u;
     purchasedProducts := l; membership := membership u;
     membershipUsage := membershipUsage u |}.

Definition withUsedCount (n : Z) (p : PromoCode) : PromoCode :=
  {| isActive := isActive p; promo_expiresAt := promo_expiresAt p;
     minOrderAmount := minOrderAmount p; discountType := discountType p;
     discountValue := discountValue p; maxDiscount := maxDiscount p;
     usageLimit := usageLimit p; usedCount := n |}.

Definition withOrders (os : gmap string Order) (tr : list StatusChange) (d : Db) : Db :=
  {| orders := os; users := users d; promocodes := promocodes d;
     products := products d; membershipplans := membershipplans d;
     statusTrace := tr |}.

Definition withUsers (us : gmap string User) (d : Db) : Db :=
  {| orders := orders d; users := us; promocodes := promocodes d;
     products := products d; membershipplans := membershipplans d;
     statusTrace := statusTrace d |}.

Definition withPromocodes (ps : gmap string PromoCode) (d : Db) : Db :=
  {| orders := orders d; users := users d; promocodes := ps;
     products := products d; membershipplans := membershipplans d;
     statusTrace := statusTrace d |}.

Definition withCommitted (d : Db) (w : World) : World :=
  {| committed := d; session := session w; PROMO_CACHE := PROMO_CACHE w;
     isRunning := isRunning w; readyState := readyState w;
     refundCalls := refundCalls w; emails := emails w |}.

Definition withSession (s : option Db) (w : World) : World :=
  {| committed := committed w; session := s; PROMO_CACHE := PROMO_CACHE w;
     isRunning := isRunning w; readyState := readyState w;
     refundCalls := refundCalls w; emails := emails w |}.

Definition withCache (c : list (string * CacheEntry)) (w : World) : World :=
  {| committed := committed w; session := session w; PROMO_CACHE := c;
     isRunning := isRunning w; readyState := readyState w;
     refundCalls := refundCalls w; emails := emails w |}.

Definition withIsRunning (b : bool) (w : World) : World :=
  {| committed := committed w; session := session w;
     PROMO_CACHE := PROMO_CACHE w; isRunning := b; readyState := readyState w;
     refundCalls := refundCalls w; emails := emails w |}.

Definition withRefundCalls (l : list (option string * Z)) (w : World) : World :=
  {| committed := committed w; session := session w;
     PROMO_CACHE := PROMO_CACHE w; isRunning := isRunning w;
     readyState := readyState w; refundCalls := l; emails := emails w |}.

Definition withEmails (l : list string) (w : World) : World :=
  {| committed := committed w; session := session w;
     PROMO_CACHE := PROMO_CACHE w; isRunning := isRunning w;
     readyState := readyState w; refundCalls := refundCalls w; emails := l |}.

(** ** Database primitives *)

(** The database a call works on: the working copy of the open transaction
    when the call passes [{ session }], the committed database otherwise. *)
Definition dbOf (inSession : bool) (w : World) : Db :=
  if inSession then default (committed w) (session w) else committed w.

Definition putDb (inSession : bool) (d : Db) (w : World) : World :=
  match inSession, session w with
  | true, Some _ => withSession (Some d) w
  | _, _ => withCommitted d w
  end.

(** [session.startTransaction()], [commitTransaction()], [abortTransaction()] *)
Definition startTransaction : Js World unit :=
  modify (fun w => withSession (Some (committed w)) w).

Definition commitTransaction : Js World unit :=
  fun w => match session w with
           | Some d => (Normal tt, withSession None (withCommitted d w))
           | None => (Throw "No transaction started", w)
           end.

Definition abortTransaction : Js World unit :=
  modify (withSession None).

(** What a write of [o'] under [id] adds to the trace. *)
Definition traceOf (d : Db) (id : string) (o' : Order) : list StatusChange :=
  match orders d !! id with
  | Some o =>
      if decide (status o = status o') then []
      else [{| sc_order := id; sc_from := Some (status o); sc_to := status o' |}]
  | None => [{| sc_order := id; sc_from := None; sc_to := status o' |}]
  end.

Definition storeOrder (id : string) (o' : Order) (d : Db) : Db :=
  withOrders (<[id := o']> (orders d)) (statusTrace d ++ traceOf d id o') d.

Definition Order_findById (inSession : bool) (id : string) : Js World (option Order) :=
  gets (fun w => orders (dbOf inSession w) !! id).

(** [order.save()]: the validators of the assigned paths run first; then the
    assigned paths are written to the stored document. *)
Definition Order_save (inSession : bool) (id : string) (l : list Assign) : Js World unit :=
  fun w =>
    if forallb assignValid l then
      match orders (dbOf inSession w) !! id with
      | Some stored =>
          (Normal tt,
           putDb inSession (storeOrder id (assignAll l stored) (dbOf inSession w)) w)
      | None => (Throw "No document found for query", w)
      end
    else (Throw "Order validation failed", w).

Definition User_findById (inSession : bool) (id : string) : Js World (option User) :=
  gets (fun w => users (dbOf inSession w) !! id).

(** [user.save()] after the given in-place change of the loaded document. *)
Definition User_save (inSession : bool) (id : string) (change : User -> User) : Js World unit :=
  fun w =>
    match users (dbOf inSession w) !! id with
    | Some stored =>
        (Normal tt,
         putDb inSession
           (withUsers (<[id := change stored]> (users (dbOf inSession w)))
              (dbOf inSession w)) w)
    | None => (Throw "No document found for query", w)
    end.

(** ** Calendar arithmetic: [d.setMonth(d.getMonth() + n)] in UTC *)

Definition msPerDay : Z := 86400000.

(** Day number (days since 1970-01-01) of the civil date [y]-[m]-[d], with
    [m] in 1..12. *)
Definition daysFromCivil (y m d : Z) : Z :=
  let y' := if m <=? 2 then y - 1 else y in
  let era := y' / 400 in
  let yoe := y' - era * 400 in
  let mp := if 2 <? m then m - 3 else m + 9 in
  let doy := (153 * mp + 2) / 5 + d - 1 in
  let doe := yoe * 365 + yoe / 4 - yoe / 100 + doy in
  era * 146097 + doe - 719468.

(** Civil date (year, month 1..12, day of month) of a day number. *)
Definition civilFromDays (z : Z) : Z * Z * Z :=
  let z' := z + 719468 in
  let era := z' / 146097 in
  let doe := z' - era * 146097 in
  let yoe := (doe - doe / 1460 + doe / 36524 - doe / 146096) / 365 in
  let doy := doe - (365 * yoe + yoe / 4 - yoe / 100) in
  let mp := (5 * doy + 2) / 153 in
  let d := doy - (153 * mp + 2) / 5 + 1 in
  let m := if mp <? 10 then mp + 3 else mp - 9 in
  (if m <=? 2 then yoe + era * 400 + 1 else yoe + era * 400, m, d).

(** [MakeDate(MakeDay(year, getMonth() + n, getDate()), TimeWithinDay(t))]:
    a day of month past the end of the target month overflows into the next
    month, as [setMonth] does. *)
Definition addMonths (t n : Z) : Z :=
  let '(y, m, dt) := civilFromDays (t / msPerDay) in
  let month := m - 1 + n in
  let ym := y + month / 12 in
  let mn := month mod 12 in
  (daysFromCivil ym (mn + 1) 1 + dt - 1) * msPerDay + t mod msPerDay.

(** ** Settlement: [order.service.js] *)

Definition isHexDigit (c : ascii) : bool :=
  let n := Z.of_nat (nat_of_ascii c) in
  ((48 <=? n) && (n <=? 57)) || ((65 <=? n) && (n <=? 70))
  || ((97 <=? n) && (n <=? 102)).

(** [mongoose.Types.ObjectId.isValid] on a string: 24 hexadecimal digits (the
    12-byte form is not represented). *)
Definition ObjectId_isValid (s : string) : bool :=
  (Z.of_nat (String.length s) =? 24) && forallb isHexDigit (list_ascii_of_string s).

(** The filter of [updatePromoUsage] on the document found under the code:
    [isActive: true] and the [$or] of the three capacity clauses. *)
Definition promoGuard (p : PromoCode) : bool :=
  isActive p &&
  match usageLimit p with
  | None => true
  | Some l => (l =? 0) || (usedCount p <? l)
  end.

(** [PromoCode.updateOne(filter, { $inc: { usedCount: 1 } }, { session })];
    the result is [modifiedCount]. *)
Definition PromoCode_updateOne_inc (inSession : bool) (promoCode : string) : Js World Z :=
  fun w =>
    let d := dbOf inSession w in
    match promocodes d !! promoCode with
    | Some p =>
        if promoGuard p then
          (Normal 1,
           putDb inSession
             (withPromocodes
                (<[promoCode := withUsedCount (usedCount p + 1) p]> (promocodes d)) d) w)
        else (Normal 0, w)
    | None => (Normal 0, w)
    end.

(** [PROMO_CACHE.delete(code)] *)
Definition cacheDelete (k : string) (c : list (string * CacheEntry)) : list (string * CacheEntry) :=
  filter (fun e => e.1 ≠ k) c.

Definition updatePromoUsage (promoCode : string) : Js World unit :=
  let! modifiedCount := PromoCode_updateOne_inc true promoCode in
  if negb (modifiedCount =? 1) then throw "Promo code usage limit exceeded"
  else modify (fun w => withCache (cacheDelete promoCode (PROMO_CACHE w)) w).

(** [isActive] of [activateMembership]: the current membership is ACTIVE, has
    an expiry later than [now], and is for the plan of the order. *)
Definition renews (now : Z) (order : Order) (current : Membership) : bool :=
  String.eqb (m_status current) "ACTIVE"
  && match expiresAt current with
     | Some currentExpiry => now <? currentExpiry
     | None => false
     end
  && bool_decide (planKey current = membershipPlanKey order).

(** [order.membershipMonths || 1] *)
Definition monthsOf (order : Order) : Z :=
  if membershipMonths order =? 0 then 1 else membershipMonths order.

(** The in-place changes [activateMembership] makes to the loaded user. *)
Definition activated (now : Z) (order : Order) (u : User) : User :=
  let current := membership u in
  let isActive' := renews now order current in
  let baseDate := if isActive' then default now (expiresAt current) else now in
  let u1 :=
    if isActive' then u
    else withMembershipUsage
           {| periodStart := Some now; downloadsUsed := 0; remixRequestsUsed := 0 |} u in
  withMembership
    {| planKey := membershipPlanKey order;
       m_status := "ACTIVE";
       startedAt := if isActive' then startedAt current else Some now;
       expiresAt := Some (addMonths baseDate (monthsOf order)) |} u1.

Definition activateMembership (now : Z) (order : Order) (uid : string) (u : User) : Js World unit :=
  User_save true uid (fun stored =>
    withMembershipUsage (membershipUsage (activated now order u))
      (withMembership (membership (activated now order u)) stored)).

(** [productIds] and [newPurchases] of [grantProductAccess]. *)
Definition productIdsOf (order : Order) : list string :=
  filter (fun id => id ≠ "") (map product (items order)).

Definition newPurchasesOf (now : Z) (order : Order) (u : User) : list Purchase :=
  let existing := map pp_product (purchasedProducts u) in
  map (fun id => {| pp_product := id; purchasedAt := now; pp_source := "order" |})
      (filter (fun id => id ∉ existing) (productIdsOf order)).

Definition grantProductAccess (now : Z) (order : Order) (uid : string) (u : User) : Js World unit :=
  if (length (productIdsOf order) =? 0)%nat then ret tt
  else
    let newPurchases := newPurchasesOf now order u in
    if (0 <? length newPurchases)%nat then
      User_save true uid (fun stored =>
        withPurchasedProducts (purchasedProducts u ++ newPurchases) stored)
    else ret tt.

(** The [try] block of [markOrderPaidAndGrantAccess]. *)
Definition settleInTransaction (now : Z) (orderId paymentId paymentSignature : string)
    (paymentRaw : PaymentRaw) : Js World Order :=
  let! found := Order_findById true orderId in
  match found with
  | None => throw "Order not found"
  | Some loaded =>
      if decide (status loaded = PAID) then
        commitTransaction ;; ret loaded
      else if negb (bool_decide (status loaded = PENDING)) then
        throw ("Cannot process order with status: " +:+ statusName (status loaded))
      else
        let changes :=
          [SetStatus PAID; SetPaymentId paymentId;
           SetPaymentSignature paymentSignature; SetPaymentRaw paymentRaw;
           SetCompletedAt now] in
        let order := assignAll changes loaded in
        Order_save true orderId changes ;;
        (match promoCode order with
         | Some c => if truthy (Some c) then updatePromoUsage c else ret tt
         | None => ret tt
         end) ;;
        let! found_user := User_findById true (user order) in
        match found_user with
        | None => throw "Invalid user state"
        | Some u =>
            if isDeleted u || isBanned u then throw "Invalid user state"
            else
              (if truthy (membershipPlanKey order)
               then activateMembership now order (user order) u
               else grantProductAccess now order (user order) u) ;;
              commitTransaction ;;
              ret order
        end
  end.

(** [session.endSession()]: a transaction still open is dropped. *)
Definition endSession : Js World unit := modify (withSession None).

(** [try { c } finally { f }] *)
Definition finally {S A : Type} (c : Js S A) (f : Js S unit) : Js S A :=
  fun s => match c s with
           | (r, s') => match f s' with
                        | (Normal _, s'') => (r, s'')
                        | (Throw e, s'') => (Throw e, s'')
                        end
           end.

Definition markOrderPaidAndGrantAccess (now : Z) (orderId paymentId paymentSignature : string)
    (paymentRaw : PaymentRaw) : Js World Order :=
  if negb (ObjectId_isValid orderId) then throw "Invalid order ID"
  else
    startTransaction ;;
    finally
      (try_catch
         (settleInTransaction now orderId paymentId paymentSignature paymentRaw)
         (fun error => abortTransaction ;; throw error))
      endSession.

(** ** Refund service: [refund.service.js] *)

Definition withRefundInitiatedAt (t : Z) (r : PaymentRaw) : PaymentRaw :=
  {| source := source r; event := event r; payload := payload r;
     razorpayOrderId := razorpayOrderId r;
     razorpayPaymentId := razorpayPaymentId r;
     razorpaySignature := razorpaySignature r; verifiedBy := verifiedBy r;
     refundInitiatedAt := Some t; refundRequest := refundRequest r;
     refundErrors := refundErrors r; refundCompletedAt := refundCompletedAt r;
     refund := refund r |}.

Definition withRefundRequest (i : string) (r : PaymentRaw) : PaymentRaw :=
  {| source := source r; event := event r; payload := payload r;
     razorpayOrderId := razorpayOrderId r;
     razorpayPaymentId := razorpayPaymentId r;
     razorpaySignature := razorpaySignature r; verifiedBy := verifiedBy r;
     refundInitiatedAt := refundInitiatedAt r; refundRequest := Some i;
     refundErrors := refundErrors r; refundCompletedAt := refundCompletedAt r;
     refund := refund r |}.

Definition pushRefundError (e : string * Z) (r : PaymentRaw) : PaymentRaw :=
  {| source := source r; event := event r; payload := payload r;
     razorpayOrderId := razorpayOrderId r;
     razorpayPaymentId := razorpayPaymentId r;
     razorpaySignature := razorpaySignature r; verifiedBy := verifiedBy r;
     refundInitiatedAt := refundInitiatedAt r; refundRequest := refundRequest r;
     refundErrors := refundErrors r ++ [e];
     refundCompletedAt := refundCompletedAt r; refund := refund r |}.

Definition withRefundCompleted (t : Z) (f : RefundEntity) (r : PaymentRaw) : PaymentRaw :=
  {| source := source r; event := event r; payload := payload r;
     razorpayOrderId := razorpayOrderId r;
     razorpayPaymentId := razorpayPaymentId r;
     razorpaySignature := razorpaySignature r; verifiedBy := verifiedBy r;
     refundInitiatedAt := refundInitiatedAt r; refundRequest := refundRequest r;
     refundErrors := refundErrors r; refundCompletedAt := Some t;
     refund := Some f |}.

(** A [$set]/[$push] on a path below [paymentRaw]; an absent [paymentRaw] is
    created. *)
Definition onRaw (f : PaymentRaw -> PaymentRaw) (o : Order) : Order :=
  assign (SetPaymentRaw (f (default emptyRaw (paymentRaw o)))) o.

(** [Order.findOneAndUpdate({ _id, ...cond }, update, { new: true })] and
    [Order.updateOne({ _id, ...cond }, update)]: update operators run no
    validators; the result is the updated document when one matched. *)
Definition Order_findOneAndUpdate (id : string) (cond : Order -> bool)
    (update : Order -> Order) : Js World (option Order) :=
  fun w =>
    match orders (committed w) !! id with
    | Some stored =>
        if cond stored then
          (Normal (Some (update stored)),
           withCommitted (storeOrder id (update stored) (committed w)) w)
        else (Normal None, w)
    | None => (Normal None, w)
    end.

(** [Math.round(x)] *)
Definition Math_round (x : Q) : Z := Qfloor (x + (1 # 2)).

(** [razorpay.payments.refund(paymentId, { amount, speed })]: the call is
    recorded; whether it returns a refund (its id) or throws is the
    gateway's answer [gateway]. *)
Definition razorpay_payments_refund (gateway : completion string)
    (paymentId : option string) (amount : Z) : Js World string :=
  fun w => (gateway, withRefundCalls (refundCalls w ++ [(paymentId, amount)]) w).

Definition initiateRefund (now : Z) (gateway : completion string)
    (order : option (string * Order)) : Js World string :=
  match order with
  | None => throw "Invalid order or missing paymentId"
  | Some (id, o) =>
      if negb (truthy (paymentId o)) then throw "Invalid order or missing paymentId"
      else if negb (bool_decide (status o = PAID)) then
        throw ("Refund not allowed. Current status: " +:+ statusName (status o))
      else
        let! locked :=
          Order_findOneAndUpdate id (fun s => bool_decide (status s = PAID))
            (fun s => onRaw (withRefundInitiatedAt now)
                        (assign (SetStatus REFUND_INITIATED) s)) in
        match locked with
        | None => throw "Refund already in progress or completed"
        | Some l =>
            try_catch
              (let! refund :=
                 razorpay_payments_refund gateway (paymentId l)
                   (Math_round (total l * 100)) in
               Order_save false id
                 [SetPaymentRaw
                    (withRefundRequest refund (default emptyRaw (paymentRaw l)))] ;;
               ret refund)
              (fun err =>
                 Order_findOneAndUpdate id (fun _ => true)
                   (fun s => onRaw (pushRefundError (err, now))
                               (assign (SetStatus PAID) s)) ;;
                 throw err)
        end
  end.

(** ** Webhook controller: [razorpayWebhookHandler] *)

(** [res.status(code).send(text)] and [res.status(code).json(body)]:
    [success] is whether the JSON body carries [success: true]. *)
Record Response : Type := {
  statusCode : Z;
  message : string;
  success : bool;
}.

Definition send (c : Z) (text : string) : Response :=
  {| statusCode := c; message := text; success := false |}.

Inductive PaymentEvent : Type :=
| payment_captured
| payment_failed.

#[global] Instance PaymentEvent_eq_dec : EqDecision PaymentEvent.
Proof. solve_decision. Defined.

Definition eventName (e : PaymentEvent) : string :=
  match e with
  | payment_captured => "payment.captured"
  | payment_failed => "payment.failed"
  end.

(** [Order.findOne(filter)]: the first matching document. *)
Definition Order_findOne (filter : Order -> bool) : Js World (option (string * Order)) :=
  gets (fun w =>
    head (base.filter (fun e => filter e.2 = true) (map_to_list (orders (committed w))))).

Definition webhookRaw (e : PaymentEvent) (payment : PaymentEntity) : PaymentRaw :=
  {| source := Some "razorpay-webhook"; event := Some (eventName e);
     payload := Some payment; razorpayOrderId := None;
     razorpayPaymentId := None; razorpaySignature := None; verifiedBy := None;
     refundInitiatedAt := None; refundRequest := None; refundErrors := [];
     refundCompletedAt := None; refund := None |}.

Definition handlePaymentEvent (now : Z) (gateway : completion string)
    (e : PaymentEvent) (payment : PaymentEntity) : Js World Response :=
  let razorpayOrderId := pe_order_id payment in
  let razorpayPaymentId := pe_id payment in
  let! found :=
    Order_findOne (fun o => bool_decide (paymentOrderId o = Some razorpayOrderId)) in
  match found with
  | None => ret (send 200 "Order not found")
  | Some (id, order) =>
      if bool_decide (status order = PAID) && bool_decide (e = payment_captured)
      then ret (send 200 "Already processed")
      else if bool_decide (status order = CANCELLED)
      then ret (send 200 "Order cancelled earlier")
      else
        match e with
        | payment_failed =>
            (if bool_decide (status order = PENDING) then
               Order_save false id
                 [SetStatus FAILED; SetCancelReason "PAYMENT_FAILED";
                  SetPaymentRaw (webhookRaw e payment)]
             else ret tt) ;;
            ret (send 200 "Payment failed handled")
        | payment_captured =>
            if negb (bool_decide (status order = PENDING))
            then ret (send 200 "Order not pending")
            else
              try_catch
                (markOrderPaidAndGrantAccess now id razorpayPaymentId
                   "razorpay-webhook" (webhookRaw e payment) ;;
                 ret (send 200 "Payment captured & delivered"))
                (fun err =>
                   let changes := [SetStatus FAILED; SetCancelReason "SYSTEM_CANCELLED"] in
                   Order_save false id changes ;;
                   initiateRefund now gateway (Some (id, assignAll changes order)) ;;
                   ret (send 200 "Delivery failed, refund initiated"))
        end
  end.

Definition handleRefundEvent (now : Z) (refund : RefundEntity) : Js World Response :=
  let paymentId' := re_payment_id refund in
  let! found :=
    Order_findOne (fun o =>
      bool_decide (paymentId o = Some paymentId')
      || bool_decide (paymentRaw o ≫= razorpayPaymentId = Some paymentId')
      || bool_decide (pe_id <$> (paymentRaw o ≫= payload) = Some paymentId')) in
  match found with
  | None => ret (send 200 "Order not found")
  | Some (id, order) =>
      if bool_decide (status order = REFUNDED) then ret (send 200 "Already refunded")
      else if negb (bool_decide (status order = PAID)) then ret (send 200 "Refund ignored")
      else
        Order_save false id
          [SetStatus REFUNDED;
           SetPaymentRaw
             (withRefundCompleted now refund (default emptyRaw (paymentRaw order)))] ;;
        ret (send 200 "Refund completed (status updated)")
  end.

(** ** Pricing and order assembly: [order.service.js] *)

(** [String.prototype.toUpperCase], [toLowerCase] and [trim] on ASCII text. *)
Definition upperAscii (c : ascii) : ascii :=
  let n := nat_of_ascii c in
  if ((97 <=? n) && (n <=? 122))%nat then ascii_of_nat (n - 32) else c.

Definition lowerAscii (c : ascii) : ascii :=
  let n := nat_of_ascii c in
  if ((65 <=? n) && (n <=? 90))%nat then ascii_of_nat (n + 32) else c.

Definition toUpperCase (s : string) : string :=
  string_of_list_ascii (map upperAscii (list_ascii_of_string s)).

Definition toLowerCase (s : string) : string :=
  string_of_list_ascii (map lowerAscii (list_ascii_of_string s)).

Definition isSpace (c : ascii) : bool :=
  let n := nat_of_ascii c in
  ((n =? 32) || ((9 <=? n) && (n <=? 13)))%nat.

Fixpoint dropSpaces (l : list ascii) : list ascii :=
  match l with
  | c :: r => if isSpace c then dropSpaces r else l
  | [] => []
  end.

Definition trim (s : string) : string :=
  string_of_list_ascii
    (rev (dropSpaces (rev (dropSpaces (list_ascii_of_string s))))).

Definition Qltb (x y : Q) : bool := negb (Qle_bool y x).

(** [Math.min] and [Math.max] *)
Definition Math_min (x y : Q) : Q := if Qle_bool x y then x else y.

Definition Math_max (x y : Q) : Q := if Qle_bool x y then y else x.

(** [Number(x.toFixed(2))]: the nearest multiple of 0.01, a tie going away
    from zero. *)
Definition round2 (x : Q) : Q :=
  if Qle_bool 0 x then Qfloor (x * 100 + (1 # 2)) # 100
  else (- Qfloor (- x * 100 + (1 # 2))) # 100.

(** [[...new Set(ids)]]: the first occurrence of each id, in order. *)
Definition dedupe (l : list string) : list string :=
  foldl (fun seen x => if bool_decide (x ∈ seen) then seen else seen ++ [x]) [] l.

Definition validateProductIds (productIds : list string) : Js World (list string) :=
  if (length productIds =? 0)%nat then throw "Products array is required"
  else if (50 <? length productIds)%nat then throw "Maximum 50 products per order"
  else ret (dedupe productIds).

Definition fetchUserSecurely (userId : string) : Js World User :=
  let! found := User_findById false userId in
  match found with
  | None => throw "User not found"
  | Some u =>
      if isDeleted u then throw "User not found"
      else if isBanned u then throw "Account suspended"
      else ret u
  end.

Definition checkDuplicatePurchases (u : User) (productIds : list string) : list string :=
  let owned := filter (fun id => id ≠ "") (map pp_product (purchasedProducts u)) in
  filter (fun id => id ∈ owned) productIds.

(** [Product.find({ visibility: "public", $or: [...] }).lean()]; an ObjectId
    is compared through its canonical lower-case text. *)
Definition fetchProductDetails (productIds : list string) : Js World (list (string * Product)) :=
  let objectIds := map toLowerCase (filter (fun id => ObjectId_isValid id = true) productIds) in
  let slugs := filter (fun id => ObjectId_isValid id = false) productIds in
  if ((length objectIds =? 0) && (length slugs =? 0))%nat
  then throw "No valid product identifiers"
  else
    gets (fun w =>
      filter (fun e => visibility e.2 = "public" ∧ (e.1 ∈ objectIds ∨ slug e.2 ∈ slugs))
        (map_to_list (products (committed w)))).

Definition validateProducts (found : list (string * Product)) (requestedIds : list string)
    : Js World unit :=
  if negb (length found =? length requestedIds)%nat
  then throw "Some products are unavailable"
  else if forallb (fun e => match price e.2 with
                            | Some x => Qle_bool 0 x
                            | None => false
                            end) found
  then ret tt
  else throw "Invalid product pricing".

Definition priceOf (p : Product) : Q := default 0%Q (price p).

Record Totals : Type := {
  t_subtotal : Q;
  t_tax : Q;
  t_total : Q;
}.

Definition calculateOrderTotals (found : list (string * Product)) (currency' : string)
    : Js World Totals :=
  match head (filter (fun e => truthy (p_currency e.2) = true
                               ∧ p_currency e.2 ≠ Some currency') found) with
  | Some mismatch =>
      throw ("Currency mismatch: expected " +:+ currency' +:+ ", found "
             +:+ default "" (p_currency mismatch.2))
  | None =>
      let subtotal' := foldl (fun sum e => (sum + priceOf e.2)%Q) 0%Q found in
      let tax' := 0%Q in
      ret {| t_subtotal := round2 subtotal';
             t_tax := round2 tax';
             t_total := round2 (subtotal' + tax') |}
  end.

Definition CACHE_TTL : Z := 5 * 60 * 1000.

(** [PROMO_CACHE] is a [Map]: an association list in insertion order. *)
Definition cacheGet (k : string) (c : list (string * CacheEntry)) : option CacheEntry :=
  snd <$> head (filter (fun e => e.1 = k) c).

Definition cacheSet (k : string) (v : CacheEntry) (c : list (string * CacheEntry))
    : list (string * CacheEntry) :=
  match cacheGet k c with
  | Some _ => map (fun e => if bool_decide (e.1 = k) then (k, v) else e) c
  | None => c ++ [(k, v)]
  end.

Definition getCachedPromo (now : Z) (code : string) : Js World (option PromoCode) :=
  gets (fun w =>
    match cacheGet code (PROMO_CACHE w) with
    | Some cached => if now - timestamp cached <? CACHE_TTL then Some (data cached) else None
    | None => None
    end).

Definition setCachedPromo (now : Z) (code : string) (p : PromoCode) : Js World unit :=
  modify (fun w =>
    let c := cacheSet code {| data := p; timestamp := now |} (PROMO_CACHE w) in
    withCache (if (100 <? length c)%nat then tail c else c) w).

Definition applyPromoCode (now : Z) (promoCode : option string) (subtotal' : Q)
    : Js World (Q * option string) :=
  match promoCode with
  | None => ret (0%Q, None)
  | Some raw =>
      if negb (truthy (Some raw)) then ret (0%Q, None)
      else
        let code := toUpperCase (trim raw) in
        let! cached := getCachedPromo now code in
        let! promo :=
          match cached with
          | Some p => ret (Some p)
          | None =>
              let! found := gets (fun w =>
                match promocodes (committed w) !! code with
                | Some p => if isActive p then Some p else None
                | None => None
                end) in
              match found with
              | Some p => setCachedPromo now code p ;; ret (Some p)
              | None => ret None
              end
          end in
        match promo with
        | None => throw "Invalid or expired promo code"
        | Some promo =>
            if match promo_expiresAt promo with
               | Some expiry => expiry <=? now
               | None => false
               end
            then throw "Promo code has expired"
            else if negb (Qeq_bool (minOrderAmount promo) 0)
                    && Qltb subtotal' (minOrderAmount promo)
            then throw "Minimum order amount not met"
            else
              let discount0 :=
                if bool_decide (discountType promo = Some "PERCENTAGE") then
                  let d := (subtotal' * discountValue promo / 100)%Q in
                  if negb (Qeq_bool (maxDiscount promo) 0)
                  then Math_min d (maxDiscount promo) else d
                else if bool_decide (discountType promo = Some "FIXED") then
                  discountValue promo
                else 0%Q in
              let discount := round2 (Math_min discount0 subtotal') in
              if Qle_bool discount 0 then throw "Promo code cannot be applied"
              else ret (discount, Some code)
        end
  end.

Definition prepareOrderItems (found : list (string * Product)) (currency' : string)
    : list OrderItem :=
  map (fun e =>
         let p := e.2 in
         let hasMrp := match mrp p with
                       | Some m => negb (Qeq_bool m 0)
                       | None => false
                       end in
         let m := default 0%Q (mrp p) in
         {| product := e.1;
            titleSnapshot := title p;
            priceSnapshot := priceOf p;
            mrpSnapshot := if hasMrp then m else priceOf p;
            currencySnapshot :=
              if truthy (p_currency p) then default "" (p_currency p) else currency';
            discountPercentSnapshot :=
              if hasMrp && Qltb (priceOf p) m
              then Math_round ((m - priceOf p) / m * 100)
              else 0 |}) found.

(** The validators of [orderSchema] and [orderItemSchema] that [Order.create]
    runs on the new document. *)
Definition itemValid (i : OrderItem) : bool :=
  negb (String.eqb (product i) "") && negb (String.eqb (titleSnapshot i) "")
  && Qle_bool 0 (priceSnapshot i) && Qle_bool 0 (mrpSnapshot i)
  && negb (String.eqb (currencySnapshot i) "")
  && (0 <=? discountPercentSnapshot i).

Definition orderValid (o : Order) : bool :=
  ((0 <? length (items o))%nat || truthy (membershipPlanKey o))
  && forallb itemValid (items o)
  && (1 <=? membershipMonths o)
  && Qle_bool 0 (subtotal o) && Qle_bool 0 (tax o)
  && Qle_bool 0 (convenienceFee o) && Qle_bool 0 (total o)
  && Qle_bool 0 (promoDiscount o)
  && match cancelReason o with
     | Some r => bool_decide (r ∈ cancelReasonEnum)
     | None => true
     end.

(** [Order.create(doc)]: the driver supplies the new [_id]; the document is
    validated and inserted, and a key already present is a duplicate-key
    error. *)
Definition Order_create (newId : string) (o : Order) : Js World (string * Order) :=
  fun w =>
    if negb (orderValid o) then (Throw "Order validation failed", w)
    else match orders (committed w) !! newId with
         | Some _ => (Throw "E11000 duplicate key error", w)
         | None => (Normal (newId, o), withCommitted (storeOrder newId o (committed w)) w)
         end.

Definition createPendingOrderForUser (now : Z) (newId : string) (userId : string)
    (productIds : list string) (currency' : string) (promoCode' : option string)
    : Js World (string * Order) :=
  let! uniqueIds := validateProductIds productIds in
  let! u := fetchUserSecurely userId in
  let duplicates := checkDuplicatePurchases u uniqueIds in
  if (0 <? length duplicates)%nat then throw "Items already purchased"
  else
    let! found := fetchProductDetails uniqueIds in
    validateProducts found uniqueIds ;;
    let! totals := calculateOrderTotals found currency' in
    let subtotal' := t_subtotal totals in
    let tax' := t_tax totals in
    let baseTotal := t_total totals in
    let! applied := applyPromoCode now promoCode' subtotal' in
    let discount := applied.1 in
    let code := applied.2 in
    let total0 := round2 (baseTotal - discount) in
    let forced := Qle_bool total0 0 in
    let convenienceFee' := if forced then 1%Q else 0%Q in
    let total' := if forced then 1%Q else total0 in
    let finalTotal :=
      round2 (Math_max 0 (subtotal' + tax' - discount) + convenienceFee') in
    if Qltb (1 # 100) (Qabs (finalTotal - total')) then throw "Order calculation mismatch"
    else
      Order_create newId
        {| user := userId;
           items := prepareOrderItems found currency';
           membershipPlanKey := None;
           membershipMonths := 1;
           currency := toUpperCase (trim currency');
           subtotal := subtotal';
           tax := tax';
           convenienceFee := convenienceFee';
           total := total';
           status := PENDING;
           cancelReason := None;
           paymentOrderId := None;
           paymentId := None;
           paymentSignature := None;
           paymentRaw := None;
           promoCode := code;
           promoDiscount := discount;
           completedAt := None;
           createdAt := now |}.

Definition createMembershipOrderForUser (now : Z) (newId : string) (userId : string)
    (planKey' : string) (months : Z) (currency' : string) : Js World (string * Order) :=
  let! u := fetchUserSecurely userId in
  let key := toUpperCase (trim planKey') in
  let! plan := gets (fun w =>
    match membershipplans (committed w) !! key with
    | Some p => if plan_isActive p then Some p else None
    | None => None
    end) in
  match plan with
  | None => throw "Membership plan not found"
  | Some plan =>
      let duration := Z.max 1 (Z.min months 12) in
      let subtotal' := round2 (plan_price plan * inject_Z duration) in
      let tax' := 0%Q in
      let total' := round2 (subtotal' + tax') in
      let chosen :=
        if negb (String.eqb currency' "") then currency'
        else if truthy (plan_currency plan) then default "" (plan_currency plan)
        else "INR" in
      Order_create newId
        {| user := userId;
           items := [];
           membershipPlanKey := Some key;
           membershipMonths := duration;
           currency := toUpperCase (trim chosen);
           subtotal := subtotal';
           tax := tax';
           convenienceFee := 0;
           total := total';
           status := PENDING;
           cancelReason := None;
           paymentOrderId := None;
           paymentId := None;
           paymentSignature := None;
           paymentRaw := None;
           promoCode := None;
           promoDiscount := 0;
           completedAt := None;
           createdAt := now |}
  end.

(** ** Controllers *)

(** What an Express handler does with a request: it sends a response, or
    hands an error to [next].  A handler whose promise rejects (a [Throw] of
    the state transformer) sends nothing itself. *)
Inductive Reply : Type :=
| Sent (r : Response)
| Next (err : string).

Definition json (c : Z) (text : string) : Response :=
  {| statusCode := c; message := text; success := false |}.

Definition jsonSuccess (text : string) : Response :=
  {| statusCode := 200; message := text; success := true |}.

(** [try { ... } catch (err) { next(err) }] *)
Definition orNext (c : Js World Reply) : Js World Reply :=
  try_catch c (fun err => ret (Next err)).

(** The body of a webhook after [JSON.parse]. *)
Record WebhookPayload : Type := {
  wp_event : string;
  wp_payment : option PaymentEntity;
  wp_refund : option RefundEntity;
}.

(** The body of [POST /orders/verify]. *)
Record VerifyBody : Type := {
  vb_orderId : option string;
  vb_razorpayOrderId : option string;
  vb_razorpayPaymentId : option string;
  vb_razorpaySignature : option string;
}.

(** [verifySchema.validate]: the validated value, or nothing on an error. *)
Definition verifySchema (b : VerifyBody) : option (string * string * string * string) :=
  match vb_orderId b, vb_razorpayOrderId b, vb_razorpayPaymentId b, vb_razorpaySignature b with
  | Some o, Some ro, Some rp, Some rs =>
      if ObjectId_isValid o && negb (String.eqb ro "") && negb (String.eqb rp "")
         && negb (String.eqb rs "")
      then Some (o, ro, rp, rs) else None
  | _, _, _, _ => None
  end.

(** [sendOrderCompleteEmail(orderId).catch(() => {})]: the mail is scheduled
    and its outcome is ignored. *)
Definition sendOrderCompleteEmail (orderId : string) : Js World unit :=
  modify (fun w => withEmails (emails w ++ [orderId]) w).

(** [User.updateOne({ _id }, update)] *)
Definition User_updateOne (id : string) (update : User -> User) : Js World unit :=
  modify (fun w =>
    match users (committed w) !! id with
    | Some stored =>
        withCommitted (withUsers (<[id := update stored]> (users (committed w)))
                         (committed w)) w
    | None => w
    end).

Definition revokeOrderAccess (now : Z) (order : Order) : Js World unit :=
  if String.eqb (user order) "" then ret tt
  else if truthy (membershipPlanKey order) then
    User_updateOne (user order) (fun u =>
      withMembership
        {| planKey := planKey (membership u); startedAt := startedAt (membership u);
           expiresAt := Some now; m_status := "REFUNDED" |} u)
  else
    foldr (fun item rest =>
             (if String.eqb (product item) "" then ret tt
              else User_updateOne (user order) (fun u =>
                     withPurchasedProducts
                       (filter (fun p => pp_product p ≠ toLowerCase (product item))
                          (purchasedProducts u)) u)) ;;
             rest)
          (ret tt) (items order).

(** [refundOrder]: the admin refund of [PATCH /admin/orders/:id/mark-refunded] *)
Definition refundOrder (now : Z) (gateway : completion string) (id : string) : Js World Reply :=
  orNext
    (if negb (ObjectId_isValid id) then ret (Sent (json 400 "Invalid order id"))
     else
       let! found := Order_findById false id in
       match found with
       | None => ret (Sent (json 404 "Order not found"))
       | Some order =>
           if negb (bool_decide (status order = PAID))
           then ret (Sent (json 400 ("Refund not allowed when order status is '"
                                     +:+ statusName (status order) +:+ "'")))
           else if negb (truthy (paymentId order))
           then ret (Sent (json 400 "Payment ID missing"))
           else
             revokeOrderAccess now order ;;
             initiateRefund now gateway (Some (id, order)) ;;
             ret (Sent (json 200 "Refund initiated, access revoked"))
       end).

(** [createOrder]: [body_productIds] is the validated array (24 hexadecimal
    digits each), [gatewayOrder] the answer of [razorpay.orders.create]. *)
Definition createOrder (now : Z) (newId : string) (gatewayOrder : completion string)
    (authUserId : option string) (productIds : list string) (currency' : string)
    (promoCode' : option string) : Js World Reply :=
  orNext
    (if (length productIds =? 0)%nat || negb (forallb ObjectId_isValid productIds)
     then ret (Sent (json 400 "validation error"))
     else
       match authUserId with
       | None => ret (Sent (json 401 "Unauthorized"))
       | Some uid =>
           let! found := User_findById false uid in
           match found with
           | None => ret (Sent (json 401 "Unauthorized"))
           | Some u =>
               if isDeleted u then ret (Sent (json 401 "Unauthorized"))
               else
                 let purchased := map pp_product (purchasedProducts u) in
                 let duplicateIds := filter (fun pid => pid ∈ purchased) productIds in
                 if (0 <? length duplicateIds)%nat
                 then ret (Sent (json 400 "Duplicate purchase detected. Some items are already in your library."))
                 else
                   let! created :=
                     createPendingOrderForUser now newId uid productIds
                       (toUpperCase currency')
                       (if truthy promoCode'
                        then Some (toUpperCase (trim (default "" promoCode')))
                        else None) in
                   let '(id, order) := created in
                   if Qltb (total order) 1 then
                     Order_save false id [SetStatus CANCELLED] ;;
                     ret (Sent (json 400 "Order amount too low to process payment"))
                   else
                     let! razorpayOrder :=
                       (fun w : World => (gatewayOrder, w)) in
                     Order_save false id [SetPaymentOrderId razorpayOrder] ;;
                     ret (Sent (json 201 ""))
           end
       end).

Definition createMembershipOrder (now : Z) (newId : string) (gatewayOrder : completion string)
    (authUserId : option string) (planKey' : string) (months : Z) (currency' : string)
    : Js World Reply :=
  orNext
    (let planKey'' := toUpperCase (trim planKey') in
     if String.eqb planKey'' "" || (months <? 1)
     then ret (Sent (json 400 "validation error"))
     else
       let! found :=
         match authUserId with
         | Some uid => User_findById false uid
         | None => ret None
         end in
       match found, authUserId with
       | Some u, Some uid =>
           if isDeleted u then ret (Sent (json 401 "Unauthorized"))
           else if bool_decide (planKey (membership u) = Some planKey'')
                   && String.eqb (m_status (membership u)) "ACTIVE"
           then ret (Sent (json 400 ("Your " +:+ planKey'' +:+ " membership is already active.")))
           else
             let! created :=
               createMembershipOrderForUser now newId uid planKey'' months
                 (toUpperCase currency') in
             let '(id, order) := created in
             let! razorpayOrder := (fun w : World => (gatewayOrder, w)) in
             Order_save false id [SetPaymentOrderId razorpayOrder] ;;
             ret (Sent (json 201 ""))
       | _, _ => ret (Sent (json 401 "Unauthorized"))
       end).

Section Signed.

(** [crypto.createHmac("sha256", key).update(text).digest("hex")] *)
Variable hmac_sha256_hex : string -> string -> string.

(** [JSON.parse(body.toString("utf8"))]; [None] when it throws. *)
Variable JSON_parse : string -> option WebhookPayload.

(** [verifyOrder]: the client-verify endpoint. *)
Definition verifyOrder (now : Z) (RAZORPAY_KEY_SECRET : option string)
    (authUserId : option string) (body : VerifyBody) : Js World Reply :=
  orNext
    (match RAZORPAY_KEY_SECRET with
     | None => ret (Sent (json 500 "Payment verification unavailable"))
     | Some secret =>
       if String.eqb secret "" then ret (Sent (json 500 "Payment verification unavailable"))
       else
       match verifySchema body with
       | None => ret (Sent (json 400 "validation error"))
       | Some (orderId, razorpayOrderId', razorpayPaymentId', razorpaySignature') =>
         let! found :=
           match authUserId with
           | Some uid => User_findById false uid
           | None => ret None
           end in
         match found, authUserId with
         | Some u, Some uid =>
           if isDeleted u then ret (Sent (json 401 "Unauthorized"))
           else
             let! found_order := Order_findById false orderId in
             match found_order with
             | None => ret (Sent (json 404 "Order not found"))
             | Some order =>
               if bool_decide (status order = PAID) then
                 if bool_decide (paymentId order = Some razorpayPaymentId')
                 then ret (Sent (jsonSuccess "Order already verified via webhook"))
                 else ret (Sent (json 400 "Order already paid with a different payment ID"))
               else if negb (bool_decide (status order = PENDING)) then
                 ret (Sent (json 400 ("Order cannot be paid (status: "
                                      +:+ statusName (status order) +:+ ")")))
               else if negb (String.eqb (user order) uid) then
                 ret (Sent (json 403 "Not your order"))
               else if negb (bool_decide (paymentOrderId order = Some razorpayOrderId')) then
                 ret (Sent (json 400 "Order ID mismatch"))
               else
                 let expectedSignature :=
                   hmac_sha256_hex secret (razorpayOrderId' +:+ "|" +:+ razorpayPaymentId') in
                 if negb (String.eqb expectedSignature razorpaySignature') then
                   ret (Sent (json 400 "Invalid payment signature"))
                 else
                   markOrderPaidAndGrantAccess now orderId razorpayPaymentId'
                     razorpaySignature'
                     {| source := None; event := None; payload := None;
                        razorpayOrderId := Some razorpayOrderId';
                        razorpayPaymentId := Some razorpayPaymentId';
                        razorpaySignature := Some razorpaySignature';
                        verifiedBy := Some "client-verify-endpoint";
                        refundInitiatedAt := None; refundRequest := None;
                        refundErrors := []; refundCompletedAt := None;
                        refund := None |} ;;
                   sendOrderCompleteEmail orderId ;;
                   ret (Sent (jsonSuccess ""))
             end
         | _, _ => ret (Sent (json 401 "Unauthorized"))
         end
       end
     end).

(** What the [try] block of [razorpayWebhookHandler] decides before it
    returns: a response of its own, or the promise of one of the two event
    handlers.  The handler's promise is returned without [await], so a
    rejection of it is not caught by the [catch] of the [try] block. *)
Inductive Routed : Type :=
| Replied (r : Response)
| ToPayment (e : PaymentEvent) (payment : PaymentEntity)
| ToRefund (refund : RefundEntity).

Definition route (WEBHOOK_SECRET signature : option string) (body : string) : Routed :=
  if negb (truthy WEBHOOK_SECRET) then Replied (send 500 "Webhook not configured")
  else if negb (truthy signature) then Replied (send 400 "Signature missing")
  else
    let expectedSignature := hmac_sha256_hex (default "" WEBHOOK_SECRET) body in
    if negb (String.eqb expectedSignature (default "" signature))
    then Replied (send 400 "Invalid signature")
    else
      match JSON_parse body with
      | None => Replied (send 500 "Internal error")
      | Some parsed =>
          if String.eqb (wp_event parsed) "payment.captured"
             || String.eqb (wp_event parsed) "payment.failed" then
            match wp_payment parsed with
            | None => Replied (send 200 "Invalid payment payload")
            | Some payment =>
                ToPayment (if String.eqb (wp_event parsed) "payment.captured"
                           then payment_captured else payment_failed) payment
            end
          else if String.eqb (wp_event parsed) "refund.processed" then
            match wp_refund parsed with
            | None => Replied (send 200 "Invalid refund payload")
            | Some refund => ToRefund refund
            end
          else Replied (send 200 "Event ignored")
      end.

Definition razorpayWebhookHandler (now : Z) (gateway : completion string)
    (WEBHOOK_SECRET signature : option string) (body : string) : Js World Response :=
  match route WEBHOOK_SECRET signature body with
  | Replied r => ret r
  | ToPayment e payment => handlePaymentEvent now gateway e payment
  | ToRefund refund => handleRefundEvent now refund
  end.

End Signed.

(** ** Idle-order reaper: [autoCancelController.js] *)

(** [Order.updateMany(filter, { $set })] *)
Definition Order_updateMany (filter : Order -> bool) (l : list Assign) : Js World Z :=
  fun w =>
    let d := committed w in
    let matched := base.filter (fun e => filter e.2 = true) (map_to_list (orders d)) in
    (Normal (Z.of_nat (length matched)),
     withCommitted
       (withOrders
          ((fun o => if filter o then assignAll l o else o) <$> orders d)
          (statusTrace d
           ++ flat_map (fun e => traceOf d e.1 (assignAll l e.2)) matched) d) w).

Definition autoCancelPendingOrders (now : Z) : Js World unit :=
  fun w =>
    if negb (readyState w =? 1) then (Normal tt, w)
    else if isRunning w then (Normal tt, w)
    else
      finally
        (try_catch
           (let TWO_MINUTES_AGO := now - 2 * 60 * 1000 in
            Order_updateMany
              (fun o => bool_decide (status o = PENDING)
                        && (createdAt o <=? TWO_MINUTES_AGO)
                        && bool_decide (paymentId o = None))
              [SetStatus CANCELLED; SetCancelReason "PAYMENT_TIMEOUT";
               SetCompletedAt now] ;;
            ret tt)
           (fun err => ret tt))
        (modify (withIsRunning false))
        (withIsRunning true w).

(** ** Purchase lookup: [order.service.js] *)

(** [Order.countDocuments(filter)] *)
Definition Order_countDocuments (filter : Order -> bool) : Js World Z :=
  gets (fun w =>
    Z.of_nat (length (base.filter (fun e => filter e.2 = true)
                        (map_to_list (orders (committed w)))))).

(** [userHasPurchasedProduct]: the two ids of the filter are cast to
    ObjectIds, which compare through their canonical lower-case text. *)
Definition userHasPurchasedProduct (userId productId : string) : Js World bool :=
  if negb (ObjectId_isValid userId) || negb (ObjectId_isValid productId) then ret false
  else
    try_catch
      (let! count :=
         Order_countDocuments (fun o =>
           String.eqb (user o) (toLowerCase userId)
           && bool_decide (status o = PAID)
           && bool_decide (toLowerCase productId ∈ map product (items o))) in
       ret (0 <? count))
      (fun error => ret false).

(** ** Membership actions: [orderController.js] *)

(** [user.membership.status = s]; the two values the handlers assign,
    CANCELLED and ACTIVE, are in the enum of the schema. *)
Definition withMembershipStatus (s : string) (u : User) : User :=
  withMembership
    {| planKey := planKey (membership u); startedAt := startedAt (membership u);
       expiresAt := expiresAt (membership u); m_status := s |} u.

Definition cancelMembership (authUserId : option string) : Js World Reply :=
  orNext
    (let! found :=
       match authUserId with
       | Some uid => User_findById false uid
       | None => ret None
       end in
     match found, authUserId with
     | Some u, Some uid =>
         if isDeleted u then ret (Sent (json 401 "Unauthorized"))
         else if negb (truthy (planKey (membership u)))
         then ret (Sent (json 400 "You do not have an active membership."))
         else if negb (String.eqb (m_status (membership u)) "ACTIVE")
         then ret (Sent (json 400 ("Cannot cancel membership with status "
                                   +:+ m_status (membership u) +:+ ".")))
         else
           User_save false uid (withMembershipStatus "CANCELLED") ;;
           ret (Sent (json 200 "Membership cancelled. It will remain valid until expiry."))
     | _, _ => ret (Sent (json 401 "Unauthorized"))
     end).

Definition resumeMembership (authUserId : option string) : Js World Reply :=
  orNext
    (let! found :=
       match authUserId with
       | Some uid => User_findById false uid
       | None => ret None
       end in
     match found, authUserId with
     | Some u, Some uid =>
         if isDeleted u then ret (Sent (json 401 "Unauthorized"))
         else if negb (truthy (planKey (membership u)))
         then ret (Sent (json 400 "No membership history found to resume."))
         else if negb (String.eqb (m_status (membership u)) "CANCELLED")
                 && negb (String.eqb (m_status (membership u)) "EXPIRED")
         then ret (Sent (json 400 ("Cannot resume membership from status "
                                   +:+ m_status (membership u) +:+ ".")))
         else
           User_save false uid (withMembershipStatus "ACTIVE") ;;
           ret (Sent (json 200 "Membership resumed successfully."))
     | _, _ => ret (Sent (json 401 "Unauthorized"))
     end).

(** * Specification vocabulary *)

(** ** Settlement *)

(** The document [markOrderPaidAndGrantAccess] saves for a PENDING order. *)
Definition paid (now : Z) (paymentId paymentSignature : string) (paymentRaw : PaymentRaw)
    (o : Order) : Order :=
  assignAll [SetStatus PAID; SetPaymentId paymentId; SetPaymentSignature paymentSignature;
             SetPaymentRaw paymentRaw; SetCompletedAt now] o.

(** The promo code a settlement of [o] counts, if any. *)
Definition countedPromo (o : Order) : option string :=
  match promoCode o with
  | Some c => if truthy (Some c) then Some c else None
  | None => None
  end.

(** The database after the guarded increment, when the guard lets it pass. *)
Definition promoCounted (o : Order) (d : Db) : option Db :=
  match countedPromo o with
  | Some c =>
      match promocodes d !! c with
      | Some p =>
          if promoGuard p
          then Some (withPromocodes (<[c := withUsedCount (usedCount p + 1) p]> (promocodes d)) d)
          else None
      | None => None
      end
  | None => Some d
  end.

Definition evicted (o : Order) (c : list (string * CacheEntry)) : list (string * CacheEntry) :=
  match countedPromo o with
  | Some k => cacheDelete k c
  | None => c
  end.

(** The database after the entitlement of [o] is granted to its owner [u]. *)
Definition granted (now : Z) (o : Order) (u : User) (d : Db) : Db :=
  if truthy (membershipPlanKey o) then
    withUsers (<[user o := activated now o u]> (users d)) d
  else if (length (productIdsOf o) =? 0)%nat then d
  else if (0 <? length (newPurchasesOf now o u))%nat then
    withUsers
      (<[user o := withPurchasedProducts (purchasedProducts u ++ newPurchasesOf now o u) u]>
         (users d)) d
  else d.

(** Every way one call of [markOrderPaidAndGrantAccess] in world [w] can end:
    the completion and the world it leaves. *)
Inductive SettleOutcome (now : Z) (id pid sig : string) (raw : PaymentRaw) (w : World)
  : completion Order -> World -> Prop :=
| settle_invalid_id :
    ObjectId_isValid id = false ->
    SettleOutcome now id pid sig raw w (Throw "Invalid order ID") w
| settle_not_found :
    ObjectId_isValid id = true ->
    orders (committed w) !! id = None ->
    SettleOutcome now id pid sig raw w (Throw "Order not found") (withSession None w)
| settle_already_paid o :
    ObjectId_isValid id = true ->
    orders (committed w) !! id = Some o ->
    status o = PAID ->
    SettleOutcome now id pid sig raw w (Normal o) (withSession None w)
| settle_bad_status o :
    ObjectId_isValid id = true ->
    orders (committed w) !! id = Some o ->
    status o <> PAID -> status o <> PENDING ->
    SettleOutcome now id pid sig raw w
      (Throw ("Cannot process order with status: " +:+ statusName (status o)))
      (withSession None w)
| settle_promo_exceeded o :
    ObjectId_isValid id = true ->
    orders (committed w) !! id = Some o ->
    status o = PENDING ->
    promoCounted o (storeOrder id (paid now pid sig raw o) (committed w)) = None ->
    SettleOutcome now id pid sig raw w
      (Throw "Promo code usage limit exceeded") (withSession None w)
| settle_bad_user o d :
    ObjectId_isValid id = true ->
    orders (committed w) !! id = Some o ->
    status o = PENDING ->
    promoCounted o (storeOrder id (paid now pid sig raw o) (committed w)) = Some d ->
    match users (committed w) !! user o with
    | Some u => isDeleted u || isBanned u = true
    | None => True
    end ->
    SettleOutcome now id pid sig raw w
      (Throw "Invalid user state")
      (withSession None (withCache (evicted o (PROMO_CACHE w)) w))
| settle_done o d u :
    ObjectId_isValid id = true ->
    orders (committed w) !! id = Some o ->
    status o = PENDING ->
    promoCounted o (storeOrder id (paid now pid sig raw o) (committed w)) = Some d ->
    users (committed w) !! user o = Some u ->
    isDeleted u = false -> isBanned u = false ->
    SettleOutcome now id pid sig raw w
      (Normal (paid now pid sig raw o))
      (withSession None
         (withCommitted (granted now (paid now pid sig raw o) u d)
            (withCache (evicted o (PROMO_CACHE w)) w))).

(** One settlement call on a fixed order: the clock reading and the payment
    data it is made with. *)
Record SettleCall : Type := {
  call_now : Z;
  call_paymentId : string;
  call_signature : string;
  call_raw : PaymentRaw;
}.

Definition settle (id : string) (c : SettleCall) : Js World Order :=
  markOrderPaidAndGrantAccess (call_now c) id (call_paymentId c) (call_signature c)
    (call_raw c).

(** A sequence of settlement calls on one order, one after the other. *)
Fixpoint settleAll (id : string) (calls : list SettleCall) (w : World) : World :=
  match calls with
  | [] => w
  | c :: rest => settleAll id rest (settle id c w).2
  end.

(** The status change of a settlement. *)
Definition pendingToPaid (id : string) : StatusChange :=
  {| sc_order := id; sc_from := Some PENDING; sc_to := PAID |}.

(** [d'] is [d] after the one settlement of order [id] that call [c] performs:
    the order was PENDING, its promo code (if any) passed the guard, and its
    owner [u] received the entitlement. *)
Definition settledBy (id : string) (c : SettleCall) (d d' : Db) : Prop :=
  exists o u d1,
    orders d !! id = Some o /\ status o = PENDING
    /\ promoCounted o
         (storeOrder id (paid (call_now c) (call_paymentId c) (call_signature c)
                           (call_raw c) o) d) = Some d1
    /\ users d !! user o = Some u
    /\ isDeleted u = false /\ isBanned u = false
    /\ d' = granted (call_now c) o u d1.

(** ** Sample documents for the examples *)

Definition sampleItem (p : string) (amount : Q) : OrderItem :=
  {| product := p; titleSnapshot := "Track"; priceSnapshot := amount;
     mrpSnapshot := amount; currencySnapshot := "INR";
     discountPercentSnapshot := 0 |}.

Definition productA : string := "65f0000000000000000000a1".
Definition productB : string := "65f0000000000000000000b2".
Definition orderOne : string := "65f000000000000000000001".
Definition orderTwo : string := "65f000000000000000000002".
Definition userOne : string := "65f0000000000000000000c1".
Definition userTwo : string := "65f0000000000000000000c2".

(** A PENDING product order of [owner] for products A (40) and B (60), linked
    to the gateway order [gatewayOrder], created at time 0. *)
Definition sampleOrder (owner gatewayOrder : string) (promo : option string) : Order :=
  {| user := owner; items := [sampleItem productA 40; sampleItem productB 60];
     membershipPlanKey := None; membershipMonths := 1; currency := "INR";
     subtotal := 100; tax := 0; convenienceFee := 0; total := 100;
     status := PENDING; cancelReason := None;
     paymentOrderId := Some gatewayOrder; paymentId := None;
     paymentSignature := None; paymentRaw := None; promoCode := promo;
     promoDiscount := 0; completedAt := None; createdAt := 0 |}.

(** A PENDING membership order of [owner] for [months] months of plan
    PREMIUM. *)
Definition sampleMembershipOrder (owner gatewayOrder : string) (months : Z) : Order :=
  {| user := owner; items := [];
     membershipPlanKey := Some "PREMIUM"; membershipMonths := months;
     currency := "INR"; subtotal := 499; tax := 0; convenienceFee := 0;
     total := 499; status := PENDING; cancelReason := None;
     paymentOrderId := Some gatewayOrder; paymentId := None;
     paymentSignature := None; paymentRaw := None; promoCode := None;
     promoDiscount := 0; completedAt := None; createdAt := 0 |}.

Definition noMembership : Membership :=
  {| planKey := None; startedAt := None; expiresAt := None; m_status := "NONE" |}.

Definition noUsage : MembershipUsage :=
  {| periodStart := None; downloadsUsed := 0; remixRequestsUsed := 0 |}.

Definition sampleUser (banned : bool) (m : Membership) : User :=
  {| isDeleted := false; isBanned := banned; purchasedProducts := [];
     membership := m; membershipUsage := noUsage |}.

Definition samplePromo (active : bool) (limit : option Z) (used : Z) : PromoCode :=
  {| isActive := active; promo_expiresAt := None; minOrderAmount := 0;
     discountType := Some "FIXED"; discountValue := 10; maxDiscount := 0;
     usageLimit := limit; usedCount := used |}.

Definition sampleWorld (os : list (string * Order)) (us : list (string * User))
    (ps : list (string * PromoCode)) : World :=
  {| committed :=
       {| orders := list_to_map os; users := list_to_map us;
          promocodes := list_to_map ps; products := ∅; membershipplans := ∅;
          statusTrace := [] |};
     session := None; PROMO_CACHE := []; isRunning := false; readyState := 1;
     refundCalls := []; emails := [] |}.

Definition sampleCall (t : Z) (payment : string) : SettleCall :=
  {| call_now := t; call_paymentId := payment; call_signature := "sig";
     call_raw := emptyRaw |}.

(** ** Promo usage *)

(** The capacity condition alone: the limit is unset or zero, or the count
    is below it. *)
Definition capacityLeft (p : PromoCode) : bool :=
  match usageLimit p with
  | None => true
  | Some l => (l =? 0) || (usedCount p <? l)
  end.

Definition limitError : completion Order := Throw "Promo code usage limit exceeded".

(** Order [id] can be settled with promo code [c]: it is a PENDING order that
    references [c] and whose owner exists and is neither deleted nor banned. *)
Definition readyWith (c : string) (d : Db) (id : string) : Prop :=
  ObjectId_isValid id = true
  /\ exists o u,
       orders d !! id = Some o /\ status o = PENDING /\ promoCode o = Some c
       /\ users d !! user o = Some u /\ isDeleted u = false /\ isBanned u = false.

(** One settlement call for each of several orders, one after the other; the
    completions are listed in call order. *)
Fixpoint settleEach (calls : list (string * SettleCall)) (w : World)
    : list (completion Order) * World :=
  match calls with
  | [] => ([], w)
  | x :: rest =>
      let r := settle x.1 x.2 w in
      let rs := settleEach rest r.2 in
      (r.1 :: rs.1, rs.2)
  end.

Definition orderThree : string := "65f000000000000000000003".

(** One PENDING order that references the deactivated, unlimited code
    SAVE10. *)
Definition inactivePromoWorld : World :=
  sampleWorld [(orderOne, sampleOrder userOne "order_R1" (Some "SAVE10"))]
    [(userOne, sampleUser false noMembership)]
    [("SAVE10", samplePromo false None 0)].

(** Three PENDING orders of two users that reference the active code SAVE10,
    whose limit is 2 and which has not been used. *)
Definition limitTwoWorld : World :=
  sampleWorld
    [(orderOne, sampleOrder userOne "order_R1" (Some "SAVE10"));
     (orderTwo, sampleOrder userTwo "order_R2" (Some "SAVE10"));
     (orderThree, sampleOrder userOne "order_R3" (Some "SAVE10"))]
    [(userOne, sampleUser false noMembership);
     (userTwo, sampleUser false noMembership)]
    [("SAVE10", samplePromo true (Some 2) 0)].

Definition threeCalls : list (string * SettleCall) :=
  [(orderOne, sampleCall 1000 "pay_1"); (orderTwo, sampleCall 2000 "pay_2");
   (orderThree, sampleCall 3000 "pay_3")].

(** ** Pricing *)

(** The amounts of an order agree to within a cent. *)
Definition balanced (o : Order) : Prop :=
  (Qabs (subtotal o + tax o - promoDiscount o + convenienceFee o - total o)
   < 1 # 100)%Q.

(** A catalog with one public product, priced at half a rupee, and one
    customer with an empty library. *)
Definition cheapTrack : Product :=
  {| slug := "cheap-track"; title := "Cheap track"; price := Some (1 # 2)%Q;
     mrp := None; p_currency := Some "INR"; visibility := "public" |}.

Definition cheapWorld : World :=
  {| committed :=
       {| orders := ∅; users := {[ userOne := sampleUser false noMembership ]};
          promocodes := ∅; products := {[ productA := cheapTrack ]};
          membershipplans := ∅; statusTrace := [] |};
     session := None; PROMO_CACHE := []; isRunning := false; readyState := 1;
     refundCalls := []; emails := [] |}.

(** A catalog with products A (40) and B (60), the flat promo code FLAT100
    worth 100, and one customer with an empty library. *)
Definition trackFor (amount : Q) (name : string) : Product :=
  {| slug := name; title := name; price := Some amount; mrp := None;
     p_currency := Some "INR"; visibility := "public" |}.

Definition catalogWorld : World :=
  {| committed :=
       {| orders := ∅; users := {[ userOne := sampleUser false noMembership ]};
          promocodes :=
            {[ "FLAT100" :=
                 {| isActive := true; promo_expiresAt := None; minOrderAmount := 0;
                    discountType := Some "FIXED"; discountValue := 100;
                    maxDiscount := 0; usageLimit := Some 0; usedCount := 0 |} ]};
          products :=
            {[ productA := trackFor 40 "track-a"; productB := trackFor 60 "track-b" ]};
          membershipplans := ∅; statusTrace := [] |};
     session := None; PROMO_CACHE := []; isRunning := false; readyState := 1;
     refundCalls := []; emails := [] |}.

(** ** Reaper, webhook and client verification *)

(** The document the reaper writes for a stale order. *)
Definition timedOut (now : Z) (o : Order) : Order :=
  assignAll [SetStatus CANCELLED; SetCancelReason "PAYMENT_TIMEOUT"; SetCompletedAt now] o.

(** A PENDING order of the banned user One, linked to gateway order
    order_R1. *)
Definition bannedOwnerWorld : World :=
  sampleWorld [(orderOne, sampleOrder userOne "order_R1" None)]
    [(userOne, sampleUser true noMembership)] [].

Definition capturedPayment : PaymentEntity :=
  {| pe_id := "pay_1"; pe_order_id := "order_R1" |}.

(** Order One of user One, settled with payment pay_1; user Two is another
    customer. *)
Definition paidWorld : World :=
  sampleWorld
    [(orderOne, paid 1000 "pay_1" "sig" emptyRaw (sampleOrder userOne "order_R1" None))]
    [(userOne, sampleUser false noMembership);
     (userTwo, sampleUser false noMembership)] [].


(** A request of user Two to verify order One with the payment id the order
    was settled with and a signature of their own making. *)
Definition foreignVerify : VerifyBody :=
  {| vb_orderId := Some orderOne; vb_razorpayOrderId := Some "order_R1";
     vb_razorpayPaymentId := Some "pay_1"; vb_razorpaySignature := Some "forged" |}.

(** A stand-in for the keyed hash, and a parser that yields a fixed payload,
    to run the webhook handler on a concrete request. *)
Definition sampleHmac (secret text : string) : string :=
  "hmac(" +:+ secret +:+ "," +:+ text +:+ ")".

Definition capturedPayload : WebhookPayload :=
  {| wp_event := "payment.captured"; wp_payment := Some capturedPayment;
     wp_refund := None |}.

(** ** The order state machine *)





(** Weakest precondition of a computation: [Q] holds of its completion and
    final world. *)
Definition wp {A : Type} (c : Js World A) (Q : completion A -> World -> Prop)
    (w : World) : Prop :=
  Q (c w).1 (c w).2.

(** Computations that only read the database or touch the promo cache. *)
Definition keepsDb {A : Type} (c : Js World A) : Prop :=
  forall w, wp c (fun _ w' => committed w' = committed w) w.

(** Every entry point that writes orders, with the data of one request. *)
Inductive Op : Type :=
| OpCreateOrder (newId : string) (gatewayOrder : completion string)
    (authUserId : option string) (productIds : list string) (currency' : string)
    (promoCode' : option string)
| OpCreateMembershipOrder (newId : string) (gatewayOrder : completion string)
    (authUserId : option string) (planKey' : string) (months : Z) (currency' : string)
| OpCreatePending (newId userId : string) (productIds : list string)
    (currency' : string) (promoCode' : option string)
| OpCreateMembershipPending (newId userId planKey' : string) (months : Z)
    (currency' : string)
| OpSettle (orderId paymentId paymentSignature : string) (raw : PaymentRaw)
| OpVerifyOrder (keySecret authUserId : option string) (body : VerifyBody)
| OpWebhook (gateway : completion string) (secret signature : option string)
    (body : string)
| OpRefundOrder (gateway : completion string) (id : string)
| OpInitiateRefund (gateway : completion string) (order : option (string * Order))
| OpAutoCancel.

(** The world after the operation [op] ran at time [now]. *)
Definition run (hmac : string -> string -> string)
    (parse : string -> option WebhookPayload) (now : Z) (op : Op) (w : World) : World :=
  match op with
  | OpCreateOrder newId gatewayOrder authUserId productIds currency' promoCode' =>
      (createOrder now newId gatewayOrder authUserId productIds currency' promoCode' w).2
  | OpCreateMembershipOrder newId gatewayOrder authUserId planKey' months currency' =>
      (createMembershipOrder now newId gatewayOrder authUserId planKey' months
         currency' w).2
  | OpCreatePending newId userId productIds currency' promoCode' =>
      (createPendingOrderForUser now newId userId productIds currency' promoCode' w).2
  | OpCreateMembershipPending newId userId planKey' months currency' =>
      (createMembershipOrderForUser now newId userId planKey' months currency' w).2
  | OpSettle orderId paymentId paymentSignature raw =>
      (markOrderPaidAndGrantAccess now orderId paymentId paymentSignature raw w).2
  | OpVerifyOrder keySecret authUserId body =>
      (verifyOrder hmac now keySecret authUserId body w).2
  | OpWebhook gateway secret signature body =>
      (razorpayWebhookHandler hmac parse now gateway secret signature body w).2
  | OpRefundOrder gateway id => (refundOrder now gateway id w).2
  | OpInitiateRefund gateway order => (initiateRefund now gateway order w).2
  | OpAutoCancel => (autoCancelPendingOrders now w).2
  end.


(** What the two order-creating service functions leave: an error and the
    database as it was, or the new PENDING order under the fresh id. *)
Definition created (newId : string) (w : World)
    (r : completion (string * Order)) (w' : World) : Prop :=
  (exists e, r = Throw e /\ committed w' = committed w)
  \/ (exists o, r = Normal (newId, o)
        /\ orders (committed w) !! newId = None
        /\ status o = PENDING
        /\ committed w' = storeOrder newId o (committed w)).

(** ** Vocabulary for the further properties *)

(** The order a payment webhook is about: the first one whose
    [paymentOrderId] is the gateway order id of the payment entity. *)
Definition orderOfPayment (payment : PaymentEntity) (w : World) : option (string * Order) :=
  head (base.filter
          (fun e => bool_decide (paymentOrderId e.2 = Some (pe_order_id payment)) = true)
          (map_to_list (orders (committed w)))).

(** One PENDING order of user One that carries the gateway order id
    order_R1. *)
Definition pendingWorld : World :=
  sampleWorld [(orderOne, sampleOrder userOne "order_R1" None)]
    [(userOne, sampleUser false noMembership)] [].


(** What [revokeOrderAccess] leaves of the library [ps]: the purchases of no
    product of the items [l]. *)
Definition keptAfterRevoke (l : list OrderItem) (ps : list Purchase) (p : Purchase) : Prop :=
  p ∈ ps
  /\ forall item, item ∈ l -> product item <> "" ->
       pp_product p <> toLowerCase (product item).

(** User [u'] is user [u] after the access granted by [order] was revoked at
    [now]. *)
Definition revokedFrom (now : Z) (order : Order) (u u' : User) : Prop :=
  isDeleted u' = isDeleted u /\ isBanned u' = isBanned u
  /\ membershipUsage u' = membershipUsage u
  /\ if truthy (membershipPlanKey order) then
       purchasedProducts u' = purchasedProducts u
       /\ membership u'
          = {| planKey := planKey (membership u); startedAt := startedAt (membership u);
               expiresAt := Some now; m_status := "REFUNDED" |}
     else
       membership u' = membership u
       /\ forall p, p ∈ purchasedProducts u'
                    <-> keptAfterRevoke (items order) (purchasedProducts u) p.

(** Some PAID order of [userId] contains [productId]. *)
Definition hasPaidOrder (userId productId : string) (d : Db) : Prop :=
  exists id o,
    orders d !! id = Some o /\ user o = toLowerCase userId /\ status o = PAID
    /\ toLowerCase productId ∈ map product (items o).

(** * Properties *)

Ltac run_js :=
  unfold bind, ret, throw, gets, modify, try_catch, finally; cbn.

#[local] Arguments assignAll : simpl never.
#[local] Arguments paid : simpl never.
#[local] Arguments storeOrder : simpl never.
#[local] Arguments activated : simpl never.
#[local] Arguments newPurchasesOf : simpl never.
#[local] Arguments productIdsOf : simpl never.
#[local] Arguments cacheDelete : simpl never.
#[local] Arguments promoGuard : simpl never.
#[local] Arguments withUsedCount : simpl never.
#[local] Arguments withUsers : simpl never.
#[local] Arguments withPromocodes : simpl never.
#[local] Arguments statusName : simpl never.
#[local] Arguments truthy : simpl never.

(** ** Settlement: the outcomes of one call *)

Lemma activated_stored now o u :
  withMembershipUsage (membershipUsage (activated now o u))
    (withMembership (membership (activated now o u)) u) = activated now o u.
Proof. unfold activated. destruct (renews now o (membership u)); reflexivity. Qed.

Lemma users_promoCounted o d d' : promoCounted o d = Some d' -> users d' = users d.
Proof.
  unfold promoCounted. destruct (countedPromo o); [|by intros [= <-]].
  destruct (promocodes d !! s); [|done]. destruct (promoGuard p); [|done].
  by intros [= <-].
Qed.

Lemma settle_outcome now id pid sig raw w :
  exists r w',
    markOrderPaidAndGrantAccess now id pid sig raw w = (r, w')
    /\ SettleOutcome now id pid sig raw w r w'.
Proof.
  unfold markOrderPaidAndGrantAccess.
  destruct (ObjectId_isValid id) eqn:Hid; cbn;
    [|eexists _, _; split; [reflexivity|by constructor]].
  unfold startTransaction, endSession, abortTransaction, settleInTransaction,
    Order_findById, commitTransaction. run_js.
  destruct (orders (committed w) !! id) as [o|] eqn:Ho; cbn.
  2:{ exists (Throw "Order not found"), (withSession None w).
      split; [reflexivity|by apply settle_not_found]. }
  destruct (decide (status o = PAID)) as [Hp|Hp]; cbn.
  { exists (Normal o), (withSession None w).
    split; [reflexivity|by eapply settle_already_paid]. }
  destruct (bool_decide (status o = PENDING)) eqn:Hs; cbn.
  2:{ apply bool_decide_eq_false in Hs.
      eexists _, (withSession None w).
      split; [reflexivity|by eapply settle_bad_status]. }
  apply bool_decide_eq_true in Hs.
  unfold Order_save. cbn. rewrite Ho. cbn.
  fold (paid now pid sig raw o).
  set (o' := paid now pid sig raw o).
  set (d1 := storeOrder id o' (committed w)).
  assert (Hc : promoCode o' = promoCode o) by reflexivity.
  assert (Hu : user o' = user o) by reflexivity.
  rewrite Hc, Hu.
  assert (Hd1u : users d1 = users (committed w)) by reflexivity.
  assert (Htail : forall d2 c' W,
    promoCounted o d1 = Some d2 ->
    c' = evicted o (PROMO_CACHE w) ->
    W = withCache c' (withSession (Some d2) w) ->
    exists r w',
      (let (r0, s') :=
        let (c0, s') :=
           match users (default (committed W) (session W)) !! user o with
             | Some u =>
                 if isDeleted u || isBanned u
                 then fun s : World => (Throw "Invalid user state", s)
                 else
                  fun s : World =>
                    let (c1, s'0) :=
                      (if truthy (membershipPlanKey o')
                       then activateMembership now o' (user o) u
                       else grantProductAccess now o' (user o) u) s in
                    match c1 with
                    | Normal _ =>
                        let (c2, s'1) :=
                          match session s'0 with
                          | Some d =>
                              (Normal (),
                               withSession None (withCommitted d s'0))
                          | None => (Throw "No transaction started", s'0)
                          end in
                        match c2 with
                        | Normal _ => (Normal o', s'1)
                        | Throw e => (Throw e, s'1)
                        end
                    | Throw e => (Throw e, s'0)
                    end
             | None => fun s : World => (Throw "Invalid user state", s)
             end W in
       match c0 with
       | Normal a => (Normal a, s')
       | Throw e => (Throw e, withSession None s')
       end in
     (r0, withSession None s')) = (r, w') /\ SettleOutcome now id pid sig raw w r w').
  { intros d2 c' W Hcount -> ->. cbn.
    rewrite (users_promoCounted _ _ _ Hcount), Hd1u.
    destruct (users (committed w) !! user o) as [u|] eqn:Hus.
    2:{ eexists _, (withSession None (withCache (evicted o (PROMO_CACHE w)) w)).
        split; [reflexivity|]. eapply settle_bad_user; eauto. by rewrite Hus. }
    destruct (isDeleted u || isBanned u) eqn:Hbad.
    { eexists _, (withSession None (withCache (evicted o (PROMO_CACHE w)) w)).
      split; [reflexivity|]. eapply settle_bad_user; eauto. by rewrite Hus. }
    apply orb_false_elim in Hbad as [Hdel Hban].
    exists (Normal o'),
      (withSession None
         (withCommitted (granted now o' u d2)
            (withCache (evicted o (PROMO_CACHE w)) w))).
    split; [|by eapply settle_done].
    unfold granted, activateMembership, grantProductAccess, User_save.
    rewrite Hu.
    destruct (truthy (membershipPlanKey o')).
    - cbn. rewrite (users_promoCounted _ _ _ Hcount), Hd1u, Hus. cbn.
      rewrite activated_stored. reflexivity.
    - destruct (length (productIdsOf o') =? 0)%nat; [reflexivity|].
      destruct (0 <? length (newPurchasesOf now o' u))%nat; [|reflexivity].
      cbn. rewrite (users_promoCounted _ _ _ Hcount), Hd1u, Hus. cbn.
      reflexivity. }
  destruct (promoCode o) as [c|] eqn:Hpc.
  2:{ apply (Htail d1 (PROMO_CACHE w)); [| |reflexivity].
      - unfold promoCounted, countedPromo. by rewrite Hpc.
      - unfold evicted, countedPromo. by rewrite Hpc. }
  destruct (truthy (Some c)) eqn:Htr.
  2:{ apply (Htail d1 (PROMO_CACHE w)); [| |reflexivity].
      - unfold promoCounted, countedPromo. by rewrite Hpc, Htr.
      - unfold evicted, countedPromo. by rewrite Hpc, Htr. }
  unfold updatePromoUsage, PromoCode_updateOne_inc. run_js.
  destruct (promocodes d1 !! c) as [p|] eqn:Hp1; cbn.
  2:{ exists (Throw "Promo code usage limit exceeded"), (withSession None w).
      split; [reflexivity|]. eapply settle_promo_exceeded; eauto.
      change (promoCounted o d1 = None).
      unfold promoCounted, countedPromo. by rewrite Hpc, Htr, Hp1. }
  destruct (promoGuard p) eqn:Hg; cbn.
  2:{ exists (Throw "Promo code usage limit exceeded"), (withSession None w).
      split; [reflexivity|]. eapply settle_promo_exceeded; eauto.
      change (promoCounted o d1 = None).
      unfold promoCounted, countedPromo. by rewrite Hpc, Htr, Hp1, Hg. }
  refine (Htail
    (withPromocodes (<[c := withUsedCount (usedCount p + 1) p]> (promocodes d1)) d1)
    (cacheDelete c (PROMO_CACHE w)) (withCache _ (withSession _ w)) _ _ eq_refl).
  - unfold promoCounted, countedPromo. by rewrite Hpc, Htr, Hp1, Hg.
  - unfold evicted, countedPromo. by rewrite Hpc, Htr.
Qed.

(** The outcome relation, read off a run. *)
Lemma settle_inv now id pid sig raw w r w' :
  markOrderPaidAndGrantAccess now id pid sig raw w = (r, w') ->
  SettleOutcome now id pid sig raw w r w'.
Proof.
  intros Hrun. destruct (settle_outcome now id pid sig raw w) as (r0 & w0 & Heq & Hout).
  rewrite Hrun in Heq. by injection Heq as -> ->.
Qed.

#[local] Arguments settleInTransaction : simpl never.


Lemma orders_granted now o u d : orders (granted now o u d) = orders d.
Proof. unfold granted. by repeat case_match. Qed.

Lemma statusTrace_granted now o u d : statusTrace (granted now o u d) = statusTrace d.
Proof. unfold granted. by repeat case_match. Qed.

Lemma promocodes_granted now o u d : promocodes (granted now o u d) = promocodes d.
Proof. unfold granted. by repeat case_match. Qed.

Lemma orders_promoCounted o d d' :
  promoCounted o d = Some d' -> orders d' = orders d /\ statusTrace d' = statusTrace d.
Proof.
  unfold promoCounted. destruct (countedPromo o); [|by intros [= <-]].
  destruct (promocodes d !! s); [|done]. destruct (promoGuard p); [|done].
  by intros [= <-].
Qed.

(** What one call does to the committed database: nothing, or the one
    settlement. *)
Lemma settle_committed id c w :
  committed (settle id c w).2 = committed w
  \/ settledBy id c (committed w) (committed (settle id c w).2).
Proof.
  unfold settle.
  destruct (markOrderPaidAndGrantAccess (call_now c) id (call_paymentId c)
              (call_signature c) (call_raw c) w) as [r w'] eqn:Hrun.
  apply settle_inv in Hrun. cbn.
  destruct Hrun; try (by left).
  right. exists o, u, d. by repeat split.
Qed.

Lemma settledBy_order id c d d' :
  settledBy id c d d' ->
  exists o, orders d !! id = Some o /\ status o = PENDING
    /\ orders d' = <[id := paid (call_now c) (call_paymentId c) (call_signature c)
                              (call_raw c) o]> (orders d)
    /\ statusTrace d' = statusTrace d ++ [pendingToPaid id].
Proof.
  intros (o & u & d1 & Ho & Hs & Hp & Hu & _ & _ & ->).
  exists o. rewrite orders_granted, statusTrace_granted.
  destruct (orders_promoCounted _ _ _ Hp) as [-> ->].
  repeat split; try done.
  unfold storeOrder, traceOf. cbn. rewrite Ho.
  rewrite decide_False; rewrite Hs; [reflexivity|by cbv].
Qed.

(** In a world where the order is PAID, a call changes nothing. *)
Lemma settle_paid id c w o :
  ObjectId_isValid id = true ->
  orders (committed w) !! id = Some o ->
  status o = PAID ->
  settle id c w = (Normal o, withSession None w).
Proof.
  intros Hid Ho Hs. unfold settle.
  destruct (markOrderPaidAndGrantAccess (call_now c) id (call_paymentId c)
              (call_signature c) (call_raw c) w) as [r w'] eqn:Hrun.
  apply settle_inv in Hrun.
  destruct Hrun; congruence.
Qed.

Lemma settle_paid_committed id c w o :
  orders (committed w) !! id = Some o ->
  status o = PAID ->
  committed (settle id c w).2 = committed w.
Proof.
  intros Ho Hs. destruct (settle_committed id c w) as [H|H]; [done|].
  destruct H as (o' & _ & _ & Ho' & Hs' & _). congruence.
Qed.

Lemma settleAll_paid id calls w o :
  orders (committed w) !! id = Some o ->
  status o = PAID ->
  committed (settleAll id calls w) = committed w.
Proof.
  revert w. induction calls as [|c rest IH]; intros w Ho Hs; [done|].
  cbn. pose proof (settle_paid_committed id c w o Ho Hs) as Hc.
  rewrite IH; [done| |done]. by rewrite Hc.
Qed.

(** A sequence of calls on one order has the effect of at most one
    settlement. *)
Lemma settleAll_committed id calls w :
  committed (settleAll id calls w) = committed w
  \/ exists c, c ∈ calls /\ settledBy id c (committed w) (committed (settleAll id calls w)).
Proof.
  revert w. induction calls as [|c rest IH]; intros w; [by left|].
  cbn. destruct (settle_committed id c w) as [Hsame|Hset].
  - destruct (IH (settle id c w).2) as [H|(c' & Hin & H)].
    + left. by rewrite H.
    + right. exists c'. split; [apply elem_of_cons; by right|]. by rewrite <- Hsame.
  - right. exists c. split; [apply elem_of_cons; by left|].
    destruct (settledBy_order _ _ _ _ Hset) as (o & Ho & Hs & Hos & _).
    erewrite settleAll_paid; [done| |].
    + rewrite Hos. apply lookup_insert_eq.
    + done.
Qed.

Lemma NoDup_newPurchases now o u :
  NoDup (map product (items o)) ->
  NoDup (map pp_product (newPurchasesOf now o u)).
Proof.
  intros Hnd. unfold newPurchasesOf, productIdsOf.
  rewrite map_map. cbn. rewrite map_id.
  by do 2 apply list.NoDup_filter.
Qed.

Lemma newPurchases_fresh now o u p :
  p ∈ newPurchasesOf now o u ->
  pp_product p ∉ map pp_product (purchasedProducts u).
Proof.
  unfold newPurchasesOf. intros Hin.
  apply list_elem_of_In, in_map_iff in Hin as (i & <- & Hi).
  by apply list_elem_of_In, list_elem_of_filter in Hi as [Hi _].
Qed.

(** The owner's document after the one settlement; every other user is
    untouched. *)
Lemma settledBy_users id c d d' :
  settledBy id c d d' ->
  exists o u,
    orders d !! id = Some o /\ status o = PENDING /\ users d !! user o = Some u
    /\ users d' =
       <[user o :=
           if truthy (membershipPlanKey o) then activated (call_now c) o u
           else withPurchasedProducts
                  (purchasedProducts u ++ newPurchasesOf (call_now c) o u) u]>
         (users d).
Proof.
  intros (o & u & d1 & Ho & Hs & Hp & Hu & _ & _ & ->).
  exists o, u. repeat split; try done.
  pose proof (users_promoCounted _ _ _ Hp) as Hd1.
  change (users d1 = users d) in Hd1.
  assert (Hnil : forall l, l = [] ->
            <[user o := withPurchasedProducts (purchasedProducts u ++ l) u]> (users d)
            = users d).
  { intros l ->. rewrite app_nil_r. apply insert_id. rewrite Hu. by destruct u. }
  unfold granted. destruct (truthy (membershipPlanKey o)).
  { unfold withUsers. cbn. by rewrite Hd1. }
  destruct (length (productIdsOf o) =? 0)%nat eqn:Hlen.
  { rewrite Hnil; [done|]. apply Nat.eqb_eq, nil_length_inv in Hlen.
    unfold newPurchasesOf. by rewrite Hlen. }
  destruct (0 <? length (newPurchasesOf (call_now c) o u))%nat eqn:Hnew.
  { unfold withUsers. cbn. by rewrite Hd1. }
  rewrite Hnil; [done|]. apply Nat.ltb_ge in Hnew.
  apply nil_length_inv. lia.
Qed.

Lemma purchasedProducts_activated now o u :
  purchasedProducts (activated now o u) = purchasedProducts u.
Proof. unfold activated. by destruct (renews now o (membership u)). Qed.

(** C3 — Settlement is atomic.  If a call of [markOrderPaidAndGrantAccess]
    throws [e], the committed database (the order with its status and payment
    fields, the promo codes with their [usedCount], the users with their
    [purchasedProducts] and membership) is exactly what it was before the
    call; and when the id is well formed, so that the transaction was
    started, no transaction is left open and [e] is the error the [try]
    block threw. *)
Theorem settlement_atomic now id pid sig raw w e w' :
  markOrderPaidAndGrantAccess now id pid sig raw w = (Throw e, w') ->
  committed w' = committed w
  /\ (ObjectId_isValid id = true ->
      session w' = None
      /\ exists w1,
           settleInTransaction now id pid sig raw (withSession (Some (committed w)) w)
           = (Throw e, w1)).
Proof.
  intros Hrun. split.
  - apply settle_inv in Hrun. by inversion Hrun.
  - intros Hid. split.
    + apply settle_inv in Hrun. inversion Hrun; subst; try done. congruence.
    + revert Hrun. unfold markOrderPaidAndGrantAccess. rewrite Hid. cbn.
      unfold startTransaction, endSession, abortTransaction. run_js.
      destruct (settleInTransaction now id pid sig raw
                  (withSession (Some (committed w)) w)) as [[a|e1] w1]; cbn.
      * done.
      * intros [= -> _]. by exists w1.
Qed.

(** A committed promo increment and PAID flip never survive an abort: the
    owner of [orderOne] is banned, so the call throws after both were written
    inside the transaction. *)
Lemma settlement_atomic_witness :
  let w := sampleWorld [(orderOne, sampleOrder userOne "order_R1" (Some "SAVE10"))]
             [(userOne, sampleUser true noMembership)]
             [("SAVE10", samplePromo true (Some 5) 0)] in
  let run := markOrderPaidAndGrantAccess 1000 orderOne "pay_1" "sig" emptyRaw w in
  run.1 = Throw "Invalid user state"
  /\ committed run.2 = committed w
  /\ (ObjectId_isValid orderOne = true ->
      session run.2 = None
      /\ exists w1,
           settleInTransaction 1000 orderOne "pay_1" "sig" emptyRaw
             (withSession (Some (committed w)) w)
           = (Throw "Invalid user state", w1)).
Proof.
  intros w run. split; [reflexivity|].
  apply (settlement_atomic 1000 orderOne "pay_1" "sig" emptyRaw w
           "Invalid user state" run.2).
  vm_compute. reflexivity.
Defined.

(** C2 — Settlement is idempotent.  For an order already PAID a further call
    returns the stored order and changes nothing.  Across any sequence of
    calls on one order: the trace of status writes gains at most the one
    entry PENDING -> PAID; what is appended to a user's [purchasedProducts]
    are products the user did not own, each once when the items of the order
    are distinct; and a user's membership is either untouched or the result
    of the one activation made by a call of the sequence on the PENDING
    order. *)
Theorem settlement_idempotent (id : string) (calls : list SettleCall) (w : World) :
  ObjectId_isValid id = true ->
  (forall c o, orders (committed w) !! id = Some o -> status o = PAID ->
     settle id c w = (Normal o, withSession None w))
  /\ (exists added,
        statusTrace (committed (settleAll id calls w))
        = statusTrace (committed w) ++ added
        /\ (added = [] \/ added = [pendingToPaid id]))
  /\ (forall uid u, users (committed w) !! uid = Some u ->
        exists u' extra,
          users (committed (settleAll id calls w)) !! uid = Some u'
          /\ purchasedProducts u' = purchasedProducts u ++ extra
          /\ (forall p, p ∈ extra ->
                pp_product p ∉ map pp_product (purchasedProducts u))
          /\ (forall o, orders (committed w) !! id = Some o ->
                NoDup (map product (items o)) -> NoDup (map pp_product extra))
          /\ ((membership u' = membership u
               /\ membershipUsage u' = membershipUsage u)
              \/ exists c o,
                   c ∈ calls /\ orders (committed w) !! id = Some o
                   /\ status o = PENDING /\ uid = user o
                   /\ u' = activated (call_now c) o u)).
Proof.
  intros Hid. split; [|split].
  - intros c o Ho Hs. by apply settle_paid.
  - destruct (settleAll_committed id calls w) as [->|(c & _ & Hset)].
    + exists []. rewrite app_nil_r. by split; [|left].
    + destruct (settledBy_order _ _ _ _ Hset) as (o & _ & _ & _ & ->).
      exists [pendingToPaid id]. by split; [|right].
  - intros uid u Hu.
    destruct (settleAll_committed id calls w) as [->|(c & Hin & Hset)].
    { exists u, []. rewrite app_nil_r. repeat split; try done.
      - intros p Hp. by apply elem_of_nil in Hp.
      - intros. constructor.
      - by left. }
    destruct (settledBy_users _ _ _ _ Hset) as (o & uo & Ho & Hs & Huo & ->).
    destruct (decide (uid = user o)) as [->|Hne].
    2:{ exists u, []. rewrite lookup_insert_ne by done. rewrite app_nil_r.
        repeat split; try done.
        - intros p Hp. by apply elem_of_nil in Hp.
        - intros. constructor.
        - by left. }
    rewrite lookup_insert_eq. assert (uo = u) as -> by congruence.
    destruct (truthy (membershipPlanKey o)).
    + exists (activated (call_now c) o u), [].
      rewrite purchasedProducts_activated, app_nil_r. repeat split; try done.
      * intros p Hp. by apply elem_of_nil in Hp.
      * intros. constructor.
      * right. by exists c, o.
    + exists (withPurchasedProducts
                (purchasedProducts u ++ newPurchasesOf (call_now c) o u) u),
             (newPurchasesOf (call_now c) o u).
      repeat split; try done.
      * intros p. apply newPurchases_fresh.
      * intros o' Ho' Hnd. assert (o' = o) as -> by congruence.
        by apply NoDup_newPurchases.
      * by left.
Qed.

(** Two calls with different payment ids on one PENDING order with distinct
    items. *)
Lemma settlement_idempotent_witness :
  let w := sampleWorld [(orderOne, sampleOrder userOne "order_R1" None)]
             [(userOne, sampleUser false noMembership)] [] in
  let calls := [sampleCall 1000 "pay_1"; sampleCall 2000 "pay_2"] in
  statusTrace (committed (settleAll orderOne calls w)) = [pendingToPaid orderOne]
  /\ (purchasedProducts <$> users (committed (settleAll orderOne calls w)) !! userOne)
     = Some [ {| pp_product := productA; purchasedAt := 1000; pp_source := "order" |};
              {| pp_product := productB; purchasedAt := 1000; pp_source := "order" |} ]
  /\ exists added,
       statusTrace (committed (settleAll orderOne calls w))
       = statusTrace (committed w) ++ added
       /\ (added = [] \/ added = [pendingToPaid orderOne]).
Proof.
  intros w calls. split; [by vm_compute|]. split; [by vm_compute|].
  apply (settlement_idempotent orderOne calls w). reflexivity.
Defined.

(** ** Membership activation *)




(** ** Promo usage *)

Lemma promoGuard_true p :
  promoGuard p = true <->
  isActive p = true
  /\ (usageLimit p = None \/ usageLimit p = Some 0
      \/ exists l, usageLimit p = Some l /\ usedCount p < l).
Proof.
  unfold promoGuard. rewrite andb_true_iff.
  destruct (usageLimit p) as [l|].
  - rewrite orb_true_iff, Z.eqb_eq, Z.ltb_lt. split.
    + intros [? [->|?]]; split; try done; [by right; left|].
      right; right. by exists l.
    + intros [? [?|[[= ->]|(l' & [= <-] & ?)]]]; try done; split; auto.
  - split; [intros [? _]; split; auto|by intros [? _]].
Qed.

(** [updatePromoUsage] inside a transaction whose working copy is [d]. *)
Lemma updatePromoUsage_run c d w :
  session w = Some d ->
  updatePromoUsage c w =
  match promocodes d !! c with
  | Some p =>
      if promoGuard p then
        (Normal tt,
         withCache (cacheDelete c (PROMO_CACHE w))
           (withSession
              (Some (withPromocodes
                       (<[c := withUsedCount (usedCount p + 1) p]> (promocodes d)) d))
              w))
      else (Throw "Promo code usage limit exceeded", w)
  | None => (Throw "Promo code usage limit exceeded", w)
  end.
Proof.
  intros Hs. unfold updatePromoUsage, PromoCode_updateOne_inc. run_js.
  rewrite Hs. cbn. destruct (promocodes d !! c) as [p|]; [|done].
  by destruct (promoGuard p).
Qed.

Lemma countedPromo_ready c o :
  truthy (Some c) = true -> promoCode o = Some c -> countedPromo o = Some c.
Proof. intros Ht Hc. unfold countedPromo. by rewrite Hc, Ht. Qed.

(** What one call does to a promo code: nothing, or one guarded increment. *)
Lemma settle_promocodes id call w c p :
  promocodes (committed w) !! c = Some p ->
  exists p',
    promocodes (committed (settle id call w).2) !! c = Some p'
    /\ usageLimit p' = usageLimit p /\ isActive p' = isActive p
    /\ (usedCount p' = usedCount p
        \/ (usedCount p' = usedCount p + 1 /\ promoGuard p = true)).
Proof.
  intros Hp. destruct (settle_committed id call w) as [->|Hset].
  { exists p. by repeat split; [..|left]. }
  destruct Hset as (o & u & d1 & Ho & Hs & Hcount & Hu & _ & _ & ->).
  rewrite promocodes_granted. revert Hcount. unfold promoCounted.
  destruct (countedPromo o) as [c'|]; [|intros [= <-]; exists p; by repeat split; [..|left]].
  change (promocodes (storeOrder ?i ?x ?d)) with (promocodes d).
  destruct (promocodes (committed w) !! c') as [q|] eqn:Hq; [|done].
  destruct (promoGuard q) eqn:Hg; [|done]. intros [= <-].
  unfold withPromocodes. cbn.
  destruct (decide (c' = c)) as [->|Hne].
  - rewrite lookup_insert_eq. assert (q = p) as -> by congruence.
    eexists. split; [done|]. repeat split. by right.
  - rewrite lookup_insert_ne by done. exists p. by repeat split; [..|left].
Qed.

Lemma settle_ready_ok c id call w p :
  readyWith c (committed w) id -> truthy (Some c) = true ->
  promocodes (committed w) !! c = Some p -> promoGuard p = true ->
  (exists o, (settle id call w).1 = Normal o)
  /\ settledBy id call (committed w) (committed (settle id call w).2)
  /\ promocodes (committed (settle id call w).2)
     = <[c := withUsedCount (usedCount p + 1) p]> (promocodes (committed w)).
Proof.
  intros (Hid & o & u & Ho & Hs & Hc & Hu & Hdel & Hban) Ht Hp Hg.
  assert (Hcount : promoCounted o
            (storeOrder id (paid (call_now call) (call_paymentId call)
                              (call_signature call) (call_raw call) o) (committed w))
          = Some (withPromocodes
                    (<[c := withUsedCount (usedCount p + 1) p]>
                       (promocodes (committed w)))
                    (storeOrder id (paid (call_now call) (call_paymentId call)
                                      (call_signature call) (call_raw call) o)
                       (committed w)))).
  { unfold promoCounted. rewrite (countedPromo_ready c o Ht Hc).
    change (promocodes (storeOrder ?i ?x ?d)) with (promocodes d).
    by rewrite Hp, Hg. }
  unfold settle.
  destruct (markOrderPaidAndGrantAccess (call_now call) id (call_paymentId call)
              (call_signature call) (call_raw call) w) as [r w'] eqn:Hrun.
  apply settle_inv in Hrun. cbn.
  inversion Hrun as [| | | | o1 ? Ho1 ? Hc1 | o1 d ? Ho1 ? Hc1 Hbad
                     | o1 d u1 ? Ho1 ? Hc1 Hu1 ? ?]; subst; try congruence.
  - assert (o1 = o) as -> by congruence. rewrite Hu in Hbad.
    rewrite Hdel, Hban in Hbad. done.
  - assert (o1 = o) as -> by congruence. assert (u1 = u) as -> by congruence.
    assert (d = withPromocodes
                  (<[c := withUsedCount (usedCount p + 1) p]>
                     (promocodes (committed w)))
                  (storeOrder id (paid (call_now call) (call_paymentId call)
                                    (call_signature call) (call_raw call) o)
                     (committed w))) as -> by congruence.
    split; [by eexists|]. split.
    + exists o, u. eexists. by repeat split.
    + cbn. by rewrite promocodes_granted.
Qed.

Lemma settle_ready_fail c id call w :
  readyWith c (committed w) id -> truthy (Some c) = true ->
  match promocodes (committed w) !! c with
  | Some p => promoGuard p = false
  | None => True
  end ->
  (settle id call w).1 = limitError
  /\ committed (settle id call w).2 = committed w.
Proof.
  intros (Hid & o & u & Ho & Hs & Hc & Hu & Hdel & Hban) Ht Hp.
  assert (Hcount : promoCounted o
            (storeOrder id (paid (call_now call) (call_paymentId call)
                              (call_signature call) (call_raw call) o) (committed w))
          = None).
  { unfold promoCounted. rewrite (countedPromo_ready c o Ht Hc).
    change (promocodes (storeOrder ?i ?x ?d)) with (promocodes d).
    destruct (promocodes (committed w) !! c); [by rewrite Hp|done]. }
  unfold settle.
  destruct (markOrderPaidAndGrantAccess (call_now call) id (call_paymentId call)
              (call_signature call) (call_raw call) w) as [r w'] eqn:Hrun.
  apply settle_inv in Hrun. cbn.
  inversion Hrun; subst; try congruence; by assert (o0 = o) as -> by congruence.
Qed.

Lemma flags_activated now o u :
  isDeleted (activated now o u) = isDeleted u
  /\ isBanned (activated now o u) = isBanned u.
Proof. unfold activated. by destruct (renews now o (membership u)). Qed.

Lemma readyWith_settledBy c id call d d' id' :
  settledBy id call d d' -> id' <> id -> readyWith c d id' -> readyWith c d' id'.
Proof.
  intros Hset Hne (Hid & o' & u' & Ho' & Hs' & Hc' & Hu' & Hdel & Hban).
  destruct (settledBy_order _ _ _ _ Hset) as (o & Ho & _ & Hos & _).
  destruct (settledBy_users _ _ _ _ Hset) as (o2 & u & Ho2 & _ & Hu & Hus).
  assert (o2 = o) as -> by congruence.
  split; [done|]. exists o'.
  rewrite Hos, Hus, lookup_insert_ne by done.
  destruct (decide (user o = user o')) as [Heq|Hneq].
  - rewrite Heq, lookup_insert_eq. rewrite Heq in Hu.
    assert (u = u') as -> by congruence.
    eexists. repeat split; try done.
    + destruct (truthy (membershipPlanKey o)); [|done].
      by rewrite (proj1 (flags_activated _ _ _)).
    + destruct (truthy (membershipPlanKey o)); [|done].
      by rewrite (proj2 (flags_activated _ _ _)).
  - rewrite lookup_insert_ne by done. exists u'. by repeat split.
Qed.

(** Settling several ready orders that reference one active code with a
    positive limit [N], starting from a count [k]: the first [N - k] calls
    succeed, every later one fails on the guard, and the count ends at
    [k] plus the number of successes. *)
Lemma settleEach_capacity c N calls :
  truthy (Some c) = true -> 0 < N ->
  forall w p,
    promocodes (committed w) !! c = Some p ->
    isActive p = true -> usageLimit p = Some N -> 0 <= usedCount p <= N ->
    NoDup (map fst calls) ->
    (forall x, x ∈ calls -> readyWith c (committed w) x.1) ->
    exists oks fails p',
      (settleEach calls w).1 = (Normal <$> oks) ++ fails
      /\ Forall (fun r => r = limitError) fails
      /\ Z.of_nat (length oks) = Z.min (Z.of_nat (length calls)) (N - usedCount p)
      /\ (length oks + length fails = length calls)%nat
      /\ promocodes (committed (settleEach calls w).2) !! c = Some p'
      /\ usedCount p' = usedCount p + Z.of_nat (length oks)
      /\ usageLimit p' = Some N /\ isActive p' = true.
Proof.
  intros Ht HN. induction calls as [|[id call] rest IH];
    intros w p Hp Hact Hlim Hk Hnd Hready.
  { exists [], [], p. cbn. repeat split; try done; lia. }
  cbn [settleEach fst snd].
  cbn in Hnd. apply list.NoDup_cons in Hnd as [Hnotin Hnd].
  assert (Hrid : readyWith c (committed w) id).
  { apply (Hready (id, call)). apply elem_of_cons. by left. }
  destruct (decide (usedCount p < N)) as [Hlt|Hge].
  - assert (Hg : promoGuard p = true).
    { apply promoGuard_true. split; [done|]. right; right. by exists N. }
    destruct (settle_ready_ok c id call w p Hrid Ht Hp Hg) as ([o Hr] & Hset & Hps).
    assert (Hready' : forall x, x ∈ rest ->
              readyWith c (committed (settle id call w).2) x.1).
    { intros x Hx. apply (readyWith_settledBy c id call (committed w)); [done| |].
      - intros <-. apply Hnotin. apply list_elem_of_In, in_map_iff.
        exists x. split; [done|]. by apply list_elem_of_In.
      - apply Hready. apply elem_of_cons. by right. }
    assert (Hp1 : promocodes (committed (settle id call w).2) !! c
                  = Some (withUsedCount (usedCount p + 1) p)).
    { rewrite Hps. apply lookup_insert_eq. }
    assert (Hk1 : 0 <= usedCount (withUsedCount (usedCount p + 1) p) <= N).
    { unfold withUsedCount. cbn. lia. }
    destruct (IH (settle id call w).2 (withUsedCount (usedCount p + 1) p)
                Hp1 Hact Hlim Hk1 Hnd Hready')
      as (oks & fails & p' & Hrs & Hf & Hlen & Hsum & Hp' & Hcnt & Hl' & Ha').
    unfold withUsedCount in Hlen, Hcnt. cbn in Hlen, Hcnt.
    exists (o :: oks), fails, p'. rewrite Hr, Hrs. cbn in *.
    repeat split; try done; lia.
  - assert (Hg : promoGuard p = false).
    { apply not_true_is_false. intros Hyes. apply promoGuard_true in Hyes.
      destruct Hyes as [_ [?|[?|(l & ? & ?)]]];
        [congruence
        |assert (N = 0) by congruence; lia
        |assert (l = N) as -> by congruence; lia]. }
    destruct (settle_ready_fail c id call w Hrid Ht) as [Hr Hsame].
    { by rewrite Hp. }
    assert (Hready' : forall x, x ∈ rest ->
              readyWith c (committed (settle id call w).2) x.1).
    { intros x Hx. rewrite Hsame. apply Hready. apply elem_of_cons. by right. }
    assert (Hp1 : promocodes (committed (settle id call w).2) !! c = Some p).
    { by rewrite Hsame. }
    destruct (IH (settle id call w).2 p Hp1 Hact Hlim Hk Hnd Hready')
      as (oks & fails & p' & Hrs & Hf & Hlen & Hsum & Hp' & Hcnt & Hl' & Ha').
    assert (oks = []) as ->.
    { apply nil_length_inv. lia. }
    exists [], (limitError :: fails), p'. rewrite Hr, Hrs. cbn in *.
    repeat split; try done; try lia. by constructor.
Qed.

(** C4, as stated, fails: the code SAVE10 has no usage limit, so the capacity
    condition holds, yet the guarded update matches nothing because the code
    was deactivated, and the settlement of the order that references it
    aborts with the usage-limit error. *)
Lemma promo_guard_counterexample :
  promocodes (committed inactivePromoWorld) !! "SAVE10"
  = Some (samplePromo false None 0)
  /\ capacityLeft (samplePromo false None 0) = true
  /\ updatePromoUsage "SAVE10"
       (withSession (Some (committed inactivePromoWorld)) inactivePromoWorld)
     = (Throw "Promo code usage limit exceeded",
        withSession (Some (committed inactivePromoWorld)) inactivePromoWorld)
  /\ (markOrderPaidAndGrantAccess 1000 orderOne "pay_1" "sig" emptyRaw
        inactivePromoWorld).1 = limitError.
Proof. repeat split; by vm_compute. Qed.

(** C4, amended — The guarded update of [updatePromoUsage] succeeds exactly
    when a code of that name exists, is active, and its limit is unset or
    zero or its count is below the limit.  A settlement call leaves every
    promo code with its limit and either its count or its count plus one, so
    [usedCount <= usageLimit] is preserved for every code with a positive
    limit.  A failed guard aborts the settlement with the usage-limit error
    and an unchanged database.  Settling [N + 1] ready orders that reference
    an active, unused code with limit [N > 0] makes the first [N] calls
    succeed and the last one fail with the usage-limit error, and leaves the
    count at [N]. *)
Theorem promo_usage_guarded :
  (forall c d w, session w = Some d ->
     ((exists w', updatePromoUsage c w = (Normal tt, w'))
      <-> exists p, promocodes d !! c = Some p /\ isActive p = true
            /\ (usageLimit p = None \/ usageLimit p = Some 0
                \/ exists l, usageLimit p = Some l /\ usedCount p < l)))
  /\ (forall id call w c p,
        promocodes (committed w) !! c = Some p ->
        exists p',
          promocodes (committed (settle id call w).2) !! c = Some p'
          /\ usageLimit p' = usageLimit p
          /\ (usedCount p' = usedCount p \/ usedCount p' = usedCount p + 1)
          /\ (forall l, usageLimit p = Some l -> 0 < l ->
                usedCount p <= l -> usedCount p' <= l))
  /\ (forall id call w c,
        readyWith c (committed w) id -> truthy (Some c) = true ->
        (forall p, promocodes (committed w) !! c = Some p -> promoGuard p = false) ->
        (settle id call w).1 = limitError
        /\ committed (settle id call w).2 = committed w)
  /\ (forall c (N : nat) calls w p,
        truthy (Some c) = true -> (0 < N)%nat ->
        promocodes (committed w) !! c = Some p ->
        isActive p = true -> usageLimit p = Some (Z.of_nat N) -> usedCount p = 0 ->
        length calls = S N -> NoDup (map fst calls) ->
        (forall x, x ∈ calls -> readyWith c (committed w) x.1) ->
        exists oks p',
          length oks = N
          /\ (settleEach calls w).1 = (Normal <$> oks) ++ [limitError]
          /\ promocodes (committed (settleEach calls w).2) !! c = Some p'
          /\ usedCount p' = Z.of_nat N).
Proof.
  split; [|split; [|split]].
  - intros c d w Hs. rewrite (updatePromoUsage_run c d w Hs). split.
    + intros [w' Hrun]. destruct (promocodes d !! c) as [p|]; [|done].
      destruct (promoGuard p) eqn:Hg; [|done].
      exists p. split; [done|]. by apply promoGuard_true.
    + intros (p & -> & Hg). apply promoGuard_true in Hg. rewrite Hg. by eexists.
  - intros id call w c p Hp.
    destruct (settle_promocodes id call w c p Hp) as (p' & Hp' & Hl & _ & Hcnt).
    exists p'. repeat split; try done.
    + destruct Hcnt as [?|[? _]]; auto.
    + intros l Hlim Hpos Hle. destruct Hcnt as [->|[-> Hg]]; [done|].
      apply promoGuard_true in Hg as [_ [?|[?|(l' & ? & ?)]]]; try congruence.
      * assert (l = 0) by congruence. lia.
      * assert (l' = l) as -> by congruence. lia.
  - intros id call w c Hready Ht Hg.
    apply (settle_ready_fail c); try done.
    destruct (promocodes (committed w) !! c) as [p|]; [by apply Hg|done].
  - intros c N calls w p Ht HN Hp Hact Hlim Hused Hlen Hnd Hready.
    destruct (settleEach_capacity c (Z.of_nat N) calls Ht ltac:(lia) w p Hp Hact Hlim
                ltac:(lia) Hnd Hready)
      as (oks & fails & p' & Hrs & Hf & Hoks & Hsum & Hp' & Hcnt & _).
    rewrite Hused, Hlen in Hoks. rewrite Hlen in Hsum.
    assert (Hn : length oks = N) by lia.
    destruct fails as [|f [|f' fails]]; cbn in Hsum; try lia.
    apply list.Forall_cons in Hf as [-> _].
    exists oks, p'. repeat split; try done. lia.
Qed.

(** Three orders on a code limited to two uses: two settle, the third is
    refused, and the count ends at two. *)
Lemma promo_usage_guarded_witness :
  usedCount <$> promocodes (committed (settleEach threeCalls limitTwoWorld).2) !! "SAVE10"
  = Some 2
  /\ exists oks p',
       length oks = 2%nat
       /\ (settleEach threeCalls limitTwoWorld).1 = (Normal <$> oks) ++ [limitError]
       /\ promocodes (committed (settleEach threeCalls limitTwoWorld).2) !! "SAVE10"
          = Some p'
       /\ usedCount p' = 2.
Proof.
  split; [by vm_compute|].
  apply (proj2 (proj2 (proj2 promo_usage_guarded)) "SAVE10" 2%nat threeCalls
           limitTwoWorld (samplePromo true (Some 2) 0)); try (by vm_compute).
  - lia.
  - apply (bool_decide_unpack _). by vm_compute.
  - intros x Hx. unfold threeCalls in Hx.
    repeat (apply elem_of_cons in Hx as [->|Hx]);
      [..|by apply elem_of_nil in Hx];
      (split; [reflexivity|]);
      eexists _, _; (split; [vm_compute; reflexivity|]); by vm_compute.
Defined.

(** ** Pricing *)

Local Open Scope Q_scope.

(** A whole number of hundredths. *)
Lemma Qfloor_hundredths (n : Z) : Qfloor ((n # 100) * 100 + (1 # 2)) = n.
Proof.
  unfold Qfloor, Qmult, Qplus. cbn.
  Z.div_mod_to_equations. lia.
Qed.

Lemma round2_comp x y : x == y -> round2 x = round2 y.
Proof.
  intros Hxy. unfold round2.
  assert (Hb : Qle_bool 0 x = Qle_bool 0 y).
  { apply eq_true_iff_eq. rewrite !Qle_bool_iff. by rewrite Hxy. }
  rewrite Hb. destruct (Qle_bool 0 y).
  - f_equal. apply Qfloor_comp. by rewrite Hxy.
  - f_equal. f_equal. apply Qfloor_comp. by rewrite Hxy.
Qed.

Lemma round2_hundredths (n : Z) : round2 (n # 100) = (n # 100).
Proof.
  unfold round2. destruct (Qle_bool 0 (n # 100)) eqn:Hs.
  - by rewrite Qfloor_hundredths.
  - f_equal.
    assert (Hneg : - (n # 100) * 100 + (1 # 2) == ((- n)%Z # 100) * 100 + (1 # 2)).
    { unfold Qeq, Qopp, Qmult, Qplus. cbn. lia. }
    rewrite (Qfloor_comp _ _ Hneg), Qfloor_hundredths. lia.
Qed.

Lemma round2_is_hundredths x : exists n : Z, round2 x = (n # 100).
Proof. unfold round2. destruct (Qle_bool 0 x); by eexists. Qed.

Lemma round2_of_hundredths x (n : Z) : x == (n # 100) -> round2 x = (n # 100).
Proof. intros H. rewrite (round2_comp _ _ H). apply round2_hundredths. Qed.

Lemma Qfloor_half_nonneg x : 0 <= x -> (0 <= Qfloor (x * 100 + (1 # 2)))%Z.
Proof.
  intros Hx. change 0%Z with (Qfloor 0). apply Qfloor_resp_le.
  assert (0 <= x * 100) by (apply Qmult_le_0_compat; [done|by compute]).
  apply Qle_trans with (x * 100); [done|].
  rewrite <- (Qplus_0_r (x * 100)) at 1. apply Qplus_le_r. by compute.
Qed.

Lemma hundredths_le (a b : Z) : (a <= b)%Z -> (a # 100) <= (b # 100).
Proof. intros H. unfold Qle. cbn [Qnum Qden]. lia. Qed.

Lemma round2_mono x y : x <= y -> round2 x <= round2 y.
Proof.
  intros Hxy. unfold round2.
  destruct (Qle_bool 0 x) eqn:Hx; destruct (Qle_bool 0 y) eqn:Hy.
  - apply hundredths_le.
    apply Qfloor_resp_le. apply Qplus_le_l. apply Qmult_le_compat_r; [done|by compute].
  - apply Qle_bool_iff in Hx. apply not_true_iff_false in Hy.
    exfalso. apply Hy. apply Qle_bool_iff. by apply Qle_trans with x.
  - apply not_true_iff_false in Hx. apply Qle_bool_iff in Hy.
    assert (Hnx : 0 <= - x).
    { rewrite Qle_bool_iff in Hx. apply Qnot_le_lt, Qlt_le_weak in Hx.
      apply Qopp_le_compat in Hx. exact Hx. }
    pose proof (Qfloor_half_nonneg _ Hnx) as H1.
    pose proof (Qfloor_half_nonneg _ Hy) as H2.
    apply hundredths_le. lia.
  - assert (Hle : (Qfloor (- y * 100 + (1 # 2)) <= Qfloor (- x * 100 + (1 # 2)))%Z).
    { apply Qfloor_resp_le. apply Qplus_le_l.
      apply Qmult_le_compat_r; [|by compute]. by apply Qopp_le_compat. }
    apply hundredths_le. lia.
Qed.

Lemma bind_Normal_inv {S A B} (c : Js S A) (k : A -> Js S B) s b s' :
  bind c k s = (Normal b, s') ->
  exists a s1, c s = (Normal a, s1) /\ k a s1 = (Normal b, s').
Proof.
  unfold bind. destruct (c s) as [[a|e] s1]; [|done]. intros H. by exists a, s1.
Qed.

Lemma Order_create_inv newId o w id o' w' :
  Order_create newId o w = (Normal (id, o'), w') ->
  id = newId /\ o' = o /\ orderValid o = true
  /\ orders (committed w) !! newId = None
  /\ committed w' = storeOrder newId o (committed w).
Proof.
  unfold Order_create. destruct (orderValid o); [|done]. cbn.
  destruct (orders (committed w) !! newId) eqn:Hnew; [done|].
  by intros [= <- <- <-].
Qed.

Lemma calculateOrderTotals_inv found cur w t w' :
  calculateOrderTotals found cur w = (Normal t, w') ->
  exists s, t = {| t_subtotal := round2 s; t_tax := round2 0;
                   t_total := round2 (s + 0) |}.
Proof.
  unfold calculateOrderTotals. case_match; [done|].
  intros [= <- _]. by eexists.
Qed.

(** The discount [applyPromoCode] returns: none, or a positive amount that
    was capped at the subtotal before rounding. *)
Lemma applyPromoCode_inv now promo sub w disc code w' :
  applyPromoCode now promo sub w = (Normal (disc, code), w') ->
  disc = 0
  \/ exists d0, disc = round2 (Math_min d0 sub) /\ Qle_bool disc 0 = false.
Proof.
  unfold applyPromoCode. destruct promo as [raw|]; [|intros [= <- _ _]; by left].
  destruct (negb (truthy (Some raw))); [intros [= <- _ _]; by left|].
  intros H. apply bind_Normal_inv in H as (cached & w1 & _ & H).
  apply bind_Normal_inv in H as (found & w2 & _ & H).
  destruct found as [p|]; [|done].
  repeat (case_match; try done);
    injection H as <- _ _; right; eexists; (split; [reflexivity|done]).
Qed.

Lemma hundredths_minus (a b : Z) x : x == (b # 100) -> (a # 100) - x == ((a - b)%Z # 100).
Proof. intros ->. unfold Qeq, Qminus, Qplus, Qopp. cbn. lia. Qed.

Lemma hundredths_nonpos (n : Z) : Qle_bool (n # 100) 0 = true <-> (n <= 0)%Z.
Proof. rewrite Qle_bool_iff. unfold Qle. cbn. lia. Qed.

(** The arithmetic of the last step of [createPendingOrderForUser], for a
    rounded subtotal of [a] hundredths and a discount of [b <= a]
    hundredths. *)
Lemma totals_balanced (a b : Z) (disc : Q) :
  disc == (b # 100) -> (b <= a)%Z ->
  let total0 := round2 ((a # 100) - disc) in
  let forced := Qle_bool total0 0 in
  let fee := if forced then 1 else 0 in
  let total' := if forced then 1 else total0 in
  Qabs ((a # 100) + round2 0 - disc + fee - total') < 1 # 100
  /\ ((a # 100) + round2 0 - disc <= 0 -> fee = 1 /\ total' = 1)
  /\ 0 < total'.
Proof.
  intros Hd Hba total0 forced fee total'.
  assert (Ht : total0 = ((a - b)%Z # 100)).
  { apply round2_of_hundredths. by apply hundredths_minus. }
  assert (Hz : round2 0 = (0 # 100)) by reflexivity.
  subst fee total' forced. rewrite Ht, Hz.
  destruct (Qle_bool ((a - b)%Z # 100) 0) eqn:Hf.
  - apply hundredths_nonpos in Hf. assert (a = b) as -> by lia.
    split; [|split; [done|reflexivity]].
    assert (E : (b # 100) + (0 # 100) - disc + 1 - 1 == 0).
    { rewrite Hd. unfold Qeq, Qminus, Qplus, Qopp. cbn. lia. }
    rewrite E. reflexivity.
  - assert (Hpos : (0 < a - b)%Z).
    { apply not_true_iff_false in Hf. rewrite hundredths_nonpos in Hf. lia. }
    split; [|split].
    + assert (E : (a # 100) + (0 # 100) - disc + 0 - ((a - b)%Z # 100) == 0).
      { rewrite Hd. unfold Qeq, Qminus, Qplus, Qopp. cbn. lia. }
      rewrite E. reflexivity.
    + intros Hle. exfalso. rewrite Hd in Hle. revert Hle.
      unfold Qle, Qminus, Qplus, Qopp. cbn. lia.
    + unfold Qlt. cbn. lia.
Qed.

Lemma orderValid_amounts o :
  orderValid o = true -> 0 <= subtotal o /\ 0 <= promoDiscount o.
Proof.
  unfold orderValid. rewrite !andb_true_iff, !Qle_bool_iff. tauto.
Qed.

Lemma storeOrder_lookup id o d : orders (storeOrder id o d) !! id = Some o.
Proof. unfold storeOrder. cbn. apply lookup_insert_eq. Qed.

(** C5, amended — Every order persisted by [createPendingOrderForUser] or
    [createMembershipOrderForUser] has amounts that agree to within a cent:
    [abs (subtotal + tax - discount + convenienceFee - total) < 0.01].  In the
    product path the discount lies in [0, subtotal]; whenever
    [subtotal + tax - discount <= 0] the order is stored with
    [convenienceFee = 1] and [total = 1]; and the total is always positive
    (it may lie strictly between 0 and 1).  A membership order carries no
    discount and no convenience fee. *)
Theorem order_totals_balanced :
  (forall now newId userId productIds cur promo w id o w',
     createPendingOrderForUser now newId userId productIds cur promo w
     = (Normal (id, o), w') ->
     orders (committed w') !! id = Some o
     /\ balanced o
     /\ 0 <= promoDiscount o /\ promoDiscount o <= subtotal o
     /\ (subtotal o + tax o - promoDiscount o <= 0 ->
         convenienceFee o = 1 /\ total o = 1)
     /\ 0 < total o)
  /\ (forall now newId userId plan months cur w id o w',
        createMembershipOrderForUser now newId userId plan months cur w
        = (Normal (id, o), w') ->
        orders (committed w') !! id = Some o
        /\ balanced o /\ promoDiscount o = 0 /\ convenienceFee o = 0).
Proof.
  split.
  - intros now newId userId productIds cur promo w id o w' H.
    unfold createPendingOrderForUser in H.
    apply bind_Normal_inv in H as (uniqueIds & w1 & _ & H).
    apply bind_Normal_inv in H as (u & w2 & _ & H).
    cbn zeta in H. destruct (0 <? length _)%nat; [done|].
    apply bind_Normal_inv in H as (found & w3 & _ & H).
    apply bind_Normal_inv in H as ([] & w4 & _ & H).
    apply bind_Normal_inv in H as (totals & w5 & Ht & H).
    apply calculateOrderTotals_inv in Ht as (s & ->).
    apply bind_Normal_inv in H as ([disc code] & w6 & Hd & H).
    apply applyPromoCode_inv in Hd. cbn [t_subtotal t_tax t_total fst snd] in H.
    destruct (Qltb _ _); [done|].
    apply Order_create_inv in H as (-> & -> & Hvalid & Hnew & Hc).
    apply orderValid_amounts in Hvalid as [Hsub Hdisc].
    cbn [subtotal promoDiscount] in Hsub, Hdisc.
    split; [rewrite Hc; apply storeOrder_lookup|].
    unfold balanced. cbn [subtotal tax promoDiscount convenienceFee total].
    destruct (round2_is_hundredths s) as [a Ha].
    assert (Hbase : round2 (s + 0) = (a # 100)).
    { rewrite <- Ha. apply round2_comp. apply Qplus_0_r. }
    rewrite Hbase, Ha in *.
    assert (Hb : exists b : Z, disc == (b # 100) /\ (b <= a)%Z).
    { destruct Hd as [->|(d0 & Hdd & _)].
      - exists 0%Z. split; [reflexivity|]. revert Hsub. unfold Qle. cbn. lia.
      - cbn [t_subtotal] in Hdd.
        destruct (round2_is_hundredths (Math_min d0 (a # 100))) as [b Hb].
        exists b. rewrite Hdd, Hb. split; [reflexivity|].
        assert (Hle : round2 (Math_min d0 (a # 100)) <= round2 (a # 100)).
        { apply round2_mono. unfold Math_min.
          destruct (Qle_bool d0 (a # 100)) eqn:E; [by apply Qle_bool_iff|apply Qle_refl]. }
        rewrite Hb, round2_hundredths in Hle. revert Hle. unfold Qle. cbn. lia. }
    destruct Hb as (b & Hdb & Hba).
    destruct (totals_balanced a b disc Hdb Hba) as (Hbal & Hforce & Hpos).
    repeat split; try done.
    + rewrite Hdb. unfold Qle. cbn. lia.
    + by apply Hforce.
    + by apply Hforce.
  - intros now newId userId plan months cur w id o w' H.
    unfold createMembershipOrderForUser in H.
    apply bind_Normal_inv in H as (u & w1 & _ & H).
    apply bind_Normal_inv in H as (found & w2 & _ & H).
    destruct found as [p|]; [|done].
    apply Order_create_inv in H as (-> & -> & Hvalid & Hnew & Hc).
    split; [rewrite Hc; apply storeOrder_lookup|].
    unfold balanced. cbn [subtotal tax promoDiscount convenienceFee total].
    destruct (round2_is_hundredths (plan_price p * inject_Z (Z.max 1 (Z.min months 12))))
      as [a Ha].
    rewrite Ha.
    assert (Ht : round2 ((a # 100) + 0) = (a # 100)).
    { apply round2_of_hundredths. apply Qplus_0_r. }
    rewrite Ht. repeat split.
    assert (E : (a # 100) + 0 - 0 + 0 - (a # 100) == 0).
    { unfold Qeq, Qminus, Qplus, Qopp. cbn. lia. }
    rewrite E. reflexivity.
Qed.

(** C5, as stated, fails: a product priced 0.50 bought without a promo code
    is persisted PENDING with [total = 0.50] and no convenience fee, a
    product order whose total is below 1.  The controller [createOrder] then
    cancels that order and answers 400. *)
Lemma total_below_one_counterexample :
  exists o w',
    createPendingOrderForUser 0%Z orderOne userOne [productA] "INR" None cheapWorld
    = (Normal (orderOne, o), w')
    /\ orders (committed w') !! orderOne = Some o
    /\ status o = PENDING
    /\ subtotal o = (50 # 100) /\ promoDiscount o = 0
    /\ convenienceFee o = 0 /\ total o = (50 # 100) /\ total o < 1
    /\ (createOrder 0%Z orderOne (Normal "order_R1") (Some userOne) [productA] "INR" None
          cheapWorld).1
       = Normal (Sent (json 400 "Order amount too low to process payment")).
Proof.
  eexists _, _. split; [vm_compute; reflexivity|].
  repeat split; by vm_compute.
Qed.

(** Products A (40) and B (60) bought with the flat code worth 100: the
    discount is capped at the subtotal and the fee branch is taken. *)
Lemma order_totals_balanced_witness :
  exists o,
    orders (committed
              (createPendingOrderForUser 0%Z orderOne userOne [productA; productB] "INR"
                 (Some "flat100") catalogWorld).2) !! orderOne = Some o
    /\ subtotal o = (10000 # 100) /\ promoDiscount o = (10000 # 100)
    /\ convenienceFee o = 1 /\ total o = 1
    /\ balanced o.
Proof.
  eexists. split; [by vm_compute|].
  do 4 (split; [by vm_compute|]).
  eapply (proj1 order_totals_balanced 0%Z orderOne userOne [productA; productB] "INR"
            (Some "flat100") catalogWorld orderOne).
  vm_compute. reflexivity.
Defined.

Local Close Scope Q_scope.

(** ** Idle-order reaper *)

Lemma status_timedOut now o : status (timedOut now o) = CANCELLED.
Proof. reflexivity. Qed.

(** C9 — One sweep of [autoCancelPendingOrders] that runs (the database is
    connected and no sweep is in progress) replaces exactly the orders that
    are PENDING, were created at or before [now - 2 min] and have no
    [paymentId] by their CANCELLED version with reason PAYMENT_TIMEOUT; every
    other order, and every user and promo code, is left as it was, and no
    order is added or removed. *)
Theorem reaper_sweep now w :
  readyState w = 1 -> isRunning w = false ->
  (autoCancelPendingOrders now w).1 = Normal tt
  /\ (forall id o, orders (committed w) !! id = Some o ->
        (status o = PENDING /\ createdAt o <= now - 2 * 60 * 1000
         /\ paymentId o = None ->
         orders (committed (autoCancelPendingOrders now w).2) !! id
         = Some (timedOut now o)
         /\ status (timedOut now o) = CANCELLED
         /\ cancelReason (timedOut now o) = Some "PAYMENT_TIMEOUT")
        /\ (is_Some (paymentId o) \/ now - 2 * 60 * 1000 < createdAt o
            \/ status o <> PENDING ->
            orders (committed (autoCancelPendingOrders now w).2) !! id = Some o))
  /\ (forall id, orders (committed w) !! id = None ->
        orders (committed (autoCancelPendingOrders now w).2) !! id = None)
  /\ users (committed (autoCancelPendingOrders now w).2) = users (committed w)
  /\ promocodes (committed (autoCancelPendingOrders now w).2)
     = promocodes (committed w).
Proof.
  intros Hready Hrun. unfold autoCancelPendingOrders.
  rewrite Hready, Hrun. cbn [negb Z.eqb Pos.eqb].
  unfold Order_updateMany. run_js. unfold withOrders. cbn.
  split; [done|]. split; [|split; [|done]].
  - intros id o Ho. rewrite lookup_fmap, Ho. cbn. split.
    + intros (Hs & Hc & Hp).
      rewrite (bool_decide_eq_true_2 _ Hs), (bool_decide_eq_true_2 _ Hp).
      rewrite (proj2 (Z.leb_le _ _) Hc). repeat split; reflexivity.
    + intros Hnot.
      destruct (bool_decide (status o = PENDING)) eqn:Hs; [|reflexivity].
      destruct (createdAt o <=? now - 2 * 60 * 1000) eqn:Hc; [|reflexivity].
      destruct (bool_decide (paymentId o = None)) eqn:Hp; [|reflexivity].
      apply bool_decide_eq_true in Hs, Hp. apply Z.leb_le in Hc.
      destruct Hnot as [[p Hsome]|[Hlt|Hne]]; [congruence|lia|done].
  - intros id Ho. by rewrite lookup_fmap, Ho.
Qed.

(** The scenario of the specification: of two PENDING orders created three
    minutes before the sweep, the one without a payment id is cancelled and
    the one that carries a payment id is left alone. *)
Lemma reaper_sweep_witness :
  let attached :=
    assign (SetPaymentId "pay_7") (sampleOrder userOne "order_R2" None) in
  let w := sampleWorld [(orderOne, sampleOrder userOne "order_R1" None);
                        (orderTwo, attached)]
             [(userOne, sampleUser false noMembership)] [] in
  let w' := (autoCancelPendingOrders 180000 w).2 in
  (status <$> orders (committed w') !! orderOne) = Some CANCELLED
  /\ (cancelReason <$> orders (committed w') !! orderOne) = Some (Some "PAYMENT_TIMEOUT")
  /\ orders (committed w') !! orderTwo = Some attached
  /\ users (committed w') = users (committed w).
Proof.
  intros attached w w'.
  split; [by vm_compute|]. split; [by vm_compute|]. split; [by vm_compute|].
  apply (reaper_sweep 180000 w); reflexivity.
Defined.

(** ** Client verification *)

(** C8 (the code departs from the claim) — User Two, who does not own order
    One, asks to verify it with the payment id the order was settled with:
    the PAID branch of [verifyOrder] answers before the ownership check, and
    the response is the success response, whatever the signature and the
    keyed hash are. *)
Theorem verify_paid_skips_owner_check (hmac : string -> string -> string) :
  (user <$> orders (committed paidWorld) !! orderOne) = Some userOne
  /\ userTwo <> userOne
  /\ (verifyOrder hmac 5000 (Some "key_secret") (Some userTwo) foreignVerify paidWorld).1
     = Normal (Sent (jsonSuccess "Order already verified via webhook")).
Proof. repeat split; by vm_compute. Qed.

(** ** Webhook: payment captured, settlement fails *)

(** C1 (the code departs from the claim) — A correctly signed
    payment.captured webhook arrives for the PENDING order of a banned user,
    so the settlement throws.  The order is forced to FAILED with reason
    SYSTEM_CANCELLED; then [initiateRefund] refuses the order (it carries no
    payment id, and its status is no longer PAID) before any call to the
    gateway, the handler's promise rejects with that error, and no 200
    response is sent. *)
Theorem webhook_capture_failure_no_refund :
  let run :=
    razorpayWebhookHandler sampleHmac (fun _ => Some capturedPayload) 9000
      (Normal "rfnd_1") (Some "whsec") (Some (sampleHmac "whsec" "body")) "body"
      bannedOwnerWorld in
  (markOrderPaidAndGrantAccess 9000 orderOne "pay_1" "razorpay-webhook"
     (webhookRaw payment_captured capturedPayment) bannedOwnerWorld).1
  = Throw "Invalid user state"
  /\ run.1 = Throw "Invalid order or missing paymentId"
  /\ (status <$> orders (committed run.2) !! orderOne) = Some FAILED
  /\ (cancelReason <$> orders (committed run.2) !! orderOne)
     = Some (Some "SYSTEM_CANCELLED")
  /\ refundCalls run.2 = [].
Proof. repeat split; by vm_compute. Qed.

(** ** Reasoning about runs *)

Lemma wp_ret {A} (a : A) Q w : Q (Normal a) w -> wp (ret a) Q w.
Proof. done. Qed.

Lemma wp_throw {A} e (Q : completion A -> World -> Prop) w :
  Q (Throw e) w -> wp (throw e) Q w.
Proof. done. Qed.

Lemma wp_gets {A} (f : World -> A) Q w : Q (Normal (f w)) w -> wp (gets f) Q w.
Proof. done. Qed.

Lemma wp_modify (f : World -> World) Q w : Q (Normal tt) (f w) -> wp (modify f) Q w.
Proof. done. Qed.

Lemma wp_bind {A B} (c : Js World A) (k : A -> Js World B) Q w :
  wp c (fun r w1 => match r with
                    | Normal a => wp (k a) Q w1
                    | Throw e => Q (Throw e) w1
                    end) w ->
  wp (bind c k) Q w.
Proof. unfold wp, bind. by destruct (c w) as [[a|e] w1]. Qed.

Lemma wp_try_catch {A} (c : Js World A) (h : string -> Js World A) Q w :
  wp c (fun r w1 => match r with
                    | Normal a => Q (Normal a) w1
                    | Throw e => wp (h e) Q w1
                    end) w ->
  wp (try_catch c h) Q w.
Proof. unfold wp, try_catch. by destruct (c w) as [[a|e] w1]. Qed.

Lemma wp_finally {A} (c : Js World A) (f : Js World unit) Q w :
  wp c (fun r w1 => wp f (fun r' w2 => match r' with
                                       | Normal _ => Q r w2
                                       | Throw e => Q (Throw e) w2
                                       end) w1) w ->
  wp (finally c f) Q w.
Proof.
  unfold wp, finally. destruct (c w) as [r w1]. cbn.
  by destruct (f w1) as [[[]|e] w2].
Qed.

Lemma wp_mono {A} (c : Js World A) (Q Q' : completion A -> World -> Prop) w :
  wp c Q w -> (forall r w', Q r w' -> Q' r w') -> wp c Q' w.
Proof. unfold wp. auto. Qed.

Lemma wp_orNext (c : Js World Reply) Q w :
  wp c (fun r w1 => match r with
                    | Normal a => Q (Normal a) w1
                    | Throw e => Q (Normal (Next e)) w1
                    end) w ->
  wp (orNext c) Q w.
Proof.
  intros H. unfold orNext. apply wp_try_catch.
  eapply wp_mono; [exact H|]. by intros [a|e].
Qed.

(** ** Traces *)






(** ** Refund webhook *)


Lemma wp_Order_save id l (Q : completion unit -> World -> Prop) w :
  (forallb assignValid l = false -> Q (Throw "Order validation failed") w) ->
  (orders (committed w) !! id = None -> Q (Throw "No document found for query") w) ->
  (forall stored, forallb assignValid l = true ->
     orders (committed w) !! id = Some stored ->
     Q (Normal tt) (withCommitted (storeOrder id (assignAll l stored) (committed w)) w)) ->
  wp (Order_save false id l) Q w.
Proof.
  intros H1 H2 H3. unfold wp, Order_save. cbn.
  destruct (forallb assignValid l); [|by apply H1].
  destruct (orders (committed w) !! id) as [stored|]; [by apply H3|by apply H2].
Qed.



Lemma status_onRaw f o : status (onRaw f o) = status o.
Proof. reflexivity. Qed.





Ltac wp_step :=
  lazymatch goal with
  | |- wp (ret _) _ _ => apply wp_ret
  | |- wp (throw _) _ _ => apply wp_throw
  | |- wp (gets _) _ _ => apply wp_gets
  | |- wp (modify _) _ _ => apply wp_modify
  | |- wp (bind _ _) _ _ => apply wp_bind
  | |- wp (try_catch _ _) _ _ => apply wp_try_catch
  | |- wp (orNext _) _ _ => apply wp_orNext
  | |- wp (finally _ _) _ _ => apply wp_finally
  | |- wp (if ?b then _ else _) _ _ => destruct b eqn:?
  | |- wp (match ?x with _ => _ end) _ _ => destruct x eqn:?
  | |- wp (let _ := _ in _) _ _ => cbv zeta
  end.


Ltac keeps_tac :=
  intros ?w; repeat (wp_step; cbn [committed withCache fst snd]); try done.






Lemma keepsDb_applyPromoCode now promo sub : keepsDb (applyPromoCode now promo sub).
Proof.
  unfold applyPromoCode, getCachedPromo, setCachedPromo. keeps_tac.
Qed.






(** ** Every operation writes statuses along the machine *)










Lemma User_updateOne_orders id update w :
  orders (committed (User_updateOne id update w).2) = orders (committed w)
  /\ statusTrace (committed (User_updateOne id update w).2) = statusTrace (committed w).
Proof.
  unfold User_updateOne, modify. cbn.
  by destruct (users (committed w) !! id).
Qed.

(** [revokeOrderAccess] writes users only. *)
Lemma revokeOrderAccess_orders now order w :
  wp (revokeOrderAccess now order)
     (fun _ w' => orders (committed w') = orders (committed w)
                  /\ statusTrace (committed w') = statusTrace (committed w)) w.
Proof.
  unfold revokeOrderAccess.
  destruct (String.eqb (user order) ""); [by wp_step|].
  destruct (truthy (membershipPlanKey order)).
  { unfold wp. apply User_updateOne_orders. }
  revert w. induction (items order) as [|item rest IH]; intros w; cbn;
    [by wp_step|].
  wp_step.
  destruct (String.eqb (product item) "").
  - wp_step. apply IH.
  - unfold wp at 1.
    destruct (User_updateOne_orders (user order)
                (fun u => withPurchasedProducts
                   (filter (fun p => pp_product p <> toLowerCase (product item))
                      (purchasedProducts u)) u) w) as [H1 H2].
    destruct (User_updateOne _ _ w) as [[[]|e] w1] eqn:Hrun; cbn in *.
    + eapply wp_mono; [apply IH|]. intros r w' [? ?]. split; congruence.
    + by split.
Qed.






(** ** The refund flow and the refund webhook *)






(** * Further properties of the code *)

(** ** Webhook controller *)

(** What a successful settlement of a PENDING order leaves under its id. *)
Lemma settle_normal_pending now id pid sig raw w r w' o :
  SettleOutcome now id pid sig raw w (Normal r) w' ->
  orders (committed w) !! id = Some o -> status o = PENDING ->
  r = paid now pid sig raw o
  /\ orders (committed w') !! id = Some (paid now pid sig raw o).
Proof.
  intros H Ho Hs. inversion H; subst.
  - congruence.
  - assert (o0 = o) as -> by congruence. split; [done|].
    cbn. rewrite orders_granted.
    match goal with Hp : promoCounted _ _ = Some _ |- _ =>
      apply orders_promoCounted in Hp as [-> _] end.
    apply storeOrder_lookup.
Qed.

(** X1 — A webhook request without the configured secret, without a
    signature, or with a signature that is not the keyed hash of the raw body
    is answered 400 or 500 and changes nothing: no order is read or written
    and no refund is requested. *)
Theorem webhook_rejects_unsigned hmac parse now gateway secret signature body w :
  truthy secret = false \/ signature <> Some (hmac (default "" secret) body) ->
  exists r,
    razorpayWebhookHandler hmac parse now gateway secret signature body w
    = (Normal r, w)
    /\ (statusCode r = 400 \/ statusCode r = 500).
Proof.
  intros H. unfold razorpayWebhookHandler, route.
  destruct (truthy secret) eqn:Hsec; cbn [negb].
  2:{ eexists. split; [reflexivity|]. by right. }
  destruct H as [H|H]; [done|].
  destruct (truthy signature) eqn:Hsig; cbn [negb].
  2:{ eexists. split; [reflexivity|]. by left. }
  destruct signature as [s|]; [|done].
  change (default "" (Some s)) with s.
  destruct (String.eqb (hmac (default "" secret) body) s) eqn:He; cbn [negb].
  - apply String.eqb_eq in He. congruence.
  - eexists. split; [reflexivity|]. by left.
Qed.

Lemma webhook_rejects_unsigned_witness :
  exists r,
    razorpayWebhookHandler sampleHmac (fun _ => Some capturedPayload) 9000
      (Normal "rfnd_1") (Some "whsec") (Some "forged") "body" bannedOwnerWorld
    = (Normal r, bannedOwnerWorld)
    /\ (statusCode r = 400 \/ statusCode r = 500).
Proof.
  apply (webhook_rejects_unsigned sampleHmac _ 9000 (Normal "rfnd_1") (Some "whsec") (Some "forged")).
  right. by vm_compute.
Defined.

(** X2 — A payment.failed webhook for a PENDING order never records the
    failure: the handler assigns the cancel reason PAYMENT_FAILED, which the
    schema does not admit, so the save is refused, the handler's promise
    rejects, and the world, the order still PENDING, is exactly as it was. *)
Theorem payment_failed_never_recorded now gateway payment w id o :
  orderOfPayment payment w = Some (id, o) -> status o = PENDING ->
  handlePaymentEvent now gateway payment_failed payment w
  = (Throw "Order validation failed", w).
Proof.
  intros Hfound Hs. unfold handlePaymentEvent, bind, Order_findOne, gets.
  cbn [fst snd]. fold (orderOfPayment payment w). rewrite Hfound, Hs.
  reflexivity.
Qed.

Lemma payment_failed_never_recorded_witness :
  handlePaymentEvent 9000 (Normal "rfnd_1") payment_failed capturedPayment pendingWorld
  = (Throw "Order validation failed", pendingWorld).
Proof.
  apply (payment_failed_never_recorded 9000 (Normal "rfnd_1") capturedPayment pendingWorld
           orderOne (sampleOrder userOne "order_R1" None)); by vm_compute.
Defined.

(** X3 — A payment webhook, captured or failed, for which no order is found
    or whose order is not PENDING is acknowledged with 200 and changes
    nothing: a repeated delivery after the order was settled, failed,
    cancelled or refunded has no effect. *)
Theorem payment_event_ignored_unless_pending now gateway e payment w :
  (forall id o, orderOfPayment payment w = Some (id, o) -> status o <> PENDING) ->
  exists r,
    handlePaymentEvent now gateway e payment w = (Normal r, w) /\ statusCode r = 200.
Proof.
  intros Hnp. unfold handlePaymentEvent, bind, Order_findOne, gets.
  cbn [fst snd]. fold (orderOfPayment payment w).
  destruct (orderOfPayment payment w) as [[id o]|] eqn:Hfound; [|by eexists].
  specialize (Hnp id o eq_refl).
  destruct (bool_decide (status o = PAID) && bool_decide (e = payment_captured));
    [by eexists|].
  destruct (bool_decide (status o = CANCELLED)); [by eexists|].
  rewrite (bool_decide_eq_false_2 _ Hnp).
  destruct e; by eexists.
Qed.

Lemma payment_event_ignored_unless_pending_witness :
  exists r,
    handlePaymentEvent 9000 (Normal "rfnd_1") payment_captured capturedPayment paidWorld
    = (Normal r, paidWorld) /\ statusCode r = 200.
Proof.
  apply payment_event_ignored_unless_pending.
  intros id o H. vm_compute in H. by injection H as <- <-.
Defined.

(** X4 — When the handler of a payment.captured webhook answers that the
    payment was captured and delivered, the order it found was PENDING and is
    now stored PAID with the payment id of the webhook, the signature marker
    razorpay-webhook and the completion time, its amounts and items
    untouched. *)
Theorem captured_delivered now gateway payment w r w' :
  handlePaymentEvent now gateway payment_captured payment w = (Normal r, w') ->
  message r = "Payment captured & delivered" ->
  exists id o o',
    orderOfPayment payment w = Some (id, o)
    /\ status o = PENDING
    /\ orders (committed w') !! id = Some o'
    /\ status o' = PAID
    /\ paymentId o' = Some (pe_id payment)
    /\ paymentSignature o' = Some "razorpay-webhook"
    /\ completedAt o' = Some now
    /\ total o' = total o /\ items o' = items o /\ user o' = user o.
Proof.
  unfold handlePaymentEvent, bind at 1, Order_findOne, gets.
  cbn [fst snd]. fold (orderOfPayment payment w).
  destruct (orderOfPayment payment w) as [[id o]|] eqn:Hfound; [|by intros [= <- _]].
  destruct (bool_decide (status o = PAID) && bool_decide (payment_captured = payment_captured));
    [by intros [= <- _]|].
  destruct (bool_decide (status o = CANCELLED)); [by intros [= <- _]|].
  destruct (bool_decide (status o = PENDING)) eqn:Hs; cbn [negb]; [|by intros [= <- _]].
  apply bool_decide_eq_true in Hs.
  assert (Ho : orders (committed w) !! id = Some o).
  { unfold orderOfPayment in Hfound. apply head_Some_elem_of in Hfound.
    apply list_elem_of_filter in Hfound as [_ Hin].
    by apply elem_of_map_to_list in Hin. }
  unfold try_catch, bind.
  destruct (markOrderPaidAndGrantAccess now id (pe_id payment) "razorpay-webhook"
              (webhookRaw payment_captured payment) w) as [[paidOrder|err] w1] eqn:Hrun.
  - intros [= <- <-] _. apply settle_inv in Hrun.
    destruct (settle_normal_pending _ _ _ _ _ _ _ _ _ Hrun Ho Hs) as [_ Hl].
    exists id, o. eexists. split; [done|]. split; [done|]. split; [exact Hl|].
    by repeat split.
  - cbn [fst snd]. intros H Hmsg. exfalso. revert H.
    repeat case_match; intros [= <- _]; try done.
Qed.

Lemma captured_delivered_witness :
  exists id o o',
    orderOfPayment capturedPayment pendingWorld = Some (id, o)
    /\ status o = PENDING
    /\ orders (committed
                 (handlePaymentEvent 9000 (Normal "rfnd_1") payment_captured
                    capturedPayment pendingWorld).2) !! id = Some o'
    /\ status o' = PAID
    /\ paymentId o' = Some (pe_id capturedPayment)
    /\ paymentSignature o' = Some "razorpay-webhook"
    /\ completedAt o' = Some 9000
    /\ total o' = total o /\ items o' = items o /\ user o' = user o.
Proof.
  eapply (captured_delivered 9000 (Normal "rfnd_1") capturedPayment pendingWorld);
    by vm_compute.
Defined.

(** ** Client verification and order creation *)





(** *** Orders created by the service *)

Lemma keepsDb_run {A} (c : Js World A) w r w' :
  keepsDb c -> c w = (r, w') -> committed w' = committed w.
Proof. intros Hk Hrun. specialize (Hk w). unfold wp in Hk. by rewrite Hrun in Hk. Qed.


Lemma validateProductIds_inv ids w r w' :
  validateProductIds ids w = (Normal r, w') ->
  r = dedupe ids /\ w' = w /\ (0 < length ids <= 50)%nat.
Proof.
  unfold validateProductIds.
  destruct (length ids =? 0)%nat eqn:H0; [done|].
  destruct (50 <? length ids)%nat eqn:H50; [done|].
  intros [= <- <-]. apply Nat.eqb_neq in H0. apply Nat.ltb_ge in H50.
  repeat split; lia.
Qed.

Lemma fetchUserSecurely_inv uid w u w' :
  fetchUserSecurely uid w = (Normal u, w') ->
  w' = w /\ users (committed w) !! uid = Some u
  /\ isDeleted u = false /\ isBanned u = false.
Proof.
  unfold fetchUserSecurely, bind, User_findById, gets. cbn.
  destruct (users (committed w) !! uid) as [u0|]; [|done].
  destruct (isDeleted u0) eqn:Hd; [done|]. destruct (isBanned u0) eqn:Hb; [done|].
  by intros [= <- <-].
Qed.

Lemma validateProducts_inv found ids w r w' :
  validateProducts found ids w = (Normal r, w') ->
  w' = w /\ length found = length ids
  /\ Forall (fun e => exists x, price e.2 = Some x /\ (0 <= x)%Q) found.
Proof.
  unfold validateProducts.
  destruct (length found =? length ids)%nat eqn:Hl; [|done]. cbn [negb].
  destruct (forallb _ found) eqn:Hp; [|done].
  intros [= _ <-]. apply Nat.eqb_eq in Hl. split; [done|]. split; [done|].
  apply list.Forall_forall. intros e He.
  rewrite forallb_forall in Hp. specialize (Hp e (proj1 (list_elem_of_In _ _) He)).
  destruct (price e.2) as [x|]; [|done]. exists x. split; [done|].
  by apply Qle_bool_iff.
Qed.

Lemma calculateOrderTotals_run found cur w t w' :
  calculateOrderTotals found cur w = (Normal t, w') ->
  w' = w
  /\ t_subtotal t = round2 (foldl (fun sum e => (sum + priceOf e.2)%Q) 0%Q found)
  /\ Forall (fun e => truthy (p_currency e.2) = true -> p_currency e.2 = Some cur) found.
Proof.
  unfold calculateOrderTotals.
  destruct (head (filter _ found)) as [m|] eqn:Hh; [done|].
  intros [= <- <-]. split; [done|]. split; [done|].
  apply head_None in Hh. apply list.Forall_forall. intros e He Ht.
  destruct (decide (p_currency e.2 = Some cur)) as [|Hne]; [done|].
  assert (Hin : e ∈ filter (fun e => truthy (p_currency e.2) = true
                                      ∧ p_currency e.2 ≠ Some cur) found).
  { by apply list_elem_of_filter. }
  rewrite Hh in Hin. by apply elem_of_nil in Hin.
Qed.

(** Everything a successful [createPendingOrderForUser] has checked and
    stored. *)
Lemma createPendingOrderForUser_inv now newId userId productIds cur promo w id o w' :
  createPendingOrderForUser now newId userId productIds cur promo w
  = (Normal (id, o), w') ->
  exists u found,
    id = newId
    /\ (0 < length productIds <= 50)%nat
    /\ users (committed w) !! userId = Some u
    /\ isDeleted u = false /\ isBanned u = false
    /\ checkDuplicatePurchases u (dedupe productIds) = []
    /\ fetchProductDetails (dedupe productIds) w = (Normal found, w)
    /\ length found = length (dedupe productIds)
    /\ Forall (fun e => exists x, price e.2 = Some x /\ (0 <= x)%Q) found
    /\ Forall (fun e => truthy (p_currency e.2) = true -> p_currency e.2 = Some cur) found
    /\ items o = prepareOrderItems found cur
    /\ user o = userId /\ status o = PENDING /\ createdAt o = now
    /\ membershipPlanKey o = None /\ paymentId o = None /\ paymentOrderId o = None
    /\ subtotal o = round2 (foldl (fun sum e => (sum + priceOf e.2)%Q) 0%Q found)
    /\ orders (committed w) !! newId = None
    /\ committed w' = storeOrder newId o (committed w).
Proof.
  intros H. unfold createPendingOrderForUser in H.
  apply bind_Normal_inv in H as (uniqueIds & w1 & Hv & H).
  apply validateProductIds_inv in Hv as (-> & -> & Hlen).
  apply bind_Normal_inv in H as (u & w2 & Hu & H).
  apply fetchUserSecurely_inv in Hu as (-> & Hu & Hd & Hb).
  cbn zeta in H.
  destruct (0 <? length (checkDuplicatePurchases u (dedupe productIds)))%nat eqn:Hdup;
    [done|].
  apply bind_Normal_inv in H as (found & w3 & Hf & H).
  assert (w3 = w) as ->.
  { revert Hf. unfold fetchProductDetails. case_match; [done|]. by intros [= _ <-]. }
  apply bind_Normal_inv in H as ([] & w4 & Hvp & H).
  apply validateProducts_inv in Hvp as (-> & Hl & Hprices).
  apply bind_Normal_inv in H as (totals & w5 & Ht & H).
  apply calculateOrderTotals_run in Ht as (-> & Hsub & Hcur).
  apply bind_Normal_inv in H as ([disc code] & w6 & Hp & H).
  apply (keepsDb_run _ _ _ _ (keepsDb_applyPromoCode _ _ _)) in Hp.
  cbn [fst snd] in H.
  destruct (Qltb _ _); [done|].
  apply Order_create_inv in H as (-> & -> & _ & Hnew & Hc).
  rewrite Hp in Hnew, Hc.
  exists u, found. cbn.
  repeat split; try done; try lia.
  apply Nat.ltb_ge in Hdup. by apply nil_length_inv, Nat.le_0_r.
Qed.

(** X7 — When [createOrder] answers 201, the order stored under the new id
    is PENDING, belongs to the caller, carries the id of the gateway order
    that was created for it and no payment id, and its total is at least the
    minimum payable amount of 1. *)
Theorem createOrder_created now newId gatewayOrder authUserId productIds cur promo w :
  (createOrder now newId gatewayOrder authUserId productIds cur promo w).1
  = Normal (Sent (json 201 "")) ->
  exists uid gid o,
    authUserId = Some uid /\ gatewayOrder = Normal gid
    /\ orders (committed w) !! newId = None
    /\ orders (committed
                 (createOrder now newId gatewayOrder authUserId productIds cur promo w).2)
         !! newId = Some o
    /\ status o = PENDING /\ user o = uid /\ (1 <= total o)%Q
    /\ paymentOrderId o = Some gid /\ paymentId o = None.
Proof.
  change (wp (createOrder now newId gatewayOrder authUserId productIds cur promo)
            (fun r w' =>
               r = Normal (Sent (json 201 "")) ->
               exists uid gid o,
                 authUserId = Some uid /\ gatewayOrder = Normal gid
                 /\ orders (committed w) !! newId = None
                 /\ orders (committed w') !! newId = Some o
                 /\ status o = PENDING /\ user o = uid /\ (1 <= total o)%Q
                 /\ paymentOrderId o = Some gid /\ paymentId o = None) w).
  unfold createOrder, User_findById.
  repeat wp_step; try done.
  unfold wp at 1.
  destruct (createPendingOrderForUser now newId s productIds _ _ w)
    as [[[id o]|e] w1] eqn:Hc; cbn [fst snd]; [|done].
  apply createPendingOrderForUser_inv in Hc
    as (u' & found & -> & _ & _ & _ & _ & _ & _ & _ & _ & _ & _ & Huser & Hst & _
          & _ & Hpid & _ & _ & Hnew & Hc).
  destruct (Qltb (total o) 1) eqn:Hlow.
  { wp_step. apply wp_Order_save; intros; repeat wp_step; done. }
  wp_step. unfold wp at 1. cbn [fst snd].
  destruct gatewayOrder as [gid|err]; [|done].
  wp_step. apply wp_Order_save.
  - done.
  - rewrite Hc. by rewrite storeOrder_lookup.
  - intros stored _ Hl. rewrite Hc, storeOrder_lookup in Hl. injection Hl as <-.
    wp_step. intros _. cbn [committed withCommitted].
    exists s, gid. eexists. split; [done|]. split; [done|]. split; [done|].
    split; [apply storeOrder_lookup|]. cbn.
    repeat split; try done.
    unfold Qltb in Hlow. apply negb_false_iff in Hlow. by apply Qle_bool_iff.
Qed.

Lemma createOrder_created_witness :
  let run :=
    createOrder 0 orderOne (Normal "order_R1") (Some userOne) [productA; productB] "INR"
      None catalogWorld in
  exists uid gid o,
    Some userOne = Some uid /\ Normal "order_R1" = Normal gid
    /\ orders (committed catalogWorld) !! orderOne = None
    /\ orders (committed run.2) !! orderOne = Some o
    /\ status o = PENDING /\ user o = uid /\ (1 <= total o)%Q
    /\ paymentOrderId o = Some gid /\ paymentId o = None.
Proof.
  intros run.
  apply (createOrder_created 0 orderOne (Normal "order_R1") (Some userOne)
           [productA; productB] "INR" None catalogWorld).
  by vm_compute.
Defined.

(** X8 — When [createOrder] answers that the amount is too low, the order
    the service had just created with a total below 1 is stored CANCELLED,
    without a gateway order id: no payable order below the minimum is left
    behind. *)
Theorem createOrder_cancels_low_total now newId gatewayOrder authUserId productIds cur
    promo w :
  (createOrder now newId gatewayOrder authUserId productIds cur promo w).1
  = Normal (Sent (json 400 "Order amount too low to process payment")) ->
  exists o,
    orders (committed w) !! newId = None
    /\ orders (committed
                 (createOrder now newId gatewayOrder authUserId productIds cur promo w).2)
         !! newId = Some o
    /\ status o = CANCELLED /\ (total o < 1)%Q /\ paymentOrderId o = None.
Proof.
  change (wp (createOrder now newId gatewayOrder authUserId productIds cur promo)
            (fun r w' =>
               r = Normal (Sent (json 400 "Order amount too low to process payment")) ->
               exists o,
                 orders (committed w) !! newId = None
                 /\ orders (committed w') !! newId = Some o
                 /\ status o = CANCELLED /\ (total o < 1)%Q
                 /\ paymentOrderId o = None) w).
  unfold createOrder, User_findById.
  repeat wp_step; try done.
  unfold wp at 1.
  destruct (createPendingOrderForUser now newId s productIds _ _ w)
    as [[[id o]|e] w1] eqn:Hc; cbn [fst snd]; [|done].
  apply createPendingOrderForUser_inv in Hc
    as (u' & found & -> & _ & _ & _ & _ & _ & _ & _ & _ & _ & _ & Huser & Hst & _
          & _ & Hpid & Hpoid & _ & Hnew & Hc).
  destruct (Qltb (total o) 1) eqn:Hlow.
  2:{ wp_step. unfold wp at 1. cbn [fst snd].
      destruct gatewayOrder as [gid|err]; [|done].
      wp_step. apply wp_Order_save; intros; repeat wp_step; done. }
  wp_step. apply wp_Order_save.
  - done.
  - rewrite Hc. by rewrite storeOrder_lookup.
  - intros stored _ Hl. rewrite Hc, storeOrder_lookup in Hl. injection Hl as <-.
    wp_step. intros _. cbn [committed withCommitted].
    eexists. split; [done|]. split; [apply storeOrder_lookup|]. cbn.
    repeat split; try done.
    unfold Qltb in Hlow. apply negb_true_iff in Hlow.
    apply Qnot_le_lt. intros Hle. apply Qle_bool_iff in Hle.
    change (Qle_bool 1 (total o) = true) in Hle. congruence.
Qed.

Lemma createOrder_cancels_low_total_witness :
  let run :=
    createOrder 0 orderOne (Normal "order_R1") (Some userOne) [productA] "INR" None
      cheapWorld in
  exists o,
    orders (committed cheapWorld) !! orderOne = None
    /\ orders (committed run.2) !! orderOne = Some o
    /\ status o = CANCELLED /\ (total o < 1)%Q /\ paymentOrderId o = None.
Proof.
  intros run.
  apply (createOrder_cancels_low_total 0 orderOne (Normal "order_R1") (Some userOne)
           [productA] "INR" None cheapWorld).
  by vm_compute.
Defined.

(** *** The distinct ids of a request *)

Lemma dedupe_from (l acc : list string) :
  let step := fun (seen : list string) x =>
                if bool_decide (x ∈ seen) then seen else seen ++ [x] in
  NoDup acc ->
  NoDup (foldl step acc l)
  /\ (forall x, x ∈ foldl step acc l <-> x ∈ acc \/ x ∈ l)
  /\ (length acc <= length (foldl step acc l) <= length acc + length l)%nat
  /\ (l <> [] -> foldl step acc l <> []).
Proof.
  intros step. revert acc. induction l as [|a l IH]; intros acc Hnd.
  - cbn. split; [done|]. split; [|split; [lia|done]].
    intros x. split; [by left|]. intros [?|H]; [done|]. by apply elem_of_nil in H.
  - cbn [foldl].
    change (step acc a) with (if bool_decide (a ∈ acc) then acc else acc ++ [a]).
    destruct (bool_decide (a ∈ acc)) eqn:Ha.
    + apply bool_decide_eq_true in Ha.
      destruct (IH acc Hnd) as (H1 & H2 & H3 & H4).
      split; [done|]. split; [|split].
      * intros x. rewrite H2, elem_of_cons. split; [tauto|].
        intros [?|[->|?]]; tauto.
      * cbn. lia.
      * intros _ Hnil. pose proof (proj2 (H2 a) (or_introl Ha)) as Hin.
        rewrite Hnil in Hin. by apply elem_of_nil in Hin.
    + apply bool_decide_eq_false in Ha.
      assert (Hnd' : NoDup (acc ++ [a])).
      { apply list.NoDup_app. split; [done|]. split; [|apply list.NoDup_singleton].
        intros x Hx Hxa. apply list_elem_of_singleton in Hxa. by subst. }
      destruct (IH (acc ++ [a]) Hnd') as (H1 & H2 & H3 & H4).
      split; [done|]. split; [|split].
      * intros x. rewrite H2, elem_of_app, list_elem_of_singleton, elem_of_cons. tauto.
      * rewrite length_app in H3. cbn in *. lia.
      * intros _ Hnil.
        assert (Hin : a ∈ foldl step (acc ++ [a]) l).
        { apply H2. left. apply elem_of_app. right. by apply list_elem_of_singleton. }
        rewrite Hnil in Hin. by apply elem_of_nil in Hin.
Qed.

(** X9 — [validateProductIds] refuses an empty request and a request of more
    than 50 ids, and otherwise returns the ids of the request without
    repetition: the same ids, each once. *)
Theorem validateProductIds_distinct productIds w :
  ((length productIds = 0)%nat ->
     validateProductIds productIds w = (Throw "Products array is required", w))
  /\ ((50 < length productIds)%nat ->
        validateProductIds productIds w = (Throw "Maximum 50 products per order", w))
  /\ ((0 < length productIds <= 50)%nat ->
        exists ids,
          validateProductIds productIds w = (Normal ids, w)
          /\ NoDup ids /\ (forall x, x ∈ ids <-> x ∈ productIds)
          /\ (0 < length ids <= length productIds)%nat).
Proof.
  unfold validateProductIds. split; [|split].
  - intros ->. reflexivity.
  - intros H. destruct (length productIds =? 0)%nat eqn:H0.
    { apply Nat.eqb_eq in H0. lia. }
    by rewrite (proj2 (Nat.ltb_lt _ _) H).
  - intros [H0 H50].
    rewrite (proj2 (Nat.eqb_neq _ _)) by lia.
    rewrite (proj2 (Nat.ltb_ge _ _)) by lia.
    exists (dedupe productIds). split; [done|].
    destruct (dedupe_from productIds [] base.NoDup_nil_2) as (H1 & H2 & H3 & H4).
    split; [exact H1|]. split.
    + intros x. unfold dedupe. rewrite H2. split; [|tauto].
      intros [H|?]; [by apply elem_of_nil in H|done].
    + unfold dedupe. cbn in H3. split; [|lia].
      assert (Hne : productIds <> []) by (intros ->; cbn in H0; lia).
      specialize (H4 Hne). destruct (foldl _ [] productIds); [done|cbn; lia].
Qed.

Lemma validateProductIds_distinct_witness :
  exists ids,
    validateProductIds [productA; productB; productA] pendingWorld
    = (Normal ids, pendingWorld)
    /\ NoDup ids /\ (forall x, x ∈ ids <-> x ∈ [productA; productB; productA])
    /\ (0 < length ids <= length [productA; productB; productA])%nat.
Proof.
  apply (proj2 (proj2 (validateProductIds_distinct [productA; productB; productA]
                         pendingWorld))).
  cbn. lia.
Defined.







(** ** Refunds *)

(** [initiateRefund] on a loaded PAID order whose stored document is still
    PAID: the lock is taken, the gateway is called once, and the completion
    is the gateway's answer. *)
Lemma initiateRefund_run now gateway id o stored w :
  truthy (paymentId o) = true -> status o = PAID ->
  orders (committed w) !! id = Some stored -> status stored = PAID ->
  exists w' o',
    initiateRefund now gateway (Some (id, o)) w = (gateway, w')
    /\ refundCalls w' = refundCalls w ++ [(paymentId stored, Math_round (total stored * 100))]
    /\ users (committed w') = users (committed w)
    /\ orders (committed w') = <[id := o']> (orders (committed w))
    /\ total o' = total stored /\ paymentId o' = paymentId stored
    /\ match gateway with
       | Normal rid =>
           status o' = REFUND_INITIATED
           /\ paymentRaw o'
              = Some (withRefundRequest rid
                        (withRefundInitiatedAt now (default emptyRaw (paymentRaw stored))))
       | Throw err =>
           status o' = PAID
           /\ paymentRaw o'
              = Some (pushRefundError (err, now)
                        (withRefundInitiatedAt now (default emptyRaw (paymentRaw stored))))
       end.
Proof.
  intros Hp Hs Hst Hss. unfold initiateRefund. rewrite Hp, Hs. cbn [negb].
  rewrite bool_decide_eq_true_2 by done. cbn [negb].
  unfold bind at 1, Order_findOneAndUpdate at 1. rewrite Hst.
  rewrite bool_decide_eq_true_2 by done.
  unfold try_catch, bind at 1, razorpay_payments_refund. cbn [fst snd].
  destruct gateway as [rid|err].
  - unfold bind, Order_save. cbn [forallb assignValid andb dbOf committed withRefundCalls
                                    withCommitted].
    rewrite storeOrder_lookup. cbn [putDb session withRefundCalls withCommitted ret].
    eexists _, _. split; [reflexivity|]. cbn.
    split; [reflexivity|]. split; [reflexivity|].
    split; [unfold storeOrder; cbn; by rewrite insert_insert_eq|].
    repeat split; reflexivity.
  - unfold bind, Order_findOneAndUpdate.
    cbn [committed withRefundCalls withCommitted]. rewrite storeOrder_lookup.
    eexists _, _. split; [reflexivity|]. cbn.
    split; [reflexivity|]. split; [reflexivity|].
    split; [unfold storeOrder; cbn; by rewrite insert_insert_eq|].
    repeat split; reflexivity.
Qed.

(** Without a stored PAID document under the id, [initiateRefund] throws
    before the gateway is called and leaves the world as it is. *)
Lemma initiateRefund_refused now gateway id o w :
  match orders (committed w) !! id with
  | Some stored => status stored <> PAID
  | None => True
  end ->
  exists e, initiateRefund now gateway (Some (id, o)) w = (Throw e, w).
Proof.
  intros Hst. unfold initiateRefund.
  destruct (negb (truthy (paymentId o))); [by eexists|].
  destruct (negb (bool_decide (status o = PAID))); [by eexists|].
  unfold bind, Order_findOneAndUpdate.
  destruct (orders (committed w) !! id) as [stored|]; [|by eexists].
  rewrite bool_decide_eq_false_2 by done. by eexists.
Qed.

(** X12 — [initiateRefund] on a PAID order with a payment id asks the gateway
    exactly once, for the stored payment id and the total in paise, and
    completes as the gateway answers.  After a refusal of the gateway the
    order is PAID again, its total untouched, with the error appended to its
    refund errors.  After a grant the order is REFUND_INITIATED and carries
    the refund; any further [initiateRefund] on that order, whatever copy of
    it is passed, throws without calling the gateway and changes nothing. *)
Theorem refund_asked_once now gateway id o stored w :
  truthy (paymentId o) = true -> status o = PAID ->
  orders (committed w) !! id = Some stored -> status stored = PAID ->
  let run := initiateRefund now gateway (Some (id, o)) w in
  run.1 = gateway
  /\ refundCalls run.2
     = refundCalls w ++ [(paymentId stored, Math_round (total stored * 100))]
  /\ (forall err, gateway = Throw err ->
        exists o',
          orders (committed run.2) !! id = Some o'
          /\ status o' = PAID /\ total o' = total stored
          /\ (refundErrors <$> paymentRaw o')
             = Some (refundErrors (default emptyRaw (paymentRaw stored)) ++ [(err, now)]))
  /\ (forall rid, gateway = Normal rid ->
        (exists o',
           orders (committed run.2) !! id = Some o'
           /\ status o' = REFUND_INITIATED /\ total o' = total stored
           /\ (paymentRaw o' ≫= refundRequest) = Some rid)
        /\ forall now' gateway' o2,
             exists e,
               initiateRefund now' gateway' (Some (id, o2)) run.2 = (Throw e, run.2)).
Proof.
  intros Hp Hs Hst Hss run.
  destruct (initiateRefund_run now gateway id o stored w Hp Hs Hst Hss)
    as (w' & o' & Hrun & Hcalls & _ & Ho & Ht & _ & Hg).
  subst run. rewrite Hrun. cbn [fst snd].
  assert (Hl : orders (committed w') !! id = Some o').
  { rewrite Ho. apply lookup_insert_eq. }
  split; [done|]. split; [done|]. split.
  - intros err ->. destruct Hg as [Hs' Hraw]. exists o'.
    split; [done|]. split; [done|]. split; [done|]. by rewrite Hraw.
  - intros rid ->. destruct Hg as [Hs' Hraw]. split.
    + exists o'. split; [done|]. split; [done|]. split; [done|]. by rewrite Hraw.
    + intros now' gateway' o2. apply initiateRefund_refused.
      rewrite Hl, Hs'. done.
Qed.

Lemma refund_asked_once_witness :
  let run := initiateRefund 5000 (Normal "rfnd_1")
               (Some (orderOne, paid 1000 "pay_1" "sig" emptyRaw
                                  (sampleOrder userOne "order_R1" None))) paidWorld in
  run.1 = Normal "rfnd_1"
  /\ refundCalls run.2 = [(Some "pay_1", 10000)]
  /\ forall now' gateway' o2,
       exists e, initiateRefund now' gateway' (Some (orderOne, o2)) run.2 = (Throw e, run.2).
Proof.
  intros run.
  destruct (refund_asked_once 5000 (Normal "rfnd_1") orderOne
              (paid 1000 "pay_1" "sig" emptyRaw (sampleOrder userOne "order_R1" None))
              (paid 1000 "pay_1" "sig" emptyRaw (sampleOrder userOne "order_R1" None))
              paidWorld eq_refl eq_refl eq_refl eq_refl) as (H1 & H2 & _ & H4).
  split; [exact H1|]. split; [by vm_compute|].
  exact (proj2 (H4 "rfnd_1" eq_refl)).
Defined.

(** The loop of [revokeOrderAccess] over the items of a product order. *)
Lemma revoke_items uid (l : list OrderItem) w u :
  users (committed w) !! uid = Some u ->
  let run :=
    foldr (fun item rest =>
             (if String.eqb (product item) "" then ret tt
              else User_updateOne uid (fun u =>
                     withPurchasedProducts
                       (filter (fun p => pp_product p ≠ toLowerCase (product item))
                          (purchasedProducts u)) u)) ;;
             rest)
          (ret tt) l w in
  run.1 = Normal tt
  /\ orders (committed run.2) = orders (committed w)
  /\ refundCalls run.2 = refundCalls w
  /\ exists u',
       users (committed run.2) !! uid = Some u'
       /\ isDeleted u' = isDeleted u /\ isBanned u' = isBanned u
       /\ membershipUsage u' = membershipUsage u /\ membership u' = membership u
       /\ forall p, p ∈ purchasedProducts u' <-> keptAfterRevoke l (purchasedProducts u) p.
Proof.
  revert w u. induction l as [|item l IH]; intros w u Hu.
  - cbn. split; [done|]. split; [done|]. split; [done|]. exists u.
    do 5 (split; [done|]). intros p. unfold keptAfterRevoke. split.
    + intros Hin. split; [done|]. intros i Hi. by apply elem_of_nil in Hi.
    + by intros [? _].
  - cbn [foldr]. cbv zeta.
    destruct (String.eqb (product item) "") eqn:He; cbv iota.
    + apply String.eqb_eq in He.
      assert (Hstep : forall rest : Js World unit, (ret tt ;; rest) w = rest w) by done.
      rewrite !Hstep.
      destruct (IH w u Hu) as (H1 & H2 & H3 & u' & Hu' & Hd & Hb & Hmu & Hm & Hp).
      split; [done|]. split; [done|]. split; [done|]. exists u'.
      do 5 (split; [done|]). intros p. rewrite Hp. unfold keptAfterRevoke. split.
      * intros [Hin Hk]. split; [done|]. intros i Hi Hne.
        apply elem_of_cons in Hi as [->|Hi]; [done|]. by apply Hk.
      * intros [Hin Hk]. split; [done|]. intros i Hi. apply Hk. by right.
    + apply String.eqb_neq in He.
      set (f := fun u : User =>
                  withPurchasedProducts
                    (filter (fun p => pp_product p ≠ toLowerCase (product item))
                       (purchasedProducts u)) u).
      set (w1 := withCommitted
                   (withUsers (<[uid := f u]> (users (committed w))) (committed w)) w).
      assert (Hstep : forall rest : Js World unit,
                (User_updateOne uid f ;; rest) w = rest w1).
      { intros rest. unfold bind, User_updateOne, modify. by rewrite Hu. }
      rewrite !Hstep.
      assert (Hu1 : users (committed w1) !! uid = Some (f u)).
      { subst w1. cbn. unfold withUsers. cbn. apply lookup_insert_eq. }
      destruct (IH w1 (f u) Hu1) as (H1 & H2 & H3 & u' & Hu' & Hd & Hb & Hmu & Hm & Hp).
      split; [exact H1|]. split; [exact H2|]. split; [exact H3|]. exists u'.
      split; [exact Hu'|]. do 4 (split; [done|]).
      intros p. rewrite Hp. unfold keptAfterRevoke.
      subst f. cbn [purchasedProducts withPurchasedProducts].
      rewrite list_elem_of_filter. split.
      * intros [[Hne Hin] Hk]. split; [done|]. intros i Hi Hi0.
        apply elem_of_cons in Hi as [->|Hi]; [done|]. by apply Hk.
      * intros [Hin Hk]. split; [split; [|done]|].
        -- apply Hk; [by left|done].
        -- intros i Hi. apply Hk. by right.
Qed.

Lemma revokeOrderAccess_run now order w u :
  user order <> "" -> users (committed w) !! user order = Some u ->
  exists w1 u',
    revokeOrderAccess now order w = (Normal tt, w1)
    /\ orders (committed w1) = orders (committed w)
    /\ refundCalls w1 = refundCalls w
    /\ users (committed w1) !! user order = Some u'
    /\ revokedFrom now order u u'.
Proof.
  intros Hne Hu. unfold revokeOrderAccess, revokedFrom.
  rewrite (proj2 (String.eqb_neq _ _) Hne).
  destruct (truthy (membershipPlanKey order)).
  - unfold User_updateOne, modify. rewrite Hu. eexists _, _.
    split; [reflexivity|]. cbn. split; [done|]. split; [done|].
    split; [unfold withUsers; cbn; apply lookup_insert_eq|]. by repeat split.
  - destruct (revoke_items (user order) (items order) w u Hu)
      as (H1 & H2 & H3 & u' & Hu' & Hd & Hb & Hmu & Hm & Hp).
    match goal with
    | |- exists w1 u0, ?run = _ /\ _ =>
        destruct run as [r w1]; cbn [fst snd] in *; subst r
    end.
    exists w1, u'. do 7 (split; [done|]). by split.
Qed.



(** ** Idle-order reaper, again *)

Lemma filter_nil_Forall {A} (P : A -> Prop) `{!forall x, Decision (P x)} (l : list A) :
  Forall (fun x => ~ P x) l -> filter P l = [].
Proof.
  induction 1 as [|x l Hx _ IH]; [done|].
  rewrite filter_cons. by destruct (decide (P x)).
Qed.

(** A sweep that matches no order leaves the database as it is. *)
Lemma Order_updateMany_none filter l w :
  (forall id o, orders (committed w) !! id = Some o -> filter o = false) ->
  committed (Order_updateMany filter l w).2 = committed w.
Proof.
  intros Hnone. unfold Order_updateMany. cbn.
  rewrite filter_nil_Forall.
  2:{ apply list.Forall_forall. intros [id o] Hin. apply elem_of_map_to_list in Hin.
      cbn. rewrite (Hnone id o Hin). done. }
  cbn. rewrite app_nil_r.
  assert (Hm : (fun o => if filter o then assignAll l o else o) <$> orders (committed w)
               = orders (committed w)).
  { apply map_eq. intros id. rewrite lookup_fmap.
    destruct (orders (committed w) !! id) as [o|] eqn:Ho; [|done].
    cbn. by rewrite (Hnone id o Ho). }
  rewrite Hm. by destruct (committed w).
Qed.

(** X14 — A sweep of the reaper releases its lock, and it is idempotent: a
    second sweep with the same clock reading, or an earlier one, changes
    nothing in the database. *)
Theorem reaper_idempotent now now' w :
  readyState w = 1 -> isRunning w = false -> now' <= now ->
  let w1 := (autoCancelPendingOrders now w).2 in
  isRunning w1 = false /\ readyState w1 = 1
  /\ committed (autoCancelPendingOrders now' w1).2 = committed w1.
Proof.
  intros Hready Hrun Hle w1.
  assert (Hw1 : w1 = withIsRunning false
                       (Order_updateMany
                          (fun o => bool_decide (status o = PENDING)
                                    && (createdAt o <=? now - 2 * 60 * 1000)
                                    && bool_decide (paymentId o = None))
                          [SetStatus CANCELLED; SetCancelReason "PAYMENT_TIMEOUT";
                           SetCompletedAt now] (withIsRunning true w)).2).
  { subst w1. unfold autoCancelPendingOrders. rewrite Hready, Hrun. reflexivity. }
  assert (Hr1 : isRunning w1 = false) by (by rewrite Hw1).
  assert (Hs1 : readyState w1 = 1) by (by rewrite Hw1).
  split; [done|]. split; [done|].
  unfold autoCancelPendingOrders at 1. rewrite Hs1, Hr1. cbn [negb Z.eqb Pos.eqb].
  unfold finally, try_catch, bind, modify, ret. cbn [fst snd].
  match goal with
  | |- context [Order_updateMany ?f ?l ?w0] =>
      pose proof (Order_updateMany_none f l w0) as Hnone;
      destruct (Order_updateMany f l w0) as [[n|e] w2] eqn:Hum
  end.
  2:{ unfold Order_updateMany in Hum. discriminate Hum. }
  cbn [fst snd committed withIsRunning] in *. rewrite Hnone; [done|].
  intros id o Ho. rewrite Hw1 in Ho. cbn in Ho.
  rewrite lookup_fmap in Ho.
  destruct (orders (committed w) !! id) as [o0|]; [|done]. cbn in Ho.
  injection Ho as <-.
  destruct (bool_decide (status o0 = PENDING)
            && (createdAt o0 <=? now - 2 * 60 * 1000)
            && bool_decide (paymentId o0 = None)) eqn:Hf.
  - reflexivity.
  - apply andb_false_iff in Hf as [Hf|Hf];
      [apply andb_false_iff in Hf as [Hf|Hf]|].
    + by rewrite Hf.
    + apply Z.leb_gt in Hf.
      destruct (bool_decide (status o0 = PENDING)); [|done]. cbn.
      rewrite (proj2 (Z.leb_gt _ _)) by lia. done.
    + rewrite Hf. apply andb_false_r.
Qed.

Lemma reaper_idempotent_witness :
  let w := sampleWorld [(orderOne, sampleOrder userOne "order_R1" None)]
             [(userOne, sampleUser false noMembership)] [] in
  let w1 := (autoCancelPendingOrders 180000 w).2 in
  (status <$> orders (committed w1) !! orderOne) = Some CANCELLED
  /\ isRunning w1 = false /\ readyState w1 = 1
  /\ committed (autoCancelPendingOrders 180000 w1).2 = committed w1.
Proof.
  intros w w1. split; [by vm_compute|].
  apply (reaper_idempotent 180000 180000 w); [reflexivity|reflexivity|lia].
Defined.

(** ** Promo codes at order creation *)

Lemma Math_min_le_l x y : (Math_min x y <= x)%Q.
Proof.
  unfold Math_min. destruct (Qle_bool x y) eqn:E; [apply Qle_refl|].
  apply Qlt_le_weak, Qnot_le_lt. intros H. apply Qle_bool_iff in H. congruence.
Qed.

Lemma Math_min_le_r x y : (Math_min x y <= y)%Q.
Proof.
  unfold Math_min. destruct (Qle_bool x y) eqn:E; [by apply Qle_bool_iff|apply Qle_refl].
Qed.

(** The promo document [applyPromoCode] works with: the cached copy while it
    is fresh, else the active document stored under the code. *)
Lemma promo_source now code w cached w1 p w2 :
  getCachedPromo now code w = (Normal cached, w1) ->
  match cached with
  | Some p => ret (Some p)
  | None =>
      let! found := gets (fun w : World =>
        match promocodes (committed w) !! code with
        | Some p => if isActive p then Some p else None
        | None => None
        end) in
      match found with
      | Some p => setCachedPromo now code p ;; ret (Some p)
      | None => ret None
      end
  end w1 = (Normal (Some p), w2) ->
  (exists entry, cacheGet code (PROMO_CACHE w) = Some entry
                 /\ now - timestamp entry < CACHE_TTL /\ data entry = p /\ w2 = w)
  \/ (promocodes (committed w) !! code = Some p /\ isActive p = true).
Proof.
  unfold getCachedPromo, gets. intros [= <- <-].
  destruct (cacheGet code (PROMO_CACHE w)) as [entry|] eqn:Hc.
  - destruct (now - timestamp entry <? CACHE_TTL) eqn:Hfresh.
    + intros [= <- <-]. left. exists entry. apply Z.ltb_lt in Hfresh. by repeat split.
    + unfold bind, gets. cbn.
      destruct (promocodes (committed w) !! code) as [p0|]; [|done].
      destruct (isActive p0) eqn:Ha; [|done]. cbn. intros [= <- _]. by right.
  - unfold bind, gets. cbn.
    destruct (promocodes (committed w) !! code) as [p0|]; [|done].
    destruct (isActive p0) eqn:Ha; [|done]. cbn. intros [= <- _]. by right.
Qed.

(** X15 — When [applyPromoCode] grants a discount for a code, the code is
    returned trimmed and in upper case; the promo document it used (the fresh
    cached copy, else the active stored one) has not reached its expiry, has
    its minimum order amount met, and has the discount type PERCENTAGE or
    FIXED; the discount is positive, at most the rounded subtotal, and, for a
    PERCENTAGE promo with a cap, at most the rounded cap.  A promo document
    without one of the two discount types never yields a discount. *)
Theorem applyPromoCode_granted now raw sub w disc code w' :
  truthy (Some raw) = true ->
  applyPromoCode now (Some raw) sub w = (Normal (disc, code), w') ->
  code = Some (toUpperCase (trim raw))
  /\ (0 < disc)%Q /\ (disc <= round2 sub)%Q
  /\ exists p,
       ((exists entry, cacheGet (toUpperCase (trim raw)) (PROMO_CACHE w) = Some entry
                       /\ now - timestamp entry < CACHE_TTL /\ data entry = p)
        \/ (promocodes (committed w) !! toUpperCase (trim raw) = Some p
            /\ isActive p = true))
       /\ (forall expiry, promo_expiresAt p = Some expiry -> now < expiry)
       /\ (Qeq_bool (minOrderAmount p) 0 = true \/ (minOrderAmount p <= sub)%Q)
       /\ (discountType p = Some "PERCENTAGE" \/ discountType p = Some "FIXED")
       /\ (discountType p = Some "PERCENTAGE" -> Qeq_bool (maxDiscount p) 0 = false ->
           (disc <= round2 (maxDiscount p))%Q).
Proof.
  intros Ht H. unfold applyPromoCode in H. rewrite Ht in H. cbn [negb] in H.
  apply bind_Normal_inv in H as (cached & w1 & Hc & H).
  apply bind_Normal_inv in H as (found & w2 & Hf & H).
  destruct found as [p|]; [|done].
  pose proof (promo_source _ _ _ _ _ _ _ Hc Hf) as Hsrc.
  destruct (match promo_expiresAt p with
            | Some expiry => expiry <=? now
            | None => false
            end) eqn:Hexp; [done|].
  destruct (negb (Qeq_bool (minOrderAmount p) 0) && Qltb sub (minOrderAmount p))
    eqn:Hmin; [done|].
  match type of H with
  | (if Qle_bool (round2 (Math_min ?d0 sub)) 0 then _ else _) _ = _ =>
      set (discount0 := d0) in *
  end.
  destruct (Qle_bool (round2 (Math_min discount0 sub)) 0) eqn:Hpos; [done|].
  injection H as <- <- _.
  split; [done|]. split; [|split].
  - apply Qnot_le_lt. intros Hle. apply Qle_bool_iff in Hle. congruence.
  - apply round2_mono, Math_min_le_r.
  - exists p. split; [|split; [|split; [|split]]].
    + destruct Hsrc as [(entry & ? & ? & ? & _)|?]; [left; by exists entry|by right].
    + intros expiry He. rewrite He in Hexp. by apply Z.leb_gt in Hexp.
    + apply andb_false_iff in Hmin as [Hmin|Hmin].
      * left. by apply negb_false_iff in Hmin.
      * right. unfold Qltb in Hmin. apply negb_false_iff in Hmin.
        by apply Qle_bool_iff.
    + destruct (decide (discountType p = Some "PERCENTAGE")) as [|Hn1]; [by left|].
      destruct (decide (discountType p = Some "FIXED")) as [|Hn2]; [by right|].
      exfalso. subst discount0.
      rewrite (bool_decide_eq_false_2 _ Hn1), (bool_decide_eq_false_2 _ Hn2) in Hpos.
      assert (Hle : (round2 (Math_min 0 sub) <= 0)%Q).
      { apply (Qle_trans _ (round2 0)); [apply round2_mono, Math_min_le_l|].
        by vm_compute. }
      apply Qle_bool_iff in Hle. congruence.
    + intros Hty Hcap. subst discount0.
      rewrite (bool_decide_eq_true_2 _ Hty), Hcap. cbn [negb].
      apply round2_mono. eapply Qle_trans; [apply Math_min_le_l|apply Math_min_le_r].
Qed.

Lemma applyPromoCode_granted_witness :
  exists disc code w',
    applyPromoCode 0 (Some " flat100 ") (10000 # 100) catalogWorld
    = (Normal (disc, code), w')
    /\ code = Some "FLAT100" /\ (0 < disc)%Q /\ (disc <= round2 (10000 # 100))%Q.
Proof.
  eexists _, _, _. split; [vm_compute; reflexivity|].
  destruct (applyPromoCode_granted 0 " flat100 " (10000 # 100) catalogWorld
              (10000 # 100) (Some "FLAT100")
              (applyPromoCode 0 (Some " flat100 ") (10000 # 100) catalogWorld).2)
    as (H1 & H2 & H3 & _); [reflexivity|vm_compute; reflexivity|].
  by split; [|split].
Defined.

(** X16 — While the promo cache holds a copy of a code that is younger than
    five minutes, [applyPromoCode] decides on that copy alone: it does not
    touch the world, and its completion is the same whatever the database
    holds, also when the code has since been deactivated, changed or
    deleted. *)
Theorem promo_cache_decides now raw sub w entry d :
  truthy (Some raw) = true ->
  cacheGet (toUpperCase (trim raw)) (PROMO_CACHE w) = Some entry ->
  now - timestamp entry < CACHE_TTL ->
  (applyPromoCode now (Some raw) sub w).2 = w
  /\ (applyPromoCode now (Some raw) sub (withCommitted d w)).1
     = (applyPromoCode now (Some raw) sub w).1.
Proof.
  intros Ht Hc Hfresh.
  assert (Hrun : forall w0, PROMO_CACHE w0 = PROMO_CACHE w ->
            applyPromoCode now (Some raw) sub w0
            = ((applyPromoCode now (Some raw) sub w).1, w0)).
  { intros w0 Hw0. unfold applyPromoCode. rewrite Ht. cbn [negb].
    unfold bind, getCachedPromo, gets. rewrite Hw0, Hc.
    rewrite (proj2 (Z.ltb_lt _ _) Hfresh). unfold ret, throw.
    repeat case_match; reflexivity. }
  rewrite (Hrun (withCommitted d w) eq_refl). by rewrite (Hrun w eq_refl) at 1.
Qed.

Lemma promo_cache_decides_witness :
  let w := (applyPromoCode 0 (Some "flat100") (10000 # 100) catalogWorld).2 in
  let emptied := withPromocodes ∅ (committed w) in
  (applyPromoCode 1000 (Some "flat100") (10000 # 100) (withCommitted emptied w)).1
  = Normal ((10000 # 100)%Q, Some "FLAT100")
  /\ (applyPromoCode 1000 (Some "flat100") (10000 # 100) w).2 = w
  /\ (applyPromoCode 1000 (Some "flat100") (10000 # 100) (withCommitted emptied w)).1
     = (applyPromoCode 1000 (Some "flat100") (10000 # 100) w).1.
Proof.
  intros w emptied. split; [by vm_compute|].
  eapply (promo_cache_decides 1000 "flat100" (10000 # 100) w _ emptied).
  - reflexivity.
  - vm_compute. reflexivity.
  - by vm_compute.
Defined.

(** *** The promo cache *)

Lemma cacheGet_None k c :
  cacheGet k c = None -> filter (fun e : string * CacheEntry => e.1 = k) c = [].
Proof.
  unfold cacheGet. destruct (filter _ c) as [|e l]; [done|]. by cbn.
Qed.

Lemma cacheGet_replaced k v c :
  is_Some (cacheGet k c) ->
  cacheGet k (map (fun e : string * CacheEntry => if bool_decide (e.1 = k) then (k, v) else e) c)
  = Some v.
Proof.
  unfold cacheGet. induction c as [|[k0 v0] c IH]; cbn [map].
  - intros [x Hx]. by cbn in Hx.
  - rewrite !filter_cons. cbn [fst]. destruct (decide (k0 = k)) as [->|Hne].
    + intros _. rewrite bool_decide_eq_true_2 by done. cbn [fst].
      by rewrite decide_True.
    + rewrite bool_decide_eq_false_2 by done. cbn [fst].
      rewrite decide_False by done. exact IH.
Qed.

(** X17 — The promo cache never grows beyond 100 entries, and an entry just
    stored is found again: for five minutes after [setCachedPromo] the cached
    copy is returned for its code, and from then on nothing is. *)
Theorem promo_cache_roundtrip now now' code p w :
  (length (PROMO_CACHE w) <= 100)%nat ->
  let w1 := (setCachedPromo now code p w).2 in
  (length (PROMO_CACHE w1) <= 100)%nat
  /\ getCachedPromo now' code w1
     = (Normal (if now' - now <? CACHE_TTL then Some p else None), w1).
Proof.
  intros Hlen w1.
  assert (Hget : (length (PROMO_CACHE w1) <= 100)%nat
                 /\ cacheGet code (PROMO_CACHE w1) = Some {| data := p; timestamp := now |}).
  { subst w1. unfold setCachedPromo, modify. cbn [snd PROMO_CACHE withCache].
    unfold cacheSet. destruct (cacheGet code (PROMO_CACHE w)) as [old|] eqn:Hc.
    - rewrite length_map. rewrite (proj2 (Nat.ltb_ge _ _)) by lia.
      rewrite length_map. split; [done|]. apply cacheGet_replaced. by rewrite Hc.
    - apply cacheGet_None in Hc. rewrite length_app. cbn [length].
      destruct (100 <? length (PROMO_CACHE w) + 1)%nat eqn:Hfull.
      + apply Nat.ltb_lt in Hfull.
        destruct (PROMO_CACHE w) as [|e c] eqn:Hcache; [cbn in Hfull; lia|].
        cbn [app tail]. rewrite length_app. cbn [length] in *. split; [lia|].
        rewrite filter_cons in Hc. destruct (decide (e.1 = code)); [done|].
        unfold cacheGet. rewrite list.filter_app, Hc. cbn [app]. rewrite filter_cons.
        cbn [fst]. by rewrite decide_True.
      + apply Nat.ltb_ge in Hfull. rewrite length_app. cbn [length]. split; [lia|].
        unfold cacheGet. rewrite list.filter_app, Hc. cbn [app]. rewrite filter_cons.
        cbn [fst]. by rewrite decide_True. }
  destruct Hget as [Hl Hg]. split; [done|].
  unfold getCachedPromo, gets. by rewrite Hg.
Qed.

Lemma promo_cache_roundtrip_witness :
  let w1 := (setCachedPromo 0 "SAVE10" (samplePromo true None 0) catalogWorld).2 in
  (length (PROMO_CACHE w1) <= 100)%nat
  /\ getCachedPromo 299999 "SAVE10" w1 = (Normal (Some (samplePromo true None 0)), w1)
  /\ getCachedPromo 300000 "SAVE10" w1 = (Normal None, w1).
Proof.
  intros w1.
  destruct (promo_cache_roundtrip 0 299999 "SAVE10" (samplePromo true None 0)
              catalogWorld) as [H1 H2]; [cbn; lia|].
  destruct (promo_cache_roundtrip 0 300000 "SAVE10" (samplePromo true None 0)
              catalogWorld) as [_ H3]; [cbn; lia|].
  split; [exact H1|]. split; [exact H2|exact H3].
Defined.

(** ** Membership actions *)

Lemma withMembershipStatus_restore u :
  withMembershipStatus (m_status (membership u))
    (withMembershipStatus "CANCELLED" u) = u.
Proof. by destruct u as [? ? ? [] ?]. Qed.

Lemma User_save_same uid u f g w :
  users (committed w) !! uid = Some u -> g (f u) = u ->
  committed (User_save false uid g (User_save false uid f w).2).2 = committed w.
Proof.
  intros Hu Hgf. unfold User_save, putDb, dbOf, withUsers. rewrite Hu. cbn.
  rewrite lookup_insert_eq. cbn.
  rewrite insert_insert_eq, Hgf, insert_id by done.
  by destruct (committed w).
Qed.

(** X18 — Cancelling an ACTIVE membership only marks it CANCELLED: the plan,
    the start and the expiry stay as they are, and nothing else of the user
    changes.  Resuming it afterwards restores the database exactly. *)
Theorem cancel_resume_roundtrip uid u w :
  users (committed w) !! uid = Some u -> isDeleted u = false ->
  truthy (planKey (membership u)) = true -> m_status (membership u) = "ACTIVE" ->
  let c := cancelMembership (Some uid) w in
  let r := resumeMembership (Some uid) c.2 in
  c.1 = Normal (Sent (json 200 "Membership cancelled. It will remain valid until expiry."))
  /\ users (committed c.2) !! uid
     = Some (withMembership
               {| planKey := planKey (membership u); startedAt := startedAt (membership u);
                  expiresAt := expiresAt (membership u); m_status := "CANCELLED" |} u)
  /\ r.1 = Normal (Sent (json 200 "Membership resumed successfully."))
  /\ committed r.2 = committed w.
Proof.
  intros Hu Hd Hplan Hst c r.
  assert (Hc : c = (Normal (Sent (json 200 "Membership cancelled. It will remain valid until expiry.")),
                    (User_save false uid (withMembershipStatus "CANCELLED") w).2)).
  { subst c. unfold cancelMembership, orNext, try_catch, bind, User_findById, gets.
    cbn [fst snd dbOf]. rewrite Hu, Hd, Hplan, Hst. cbn [negb String.eqb Ascii.eqb Bool.eqb].
    unfold User_save. cbn [dbOf]. by rewrite Hu. }
  assert (Hu1 : users (committed c.2) !! uid = Some (withMembershipStatus "CANCELLED" u)).
  { rewrite Hc. unfold User_save. cbn [dbOf]. rewrite Hu. cbn.
    unfold withUsers. cbn. apply lookup_insert_eq. }
  assert (Hr : r = (Normal (Sent (json 200 "Membership resumed successfully.")),
                    (User_save false uid (withMembershipStatus "ACTIVE") c.2).2)).
  { subst r. unfold resumeMembership, orNext, try_catch, bind, User_findById, gets.
    cbn [fst snd dbOf]. rewrite Hu1. cbn [isDeleted withMembershipStatus withMembership
                                            membership planKey m_status].
    rewrite Hd, Hplan. cbn [negb String.eqb Ascii.eqb Bool.eqb andb].
    unfold User_save. cbn [dbOf]. by rewrite Hu1. }
  split; [by rewrite Hc|]. split; [exact Hu1|]. split; [by rewrite Hr|].
  rewrite Hr, Hc. cbn [snd]. apply (User_save_same uid u); [done|].
  rewrite <- Hst. apply withMembershipStatus_restore.
Qed.

Lemma cancel_resume_roundtrip_witness :
  let member :=
    sampleUser false {| planKey := Some "PREMIUM"; startedAt := Some 1000;
                        expiresAt := Some 9000; m_status := "ACTIVE" |} in
  let w := sampleWorld [] [(userOne, member)] [] in
  let c := cancelMembership (Some userOne) w in
  let r := resumeMembership (Some userOne) c.2 in
  (membership <$> users (committed c.2) !! userOne)
  = Some {| planKey := Some "PREMIUM"; startedAt := Some 1000;
            expiresAt := Some 9000; m_status := "CANCELLED" |}
  /\ committed r.2 = committed w.
Proof.
  intros member w c r. split; [by vm_compute|].
  apply (cancel_resume_roundtrip userOne member w); reflexivity.
Defined.




(** X20 — After the access of a membership order was revoked, the owner's
    membership is REFUNDED and has ended at the time of the revocation, and
    the owner can neither cancel nor resume it: both handlers answer 400 and
    change nothing. *)
Theorem refunded_membership_locked now order w u :
  truthy (membershipPlanKey order) = true -> user order <> "" ->
  users (committed w) !! user order = Some u -> isDeleted u = false ->
  let w1 := (revokeOrderAccess now order w).2 in
  (membership <$> users (committed w1) !! user order)
  = Some {| planKey := planKey (membership u); startedAt := startedAt (membership u);
            expiresAt := Some now; m_status := "REFUNDED" |}
  /\ (exists r, cancelMembership (Some (user order)) w1 = (Normal (Sent r), w1)
                /\ statusCode r = 400)
  /\ (exists r, resumeMembership (Some (user order)) w1 = (Normal (Sent r), w1)
                /\ statusCode r = 400).
Proof.
  intros Hplan Hne Hu Hd w1.
  destruct (revokeOrderAccess_run now order w u Hne Hu)
    as (w1' & u' & Hrev & _ & _ & Hu1 & Hrel).
  assert (w1 = w1') as -> by (subst w1; by rewrite Hrev).
  unfold revokedFrom in Hrel. rewrite Hplan in Hrel.
  destruct Hrel as (Hd' & _ & _ & _ & Hm).
  split; [by rewrite Hu1; cbn; rewrite Hm|].
  split.
  - unfold cancelMembership, orNext, try_catch, bind, User_findById, gets.
    cbn [fst snd dbOf]. rewrite Hu1, Hd', Hd, Hm.
    cbn [planKey m_status negb String.eqb Ascii.eqb Bool.eqb].
    destruct (truthy (planKey (membership u))); cbn [negb]; by eexists.
  - unfold resumeMembership, orNext, try_catch, bind, User_findById, gets.
    cbn [fst snd dbOf]. rewrite Hu1, Hd', Hd, Hm.
    cbn [planKey m_status negb String.eqb Ascii.eqb Bool.eqb andb].
    destruct (truthy (planKey (membership u))); cbn [negb]; by eexists.
Qed.

Lemma refunded_membership_locked_witness :
  let member :=
    sampleUser false {| planKey := Some "PREMIUM"; startedAt := Some 1000;
                        expiresAt := Some 9000; m_status := "ACTIVE" |} in
  let order := sampleMembershipOrder userOne "order_R1" 1 in
  let w := sampleWorld [(orderOne, order)] [(userOne, member)] [] in
  let w1 := (revokeOrderAccess 5000 order w).2 in
  (membership <$> users (committed w1) !! userOne)
  = Some {| planKey := Some "PREMIUM"; startedAt := Some 1000;
            expiresAt := Some 5000; m_status := "REFUNDED" |}
  /\ (exists r, resumeMembership (Some userOne) w1 = (Normal (Sent r), w1)
                /\ statusCode r = 400).
Proof.
  intros member order w w1.
  destruct (refunded_membership_locked 5000 order w member) as (H1 & _ & H3);
    [reflexivity|done|reflexivity|reflexivity|].
  split; [exact H1|exact H3].
Defined.

(** ** Purchase lookup *)

Lemma purchase_lookup_true userId productId w :
  ObjectId_isValid userId = true -> ObjectId_isValid productId = true ->
  hasPaidOrder userId productId (committed w) ->
  userHasPurchasedProduct userId productId w = (Normal true, w).
Proof.
  intros Hu Hp (id & o & Ho & H1 & H2 & H3). unfold userHasPurchasedProduct.
  rewrite Hu, Hp. cbn [negb orb].
  unfold try_catch, bind, Order_countDocuments, gets, ret. cbn [fst snd].
  assert (Hin : (id, o) ∈ base.filter
            (fun e : string * Order =>
               String.eqb (user e.2) (toLowerCase userId)
               && bool_decide (status e.2 = PAID)
               && bool_decide (toLowerCase productId ∈ map product (items e.2)) = true)
            (map_to_list (orders (committed w)))).
  { apply list_elem_of_filter. split; [|by apply elem_of_map_to_list].
    cbn. rewrite (proj2 (String.eqb_eq _ _) H1).
    by rewrite !bool_decide_eq_true_2. }
  destruct (base.filter _ _); [by apply elem_of_nil in Hin|done].
Qed.

Lemma purchase_lookup_false userId productId w :
  hasPaidOrder userId productId (committed w)
  \/ userHasPurchasedProduct userId productId w = (Normal false, w).
Proof.
  unfold userHasPurchasedProduct.
  destruct (negb (ObjectId_isValid userId) || negb (ObjectId_isValid productId));
    [by right|].
  unfold try_catch, bind, Order_countDocuments, gets, ret. cbn [fst snd].
  destruct (base.filter _ (map_to_list (orders (committed w)))) as [|[id o] l] eqn:Hf;
    [by right|left].
  assert (Hin : (id, o) ∈ base.filter
            (fun e : string * Order =>
               String.eqb (user e.2) (toLowerCase userId)
               && bool_decide (status e.2 = PAID)
               && bool_decide (toLowerCase productId ∈ map product (items e.2)) = true)
            (map_to_list (orders (committed w)))).
  { rewrite Hf. by left. }
  apply list_elem_of_filter in Hin as [Hc Hin]. apply elem_of_map_to_list in Hin.
  cbn in Hc. apply andb_true_iff in Hc as [Hc H3]. apply andb_true_iff in Hc as [H1 H2].
  apply String.eqb_eq in H1. apply bool_decide_eq_true in H2, H3.
  by exists id, o.
Qed.

(** X21 — [userHasPurchasedProduct] never changes the world and never
    throws; it answers true exactly when both ids are well-formed ObjectIds
    and some PAID order of that user contains the product.  Orders that are
    PENDING, FAILED, CANCELLED, REFUND_INITIATED or REFUNDED do not count. *)
Theorem purchase_lookup userId productId w :
  exists b,
    userHasPurchasedProduct userId productId w = (Normal b, w)
    /\ (b = true <->
        ObjectId_isValid userId = true /\ ObjectId_isValid productId = true
        /\ hasPaidOrder userId productId (committed w)).
Proof.
  unfold userHasPurchasedProduct.
  destruct (ObjectId_isValid userId) eqn:Hu; cbn [negb orb].
  2:{ exists false. split; [done|]. split; [done|]. by intros [? _]. }
  destruct (ObjectId_isValid productId) eqn:Hp; cbn [negb].
  2:{ exists false. split; [done|]. split; [done|]. by intros (_ & ? & _). }
  unfold try_catch, bind, Order_countDocuments, gets, ret. cbn [fst snd].
  eexists. split; [reflexivity|].
  rewrite Z.ltb_lt. split.
  - intros Hpos. split; [done|]. split; [done|].
    destruct (base.filter _ (map_to_list (orders (committed w)))) as [|[id o] l] eqn:Hf;
      [cbn in Hpos; lia|].
    assert (Hin : (id, o) ∈ base.filter
              (fun e : string * Order =>
                 String.eqb (user e.2) (toLowerCase userId)
                 && bool_decide (status e.2 = PAID)
                 && bool_decide (toLowerCase productId ∈ map product (items e.2)) = true)
              (map_to_list (orders (committed w)))).
    { rewrite Hf. by left. }
    apply list_elem_of_filter in Hin as [Hc Hin]. apply elem_of_map_to_list in Hin.
    cbn in Hc. apply andb_true_iff in Hc as [Hc H3]. apply andb_true_iff in Hc as [H1 H2].
    apply String.eqb_eq in H1. apply bool_decide_eq_true in H2, H3.
    by exists id, o.
  - intros (_ & _ & id & o & Ho & H1 & H2 & H3).
    assert (Hin : (id, o) ∈ base.filter
              (fun e : string * Order =>
                 String.eqb (user e.2) (toLowerCase userId)
                 && bool_decide (status e.2 = PAID)
                 && bool_decide (toLowerCase productId ∈ map product (items e.2)) = true)
              (map_to_list (orders (committed w)))).
    { apply list_elem_of_filter. split; [|by apply elem_of_map_to_list].
      cbn. rewrite (proj2 (String.eqb_eq _ _) H1).
      by rewrite !bool_decide_eq_true_2. }
    destruct (base.filter _ _); [by apply elem_of_nil in Hin|cbn; lia].
Qed.

(** X22 — Once an order for products is settled, [userHasPurchasedProduct]
    answers true for its owner and each of its products (ids in canonical
    lower-case form). *)
Theorem settled_order_is_purchase now id pid sig raw w r w' o i :
  markOrderPaidAndGrantAccess now id pid sig raw w = (Normal r, w') ->
  orders (committed w) !! id = Some o -> status o = PENDING -> i ∈ items o ->
  ObjectId_isValid (user o) = true -> toLowerCase (user o) = user o ->
  ObjectId_isValid (product i) = true -> toLowerCase (product i) = product i ->
  userHasPurchasedProduct (user o) (product i) w' = (Normal true, w').
Proof.
  intros Hrun Ho Hs Hi Hu Hul Hp Hpl. apply settle_inv in Hrun.
  destruct (settle_normal_pending _ _ _ _ _ _ _ _ _ Hrun Ho Hs) as [_ Hl].
  apply purchase_lookup_true; [done|done|].
  exists id, (paid now pid sig raw o). split; [done|]. split; [by rewrite Hul|].
  split; [done|]. rewrite Hpl.
  change (items (paid now pid sig raw o)) with (items o).
  apply list_elem_of_In, in_map. by apply list_elem_of_In.
Qed.

Lemma settled_order_is_purchase_witness :
  let run := markOrderPaidAndGrantAccess 1000 orderOne "pay_1" "sig" emptyRaw pendingWorld in
  userHasPurchasedProduct userOne productA pendingWorld = (Normal false, pendingWorld)
  /\ userHasPurchasedProduct userOne productA run.2 = (Normal true, run.2).
Proof.
  intros run. split; [by vm_compute|].
  eapply (settled_order_is_purchase 1000 orderOne "pay_1" "sig" emptyRaw pendingWorld _ _
            (sampleOrder userOne "order_R1" None) (sampleItem productA 40)).
  - vm_compute. reflexivity.
  - by vm_compute.
  - reflexivity.
  - by left.
  - by vm_compute.
  - by vm_compute.
  - by vm_compute.
  - by vm_compute.
Defined.

(** What the success answer of the admin refund implies. *)
Lemma refundOrder_success_inv now gateway id w :
  wp (refundOrder now gateway id)
     (fun r w' =>
        r = Normal (Sent (json 200 "Refund initiated, access revoked")) ->
        exists o o',
          orders (committed w) !! id = Some o /\ status o = PAID
          /\ orders (committed w') = <[id := o']> (orders (committed w))
          /\ status o' = REFUND_INITIATED) w.
Proof.
  unfold refundOrder, Order_findById.
  repeat wp_step; try done.
  apply negb_false_iff in Heqb0, Heqb1. apply bool_decide_eq_true in Heqb0.
  eapply wp_mono; [apply revokeOrderAccess_orders|].
  intros r w1 [Ho1 _]. destruct r as [[]|e]; [|done].
  assert (Hst1 : orders (committed w1) !! id = Some o) by (by rewrite Ho1).
  destruct (initiateRefund_run now gateway id o o w1 Heqb1 Heqb0 Hst1 Heqb0)
    as (w2 & o' & Hrun & _ & _ & Ho2 & _ & _ & Hg).
  wp_step. unfold wp at 1. rewrite Hrun. cbn [fst snd].
  destruct gateway as [rid|err]; [|done].
  wp_step. intros _. exists o, o'. rewrite Ho2, Ho1. by destruct Hg.
Qed.

(** X23 — After the admin refund has answered with its success message,
    [userHasPurchasedProduct] no longer counts the refunded order: for a
    product that no other PAID order of the owner contains, it answers
    false. *)
Theorem refunded_order_not_purchase now gateway id w o productId :
  (refundOrder now gateway id w).1
  = Normal (Sent (json 200 "Refund initiated, access revoked")) ->
  orders (committed w) !! id = Some o ->
  (forall id' o', id' <> id -> orders (committed w) !! id' = Some o' ->
     ~ (user o' = toLowerCase (user o) /\ status o' = PAID
        /\ toLowerCase productId ∈ map product (items o'))) ->
  userHasPurchasedProduct (user o) productId (refundOrder now gateway id w).2
  = (Normal false, (refundOrder now gateway id w).2).
Proof.
  intros Hok Ho Hothers.
  destruct (refundOrder_success_inv now gateway id w Hok) as (o0 & o' & _ & _ & Ho' & Hs').
  destruct (purchase_lookup_false (user o) productId (refundOrder now gateway id w).2)
    as [H|H]; [|done].
  destruct H as (id' & o1 & Hl & H1 & H2 & H3). exfalso.
  rewrite Ho' in Hl. destruct (decide (id' = id)) as [->|Hne].
  - rewrite lookup_insert_eq in Hl. injection Hl as <-. congruence.
  - rewrite lookup_insert_ne in Hl by done. by apply (Hothers id' o1 Hne Hl).
Qed.

Lemma refunded_order_not_purchase_witness :
  let run := refundOrder 5000 (Normal "rfnd_1") orderOne paidWorld in
  userHasPurchasedProduct userOne productA paidWorld = (Normal true, paidWorld)
  /\ userHasPurchasedProduct userOne productA run.2 = (Normal false, run.2).
Proof.
  intros run. split; [by vm_compute|].
  eapply (refunded_order_not_purchase 5000 (Normal "rfnd_1") orderOne paidWorld
            (paid 1000 "pay_1" "sig" emptyRaw (sampleOrder userOne "order_R1" None))
            productA).
  - by vm_compute.
  - by vm_compute.
  - intros id' o' Hne Hl. exfalso.
    unfold paidWorld, sampleWorld in Hl. cbn [committed orders list_to_map foldr] in Hl.
    rewrite lookup_insert_ne in Hl by done. by rewrite lookup_empty in Hl.
Defined.
